(** * PropertyGuru price-history crawler: a shallow embedding

    The development follows the two programs of the repository:

    - the express server with its [FastCrawler] class (browser pool,
      per-URL pagination controller, progress emitter, batch coordinator);
    - the command-line crawler [crawler.js] ([crawlPriceHistory] and the
      two commander actions).

    The browser is an external collaborator.  Each call into it
    ([puppeteer.launch], [browser.newPage], [page.goto],
    [page.waitForSelector], [page.click], [page.evaluate]) is answered by
    an oracle of the environment; the scripts that the program runs in the
    page context are embedded over a small DOM. *)

From Stdlib Require Import Ascii.
From Stdlib Require QArith Qround.
From stdpp Require Import base option list strings pretty gmap.

Set Warnings "-register-all".

(** ** JavaScript strings *)

Module Js.

(** [\d] of a regular expression without the unicode flag: [0-9]. *)
Definition isDigit (c : ascii) : bool :=
  let n := nat_of_ascii c in Nat.leb 48 n && Nat.leb n 57.

(** A string stands for its text in UTF-8, one [ascii] per byte; the
    characters the program tests for, [#], [-] and the digits, are single
    bytes there and no byte of a longer character looks like one. *)
Definition utf8 (bytes : list nat) : string :=
  foldr (λ byte rest, String (ascii_of_nat byte) rest) EmptyString bytes.

(** The characters removed by [String.prototype.trim], the white space
    and the line terminators of ECMAScript, each in UTF-8: U+0009 to
    U+000D, U+0020, U+00A0, U+1680, U+2000 to U+200A, U+2028, U+2029,
    U+202F, U+205F, U+3000 and U+FEFF. *)
Definition whiteSpace : list string :=
  [utf8 [9]; utf8 [10]; utf8 [11]; utf8 [12]; utf8 [13]; utf8 [32];
   utf8 [194; 160];
   utf8 [225; 154; 128];
   utf8 [226; 128; 128]; utf8 [226; 128; 129]; utf8 [226; 128; 130];
   utf8 [226; 128; 131]; utf8 [226; 128; 132]; utf8 [226; 128; 133];
   utf8 [226; 128; 134]; utf8 [226; 128; 135]; utf8 [226; 128; 136];
   utf8 [226; 128; 137]; utf8 [226; 128; 138];
   utf8 [226; 128; 168]; utf8 [226; 128; 169]; utf8 [226; 128; 175];
   utf8 [226; 129; 159];
   utf8 [227; 128; 128];
   utf8 [239; 187; 191]].

(** What follows [w] at the head of [s], when [s] begins with [w]. *)
Fixpoint stripPrefix (w s : string) : option string :=
  match w, s with
  | EmptyString, _ => Some s
  | String a w', String b s' =>
      if Ascii.eqb a b then stripPrefix w' s' else None
  | String _ _, EmptyString => None
  end.

(** What follows the white-space character at the head of [s]. *)
Definition afterSpace (s : string) : option string :=
  foldr (λ w found, match stripPrefix w s with
                    | Some rest => Some rest
                    | None => found
                    end) None whiteSpace.

(** White-space characters are taken off the head while there are any;
    [budget] bounds the number of them. *)
Fixpoint trimStartWithin (budget : nat) (s : string) : string :=
  match budget with
  | 0 => s
  | S budget =>
      match afterSpace s with
      | Some rest => trimStartWithin budget rest
      | None => s
      end
  end.

Definition trimStart (s : string) : string :=
  trimStartWithin (String.length s) s.

(** The string is cut where all that follows is white space.  Such a
    place is the start of a character: no white-space character begins
    with a byte that continues another character. *)
Fixpoint trimEnd (s : string) : string :=
  match s with
  | String c r =>
      if bool_decide (trimStart s = EmptyString) then EmptyString
      else String c (trimEnd r)
  | EmptyString => EmptyString
  end.

Definition trim (s : string) : string := trimEnd (trimStart s).

(** A number of JavaScript: a fraction (every double is one), an
    infinity, or [NaN]. *)
Inductive number :=
| finite (q : QArith_base.Q)
| infinity
| negInfinity
| notANumber.

(** What a JSON body gives for an option that the program uses as a
    number.  The program asks two things of it: whether it is truthy, in
    [x || d], and which number it converts to, in [i < x].  For a value
    that is not a number (null, a boolean, a string, an array, an
    object) the conversion is not spelled out, the value carries its two
    answers: [true] is truthy and reads as 1, the string "5" is truthy
    and reads as 5, the string "abc" is truthy and reads as [NaN], an
    empty array is truthy and reads as 0, [null] is falsy. *)
Inductive setting :=
| numeral (x : number)
| nonNumber (isTruthy : bool) (reading : number).

(** A number is falsy when it is 0 or [NaN]. *)
Definition truthySetting (x : setting) : bool :=
  match x with
  | numeral (finite q) =>
      negb (QArith_base.Qeq_bool q (QArith_base.inject_Z 0))
  | numeral notANumber => false
  | numeral _ => true
  | nonNumber isTruthy _ => isTruthy
  end.

Definition toNumber (x : setting) : number :=
  match x with
  | numeral n => n
  | nonNumber _ n => n
  end.

Definition ofZ (z : Z) : setting := numeral (finite (QArith_base.inject_Z z)).
Definition ofNat (n : nat) : setting := ofZ (Z.of_nat n).

(** [x || d] on a property that may be absent. *)
Definition orDefault (x : option setting) (d : setting) : setting :=
  match x with
  | Some v => if truthySetting v then v else d
  | None => d
  end.

(** [i < c], for a counter [i]: a comparison with [NaN] is false. *)
Definition below (i : nat) (c : setting) : bool :=
  match toNumber c with
  | finite q =>
      negb (QArith_base.Qle_bool q (QArith_base.inject_Z (Z.of_nat i)))
  | infinity => true
  | negInfinity => false
  | notANumber => false
  end.

(** The number of turns of [for (let i = 0; i < c; i++)]: the number of
    counters below [c], or [None] when every counter is. *)
Definition turnsBelow (c : setting) : option nat :=
  match toNumber c with
  | finite q => Some (Z.to_nat (Qround.Qceiling q))
  | infinity => None
  | negInfinity => Some 0
  | notANumber => Some 0
  end.

(** The values a property of a scraped record can hold: the result of an
    optional chain [e?.textContent?.trim()] is [undefined] or a string. *)
Inductive value :=
| undefined
| str (s : string).

(** Truthiness of such a value, as tested by [if (address)]. *)
Definition truthy (v : value) : bool :=
  match v with
  | undefined => false
  | str EmptyString => false
  | str (String _ _) => true
  end.

(** The text of a value that is a string. *)
Definition textIn (v : value) : option string :=
  match v with
  | str text => Some text
  | undefined => None
  end.

(** Settled state of a promise. *)
Inductive settled (A : Type) :=
| fulfilled (v : A)
| rejected (reason : string).
Arguments fulfilled {A} v.
Arguments rejected {A} reason.

End Js.

(** ** The regular expression [/#(\d+)-/] *)

Module FloorPattern.
Import Js.

(** The greedy [\d+]: the longest run of digits at the head of [s], and
    what follows it. *)
Fixpoint spanDigits (s : string) : string * string :=
  match s with
  | String c r =>
      if isDigit c
      then let '(d, rest) := spanDigits r in (String c d, rest)
      else (EmptyString, s)
  | EmptyString => (EmptyString, EmptyString)
  end.

(** An attempt of the pattern at the head of [s]; the capture group on
    success.  A shorter run of digits cannot help: the character after it
    would be a digit, not the hyphen. *)
Definition matchHere (s : string) : option string :=
  match s with
  | String "#"%char r =>
      match spanDigits r with
      | (String c d, String "-"%char _) => Some (String c d)
      | _ => None
      end
  | _ => None
  end.

(** [address.match(/#(\d+)-/)]: the attempts go left to right and the
    first that succeeds wins; the result is [floorMatch[1]], or [None] for
    the [null] of a failed match. *)
Fixpoint floorMatch (s : string) : option string :=
  match matchHere s with
  | Some d => Some d
  | None =>
      match s with
      | String _ r => floorMatch r
      | EmptyString => None
      end
  end.

(** The pattern, read as a statement about the text: a unit marker, one
    or more digits, a hyphen. *)
Fixpoint allDigits (s : string) : bool :=
  match s with
  | String c r => isDigit c && allDigits r
  | EmptyString => true
  end.

Definition occursAt (address pre d post : string) : Prop :=
  address = pre +:+ String "#"%char (d +:+ String "-"%char post)
  ∧ d ≠ EmptyString ∧ allDigits d = true.

Definition leftmost (address pre d : string) : Prop :=
  (∃ post, occursAt address pre d post)
  ∧ ∀ pre' d' post', occursAt address pre' d' post' →
      String.length pre ≤ String.length pre'.

End FloorPattern.

(** ** A small DOM *)

Module Dom.

(** A node is a text node or an element.  Of the attributes only [da-id]
    is ever read. *)
Inductive Node :=
| Text (data : string)
| Element (tagName : string) (daId : option string)
          (classList : list string) (childNodes : list Node).

(** The selectors the program uses: [[da-id="v"]], [.c] and a tag name. *)
Inductive Selector :=
| ByDaId (v : string)
| ByClass (c : string)
| ByTag (t : string).

Definition contains (classes : list string) (c : string) : bool :=
  bool_decide (c ∈ classes).

Definition matches (sel : Selector) (n : Node) : bool :=
  match n with
  | Text _ => false
  | Element tag da classes _ =>
      match sel with
      | ByDaId v => bool_decide (da = Some v)
      | ByClass c => contains classes c
      | ByTag t => bool_decide (tag = t)
      end
  end.

(** [e.querySelector(sel)]: the first descendant of [e], in document
    order, that matches. *)
Fixpoint querySelector (sel : Selector) (e : Node) : option Node :=
  match e with
  | Text _ => None
  | Element _ _ _ kids =>
      (fix first (l : list Node) : option Node :=
         match l with
         | [] => None
         | k :: rest =>
             if matches sel k then Some k
             else match querySelector sel k with
                  | Some hit => Some hit
                  | None => first rest
                  end
         end) kids
  end.

(** [e.textContent]: the text of all descendants, concatenated. *)
Fixpoint textContent (e : Node) : string :=
  match e with
  | Text data => data
  | Element _ _ _ kids =>
      (fix cat (l : list Node) : string :=
         match l with
         | [] => EmptyString
         | k :: rest => textContent k +:+ cat rest
         end) kids
  end.

(** [e.nextElementSibling], given the siblings that follow [e]. *)
Fixpoint nextElement (following : list Node) : option Node :=
  match following with
  | [] => None
  | Text _ :: rest => nextElement rest
  | Element t d c k :: _ => Some (Element t d c k)
  end.

(** The descendants of [e] matching [sel], in document order, each with
    its [nextElementSibling]. *)
Fixpoint selectAllIn (sel : Selector) (e : Node) : list (Node * option Node) :=
  match e with
  | Text _ => []
  | Element _ _ _ kids =>
      (fix walk (l : list Node) : list (Node * option Node) :=
         match l with
         | [] => []
         | k :: rest =>
             (if matches sel k then [(k, nextElement rest)] else [])
               ++ selectAllIn sel k ++ walk rest
         end) kids
  end.

(** The first descendant of [e] matching [sel], with its ancestors up to
    [e], nearest first. *)
Fixpoint locateIn (sel : Selector) (e : Node) : option (Node * list Node) :=
  match e with
  | Text _ => None
  | Element _ _ _ kids =>
      (fix first (l : list Node) : option (Node * list Node) :=
         match l with
         | [] => None
         | k :: rest =>
             if matches sel k then Some (k, [e])
             else match locateIn sel k with
                  | Some (hit, above) => Some (hit, above ++ [e])
                  | None => first rest
                  end
         end) kids
  end.

(** A document is its root element. *)
Definition Document := Node.

(** [document.querySelectorAll(sel)], each hit with its next sibling. *)
Definition querySelectorAll (sel : Selector) (doc : Document)
  : list (Node * option Node) :=
  (if matches sel doc then [(doc, None)] else []) ++ selectAllIn sel doc.

(** [document.querySelector(sel)], with the ancestors of the hit. *)
Definition locate (sel : Selector) (doc : Document)
  : option (Node * list Node) :=
  if matches sel doc then Some (doc, []) else locateIn sel doc.

(** [e.closest(sel)], for [e] with the ancestors [above]. *)
Definition closest (sel : Selector) (e : Node) (above : list Node)
  : option Node :=
  List.find (matches sel) (e :: above).

Definition hasClass (e : Node) (c : string) : bool :=
  match e with
  | Text _ => false
  | Element _ _ classes _ => contains classes c
  end.

End Dom.

(** ** The scripts evaluated in the page *)

Module Script.
Import Js Dom FloorPattern.

(** A scraped record is the object [transaction = {}] with the properties
    assigned to it. *)
Abbreviation Transaction := (gmap string value).

(** The optional chain [cell.querySelector(sel)?.textContent?.trim()]. *)
Definition textOf (sel : Selector) (cell : Node) : value :=
  match querySelector sel cell with
  | Some e => str (trim (textContent e))
  | None => undefined
  end.

(** The body of [rows.forEach((row) => { ... })], the same text in the
    server and in the command-line crawler, in its two parts.  First the
    cells of the collapsed row. *)
Definition summaryFields (row : Node) : Transaction :=
  let transaction : Transaction := ∅ in
  let transaction :=
    match querySelector (ByDaId "row-date") row with
    | Some dateCell =>
        <["date" := textOf (ByClass "field-value") dateCell]> transaction
    | None => transaction
    end in
  let transaction :=
    match querySelector (ByDaId "row-bedroom") row with
    | Some bedroomCell =>
        <["size" := textOf (ByClass "sub-text") bedroomCell]>
          (<["bedrooms" := textOf (ByClass "main-text") bedroomCell]>
             transaction)
    | None => transaction
    end in
  let transaction :=
    match querySelector (ByDaId "row-price") row with
    | Some priceCell =>
        <["pricePerSqft" := textOf (ByClass "sub-text") priceCell]>
          (<["price" := textOf (ByClass "main-text") priceCell]> transaction)
    | None => transaction
    end in
  let transaction :=
    match querySelector (ByDaId "row-floorLevel") row with
    | Some floorCell =>
        <["floorLevel" := textOf (ByClass "field-value") floorCell]>
          transaction
    | None => transaction
    end in
  match querySelector (ByDaId "row-completed") row with
  | Some completedCell =>
      <["buildStatus" := textOf (ByClass "field-value") completedCell]>
        transaction
  | None => transaction
  end.

(** Then the block guarded by
    [expandedRow && expandedRow.classList.contains("table-row-expanded")]. *)
Definition expandedFields (expandedRow : Node) (transaction : Transaction)
  : Transaction :=
  let transaction :=
    match querySelector (ByDaId "expanded-lease") expandedRow with
    | Some leaseItem =>
        <["lease" := textOf (ByClass "expanded-item-value") leaseItem]>
          transaction
    | None => transaction
    end in
  match querySelector (ByDaId "expanded-address") expandedRow with
  | Some addressItem =>
      let address := textOf (ByClass "expanded-item-value") addressItem in
      let transaction := <["address" := address]> transaction in
      if truthy address then
        match address with
        | str text =>
            match floorMatch text with
            | Some digits => <["floor" := str digits]> transaction
            | None => transaction
            end
        | undefined => transaction
        end
      else transaction
  | None => transaction
  end.

Definition extractRow (row : Node) (nextElementSibling : option Node)
  : Transaction :=
  let transaction := summaryFields row in
  match nextElementSibling with
  | Some expandedRow =>
      if hasClass expandedRow "table-row-expanded"
      then expandedFields expandedRow transaction
      else transaction
  | None => transaction
  end.

(** The script that returns [pageData]. *)
Definition extractPage (doc : Document) : list Transaction :=
  map (λ hit, extractRow hit.1 hit.2)
      (querySelectorAll (ByClass "table-row-collapsed") doc).

(** The object [{ exists, enabled }] of the next-button script. *)
Record ButtonStatus := { btnExists : bool; btnEnabled : bool }.

Definition nextButtonStatus (doc : Document) : ButtonStatus :=
  match locate (ByDaId "hui-pagination-btn-next") doc with
  | None => {| btnExists := false; btnEnabled := false |}
  | Some (nextButton, above) =>
      let parentLi := closest (ByTag "li") nextButton above in
      let isDisabled :=
        match parentLi with
        | Some li => hasClass li "disabled"
        | None => false
        end in
      {| btnExists := true; btnEnabled := negb isDisabled |}
  end.

(** The test [!nextButtonStatus.exists || !nextButtonStatus.enabled]. *)
Definition lastPage (status : ButtonStatus) : bool :=
  negb (btnExists status) || negb (btnEnabled status).

End Script.

(** ** The host: browsers, response streams, session registry, files *)

Module Host.
Import Js Script.

Inductive Status := starting | loading | scraping | completed | error.

(** The payload of [emitProgress]. *)
Record ProgressEvent := {
  ev_urlIndex : nat;
  ev_totalUrls : nat;
  ev_status : Status;
  ev_url : string;
  ev_message : string;
  ev_error : option string;
}.

(** What [crawlPropertyGuru] returns: the scraped result
    [{ url, scrapedAt, totalTransactions, totalPages, transactions }] or
    the error variant [{ url, error, transactions: [] }]; a property that
    the object does not have is [None]. *)
Record CrawlData := {
  cd_url : string;
  cd_error : option string;
  cd_scrapedAt : option string;
  cd_totalTransactions : option nat;
  cd_totalPages : option nat;
  cd_transactions : list Transaction;
}.

(** An entry of the batch result: [{ url, success, data, error }];
    [None] stands for [undefined] in [be_url] and for [null] in [be_data]
    and [be_error]. *)
Record BatchEntry := {
  be_url : option string;
  be_success : bool;
  be_data : option CrawlData;
  be_error : option string;
}.

(** The messages written to a response stream. *)
Inductive Chunk :=
| Progress (data : ProgressEvent)
| Complete (results : list BatchEntry) (sessionId : string) (totalTime : nat)
| Saved (file : string)
| BatchError (message : string).

(** An element as reported by the script of [crawlByClass]. *)
Record ElementInfo := {
  el_text : string;
  el_html : string;
  el_tagName : string;
  el_attributes : list (string * string);
}.

Inductive FileContent :=
| BulkFile (sessionId crawledAt : string) (totalUrls : nat)
           (results : list BatchEntry)
| HistoryFile (result : CrawlData)
| ClassFile (url className timestamp : string) (count : nat)
            (elements : list ElementInfo).

(** An entry [{ res, startTime }] of [activeCrawls]; [res] is the handle
    of a response stream. *)
Record Session := { res : option nat; startTime : nat }.

(** The mutable state the program acts on.  [launched] has the
    [headless] flag of every call of [puppeteer.launch] so far, oldest
    first; the handle of a browser is the position of its call.
    [running] has the handles of the browser processes that are up, and
    [browsers] is the array [this.browsers] of the crawler at work.
    [tabs] has, for every tab that [browser.newPage()] has given so far,
    the handle of the browser it was asked of and the URL it was opened
    for, oldest first; the crawls of a batch are run one after the other
    here and interleaved by the program, so that no statement relies on
    the order among the tabs of one batch. *)
Record World := {
  activeCrawls : gmap string Session;
  streams : gmap nat (list Chunk);
  ended : gset nat;
  launched : list bool;
  running : gset nat;
  browsers : list nat;
  tabs : list (nat * string);
  files : gmap string FileContent;
}.

Definition set_activeCrawls (f : gmap string Session → gmap string Session)
  (w : World) : World :=
  {| activeCrawls := f (activeCrawls w); streams := streams w;
     ended := ended w; launched := launched w; running := running w;
     browsers := browsers w; tabs := tabs w; files := files w |}.
Definition set_streams (f : gmap nat (list Chunk) → gmap nat (list Chunk))
  (w : World) : World :=
  {| activeCrawls := activeCrawls w; streams := f (streams w);
     ended := ended w; launched := launched w; running := running w;
     browsers := browsers w; tabs := tabs w; files := files w |}.
Definition set_ended (f : gset nat → gset nat) (w : World) : World :=
  {| activeCrawls := activeCrawls w; streams := streams w;
     ended := f (ended w); launched := launched w; running := running w;
     browsers := browsers w; tabs := tabs w; files := files w |}.
Definition set_launched (f : list bool → list bool) (w : World) : World :=
  {| activeCrawls := activeCrawls w; streams := streams w;
     ended := ended w; launched := f (launched w); running := running w;
     browsers := browsers w; tabs := tabs w; files := files w |}.
Definition set_running (f : gset nat → gset nat) (w : World) : World :=
  {| activeCrawls := activeCrawls w; streams := streams w;
     ended := ended w; launched := launched w; running := f (running w);
     browsers := browsers w; tabs := tabs w; files := files w |}.
Definition set_browsers (f : list nat → list nat) (w : World) : World :=
  {| activeCrawls := activeCrawls w; streams := streams w;
     ended := ended w; launched := launched w; running := running w;
     browsers := f (browsers w); tabs := tabs w; files := files w |}.
Definition set_tabs (f : list (nat * string) → list (nat * string))
  (w : World) : World :=
  {| activeCrawls := activeCrawls w; streams := streams w;
     ended := ended w; launched := launched w; running := running w;
     browsers := browsers w; tabs := f (tabs w); files := files w |}.
Definition set_files (f : gmap string FileContent → gmap string FileContent)
  (w : World) : World :=
  {| activeCrawls := activeCrawls w; streams := streams w;
     ended := ended w; launched := launched w; running := running w;
     browsers := browsers w; tabs := tabs w; files := f (files w) |}.

(** What one tab shows while the page counter has a given value.  An
    oracle of type [option string] is the message of the error that the
    call throws, or [None] when the call returns. *)
Record PageView := {
  rowsAppear : bool;
    (* [waitForSelector(".table-row-collapsed")] succeeds in time *)
  document : Dom.Document;
    (* the DOM, rows expanded, read by the two scripts of a cycle *)
  scriptThrows : option string;
    (* the two [page.evaluate] calls that expand the rows and extract
       them: the first that throws *)
  statusThrows : option string;
    (* the [page.evaluate] that reads the next control *)
  clickThrows : option string;
    (* [page.click] on the next control *)
}.

(** How the site answers one visit. *)
Record Site := {
  newPageThrows : option string;
    (* [browser.newPage()] *)
  gotoThrows : option string;
    (* [setUserAgent], [evaluateOnNewDocument] and [page.goto], bounded by
       the timeout of the crawler: the first that throws *)
  scrollThrows : option string;
    (* the [page.evaluate] that scrolls to the bottom *)
  tableRoot : bool;
    (* [.price-history-table-root] appears within the ten seconds *)
  filtersThrow : option string;
    (* the [page.evaluate] that clicks the filter chips away *)
  views : nat → PageView;
  collectThrows : string → option string;
    (* the [page.evaluate] of [crawlByClass] that collects the elements
       of a class, for instance under a class name that makes no
       selector *)
  classElements : string → list ElementInfo;
    (* what that script returns for a class name *)
  sampleThrows : option string;
    (* the [page.evaluate] of [crawlByClass] that samples the classes of
       the page *)
  closeThrows : option string;
    (* [page.close()] *)
}.

(** Everything outside the program. *)
Record Env := {
  lambdaHeadless : option bool;
    (* [chromium.headless] when chrome-aws-lambda is loaded and
       [NODE_ENV] is [production] *)
  launchThrows : nat → option string;
    (* the call of [puppeteer.launch] with this number throws *)
  visit : nat → string → Site;
    (* the visit made for a position of the batch to a URL *)
  isoNow : string;
  elapsed : nat;
  fsThrows : option string;
}.

(** *** Computations *)

(** How a piece of asynchronous code ends: it returns, it throws an
    [Error] with a message, or it is still running when the fuel of a loop
    is spent. *)
Inductive Completion (A : Type) :=
| Normal (a : A)
| Throw (message : string)
| Pending.
Arguments Normal {A} a.
Arguments Throw {A} message.
Arguments Pending {A}.

Definition Eff (A : Type) : Type := World → World * Completion A.

Definition ret {A} (a : A) : Eff A := λ w, (w, Normal a).
Definition throw {A} (message : string) : Eff A := λ w, (w, Throw message).
Definition pending {A} : Eff A := λ w, (w, Pending).

Definition bind {A B} (m : Eff A) (k : A → Eff B) : Eff B :=
  λ w, match m w with
       | (w', Normal a) => k a w'
       | (w', Throw message) => (w', Throw message)
       | (w', Pending) => (w', Pending)
       end.

(** [try { body } catch (error) { handler(error.message) }] *)
Definition tryCatch {A} (body : Eff A) (handler : string → Eff A) : Eff A :=
  λ w, match body w with
       | (w', Throw message) => handler message w'
       | other => other
       end.

(** [try { body } finally { final }]: [final] runs however [body] ends,
    and a throw of [final] replaces the outcome of [body]; a [body] that
    is still running has not reached [final]. *)
Definition tryFinally {A} (body : Eff A) (final : Eff unit) : Eff A :=
  λ w, match body w with
       | (w', Pending) => (w', Pending)
       | (w', outcome) =>
           match final w' with
           | (w'', Normal _) => (w'', outcome)
           | (w'', Throw message) => (w'', Throw message)
           | (w'', Pending) => (w'', Pending)
           end
       end.

Definition modify (f : World → World) : Eff unit := λ w, (f w, Normal tt).
Definition gets {A} (f : World → A) : Eff A := λ w, (w, Normal (f w)).

(** An oracle that answers with a message when the call throws. *)
Definition mayThrow (answer : option string) : Eff unit :=
  match answer with
  | Some message => throw message
  | None => ret tt
  end.

(** [res.write] on a response stream. *)
Definition write (stream : nat) (chunk : Chunk) : Eff unit :=
  modify (set_streams (λ s,
    <[stream := default [] (s !! stream) ++ [chunk]]> s)).

(** [browser.close()] *)
Definition close (browser : nat) : Eff unit :=
  modify (set_running (λ up, up ∖ {[browser]})).

(** [browser.newPage()], asked for the visit of a URL. *)
Definition newPage (site : Site) (browser : nat) (url : string) : Eff unit :=
  bind (mayThrow (newPageThrows site))
    (λ _, modify (set_tabs (λ opened, opened ++ [(browser, url)]))).

(** [fs.writeFile(file, JSON.stringify(content))] *)
Definition writeFile (file : string) (content : FileContent) : Eff unit :=
  modify (set_files <[file := content]>).

(** The promise of a task as [Promise.allSettled] sees it: settled one
    way or the other, never thrown. *)
Definition settledOf {A} (task : Eff A) : Eff (settled A) :=
  λ w, match task w with
       | (w', Normal v) => (w', Normal (fulfilled v))
       | (w', Throw message) => (w', Normal (rejected message))
       | (w', Pending) => (w', Pending)
       end.

(** [Promise.allSettled]: every promise is run to its end and its outcome
    kept, in the order of the array.  The tasks are run one after the
    other, which is one of the schedules of the event loop; nothing that
    a task returns depends on the schedule, since a task reads only the
    answers of its own visit. *)
Fixpoint allSettled {A} (tasks : list (Eff A)) : Eff (list (settled A)) :=
  match tasks with
  | [] => ret []
  | task :: rest =>
      bind (settledOf task) (λ r,
        bind (allSettled rest) (λ rs, ret (r :: rs)))
  end.

End Host.

Declare Scope eff_scope.
Delimit Scope eff_scope with eff.
Notation "x <- m ;; k" := (Host.bind m (λ x, k))
  (at level 100, m at next level, right associativity) : eff_scope.
Notation "m ;; k" := (Host.bind m (λ _, k))
  (at level 100, right associativity) : eff_scope.

(** ** The server: class [FastCrawler] *)

Module FastCrawler.
Import Js Script Host.
Local Open Scope eff_scope.

(** The options bag of a request, an object.  A property may be absent;
    what stands for a number is taken as it comes: whole or not,
    positive or not, a number or not.  [opt_headless] is [Some false]
    only for the value [false]. *)
Record Options := {
  opt_concurrency : option setting;
  opt_headless : option bool;
  opt_timeout : option setting;
}.

(** The fields of [this] that never change after construction. *)
Record Crawler := {
  concurrency : setting;
  headless : bool;
  timeout : setting;
}.

(** [constructor(options = {})] *)
Definition constructor (options : Options) : Eff Crawler :=
  modify (set_browsers (λ _, [])) ;;
  ret {| concurrency := orDefault (opt_concurrency options) (ofNat 3);
         headless := negb (bool_decide (opt_headless options = Some false));
         timeout := orDefault (opt_timeout options) (ofZ 30000) |}.

(** [emitProgress(sessionId, data)] *)
Definition emitProgress (sessionId : string) (data : ProgressEvent)
  : Eff unit :=
  session <- gets (λ w, activeCrawls w !! sessionId) ;;
  match session with
  | Some {| res := Some stream |} => write stream (Progress data)
  | _ => ret tt
  end.

Section Methods.
Variable env : Env.

(** [puppeteer.launch({ headless, ... })] *)
Definition launch (headlessFlag : bool) : Eff nat :=
  handle <- gets (λ w, length (launched w)) ;;
  modify (set_launched (λ calls, calls ++ [headlessFlag])) ;;
  mayThrow (launchThrows env handle) ;;
  modify (set_running (λ up, {[handle]} ∪ up)) ;;
  ret handle.

(** The body of the [for] loop of [initBrowsers], run [remaining] times. *)
Fixpoint launchAll (this : Crawler) (remaining : nat) : Eff unit :=
  match remaining with
  | 0 => ret tt
  | S n =>
      browser <- launch (match lambdaHeadless env with
                         | Some flag => flag
                         | None => headless this
                         end) ;;
      modify (set_browsers (λ pool, pool ++ [browser])) ;;
      launchAll this n
  end.

(** The same body in a loop whose test never fails; one unit of fuel per
    turn. *)
Fixpoint launchForever (this : Crawler) (fuel : nat) : Eff unit :=
  match fuel with
  | 0 => pending
  | S fuel =>
      browser <- launch (match lambdaHeadless env with
                         | Some flag => flag
                         | None => headless this
                         end) ;;
      modify (set_browsers (λ pool, pool ++ [browser])) ;;
      launchForever this fuel
  end.

(** [initBrowsers()]: the loop [for (let i = 0; i < this.concurrency;
    i++)] makes as many turns as there are counters below
    [this.concurrency]. *)
Definition initBrowsers (fuel : nat) (this : Crawler) : Eff unit :=
  match turnsBelow (concurrency this) with
  | Some turns => launchAll this turns
  | None => launchForever this fuel
  end.

(** [this.browsers[urlIndex % this.browsers.length]]; the remainder by
    zero is [NaN] and the element at [NaN] is [undefined]. *)
Definition browserFor (pool : list nat) (urlIndex : nat) : option nat :=
  match length pool with
  | 0 => None
  | S _ => pool !! (urlIndex mod length pool)
  end.

Section Visit.
Variables (sessionId url : string) (urlIndex totalUrls : nat).
Variable site : Site.

Definition event (status : Status) (message : string)
  (err : option string) : ProgressEvent :=
  {| ev_urlIndex := urlIndex; ev_totalUrls := totalUrls;
     ev_status := status; ev_url := url; ev_message := message;
     ev_error := err |}.

(** The [while (hasNextPage)] loop with its two variables; one unit of
    fuel per cycle.  A [return] of the function below stands for leaving
    the loop, by [break] or with [hasNextPage = false]. *)
Fixpoint cycle (fuel : nat) (allTransactions : list Transaction)
  (currentPage : nat) : Eff (list Transaction * nat) :=
  match fuel with
  | 0 => pending
  | S fuel =>
      let view := views site currentPage in
      if negb (rowsAppear view) then ret (allTransactions, currentPage)
      else
        mayThrow (scriptThrows view) ;;
        let pageData := extractPage (document view) in
        let allTransactions := allTransactions ++ pageData in
        emitProgress sessionId
          (event scraping
             ("Scraped page " +:+ pretty currentPage +:+ " (" +:+
              pretty (length pageData) +:+ " records)") None) ;;
        mayThrow (statusThrows view) ;;
        if lastPage (nextButtonStatus (document view))
        then ret (allTransactions, currentPage)
        else
          match clickThrows view with
          | Some _ => ret (allTransactions, currentPage)
          | None => cycle fuel allTransactions (S currentPage)
          end
  end.

Definition errorResult (message : string) : CrawlData :=
  {| cd_url := url; cd_error := Some message; cd_scrapedAt := None;
     cd_totalTransactions := None; cd_totalPages := None;
     cd_transactions := [] |}.

(** The [try] block of [crawlPropertyGuru]. *)
Definition scrape (fuel : nat) : Eff CrawlData :=
  emitProgress sessionId (event starting "Navigating to page..." None) ;;
  mayThrow (gotoThrows site) ;;
  emitProgress sessionId (event loading "Waiting for content..." None) ;;
  mayThrow (scrollThrows site) ;;
  if negb (tableRoot site) then
    emitProgress sessionId
      (event error "Price history table not found"
         (Some "No price history data available")) ;;
    ret (errorResult "No price history table found")
  else
    mayThrow (filtersThrow site) ;;
    emitProgress sessionId (event scraping "Extracting data..." None) ;;
    loop <- cycle fuel [] 1 ;;
    let '(allTransactions, currentPage) := loop in
    emitProgress sessionId
      (event completed
         ("Completed: " +:+ pretty (length allTransactions) +:+
          " transactions") None) ;;
    ret {| cd_url := url; cd_error := None;
           cd_scrapedAt := Some (isoNow env);
           cd_totalTransactions := Some (length allTransactions);
           cd_totalPages := Some currentPage;
           cd_transactions := allTransactions |}.

(** The [catch (error)] block. *)
Definition failed (message : string) : Eff CrawlData :=
  emitProgress sessionId (event error message (Some message)) ;;
  ret (errorResult message).

End Visit.

(** [crawlPropertyGuru(url, sessionId, urlIndex, totalUrls)] *)
Definition crawlPropertyGuru (fuel : nat) (this : Crawler)
  (url sessionId : string) (urlIndex totalUrls : nat) : Eff CrawlData :=
  pool <- gets browsers ;;
  match browserFor pool urlIndex with
  | None => throw "Browser not available"
  | Some browser =>
      let site := visit env urlIndex url in
      newPage site browser url ;;
      tryFinally
        (tryCatch (scrape sessionId url urlIndex totalUrls site fuel)
                  (failed sessionId url urlIndex totalUrls))
        (mayThrow (closeThrows site))
  end.

(** The object built for a settled promise by [results.map]. *)
Definition entry (urls : list string) (index : nat)
  (result : settled CrawlData) : BatchEntry :=
  {| be_url := urls !! index;
     be_success := match result with fulfilled _ => true | _ => false end;
     be_data := match result with fulfilled v => Some v | _ => None end;
     be_error := match result with rejected m => Some m | _ => None end |}.

(** [Promise.all(this.browsers.map((browser) => browser.close()))] *)
Fixpoint closeEach (pool : list nat) : Eff unit :=
  match pool with
  | [] => ret tt
  | browser :: rest => close browser ;; closeEach rest
  end.

Definition closeAll : Eff unit :=
  pool <- gets browsers ;; closeEach pool.

(** [crawlMultipleUrls(urls, sessionId)] *)
Definition crawlMultipleUrls (fuel : nat) (this : Crawler)
  (urls : list string) (sessionId : string) : Eff (list BatchEntry) :=
  initBrowsers fuel this ;;
  tryFinally
    (results <- allSettled
       (imap (λ index url,
                crawlPropertyGuru fuel this (trim url) sessionId index
                  (length urls))
             urls) ;;
     ret (imap (entry urls) results))
    closeAll.

End Methods.
End FastCrawler.

(** ** The server: route [POST /crawl] *)

Module Server.
Import Js Script Host FastCrawler.
Local Open Scope eff_scope.

Inductive Response :=
| BadRequest (message : string)
| EventStream.

Section Route.
Variable env : Env.

(** The property [options] of the body, after [options = {}]: the
    default stands in for a property that is absent, not for [null].  A
    value that is neither [null] nor an object has none of the three
    properties read, like the empty object. *)
Inductive OptionsGiven :=
| nullOptions
| objectOptions (options : Options).

(** The handler, for a body whose [urls] is a list of strings; [stream]
    is the response [res] and [now] the value of [Date.now()].  Reading
    [options.concurrency] of [null] throws a [TypeError], after the
    session was stored and before the [try] statement. *)
Definition postCrawl (fuel : nat) (urls : list string)
  (given : OptionsGiven) (stream now : nat) : Eff Response :=
  match urls with
  | [] => ret (BadRequest "URLs array is required")
  | _ :: _ =>
      let sessionId := pretty now in
      modify (set_activeCrawls
                <[sessionId := {| res := Some stream; startTime := now |}]>) ;;
      match given with
      | nullOptions =>
          throw "Cannot read properties of null (reading 'concurrency')"
      | objectOptions options =>
          crawler <- constructor
            {| opt_concurrency :=
                 Some (orDefault (opt_concurrency options) (ofNat 3));
               opt_headless :=
                 Some (negb (bool_decide
                               (opt_headless options = Some false)));
               opt_timeout :=
                 Some (orDefault (opt_timeout options) (ofZ 30000)) |} ;;
          tryFinally
            (tryCatch
               (results <- crawlMultipleUrls env fuel crawler urls
                             sessionId ;;
                write stream (Complete results sessionId (elapsed env)) ;;
                let outputFile :=
                  "output/bulk-crawl-" +:+ sessionId +:+ ".json" in
                mayThrow (fsThrows env) ;;
                writeFile outputFile
                  (BulkFile sessionId (isoNow env) (length urls) results) ;;
                write stream (Saved outputFile))
               (λ message, write stream (BatchError message)))
            (modify (set_activeCrawls (delete sessionId)) ;;
             modify (set_ended (λ s, {[stream]} ∪ s))) ;;
          ret EventStream
      end
  end.

End Route.
End Server.

(** ** The command-line crawler *)

Module Cli.
Import Js Script Host.
Local Open Scope eff_scope.

Section Commands.
Variable env : Env.

(** [puppeteer.launch({ headless: headless, ... })] *)
Definition launch (headlessFlag : bool) : Eff nat :=
  FastCrawler.launch env headlessFlag.

Section Visit.
Variable site : Site.

(** The [while (hasNextPage)] loop of [crawlPriceHistory]; the rows are
    awaited once, before the loop. *)
Fixpoint cycle (fuel : nat) (allTransactions : list Transaction)
  (currentPage : nat) : Eff (list Transaction * nat) :=
  match fuel with
  | 0 => pending
  | S fuel =>
      let view := views site currentPage in
      mayThrow (scriptThrows view) ;;
      let pageData := extractPage (document view) in
      let allTransactions := allTransactions ++ pageData in
      mayThrow (statusThrows view) ;;
      if lastPage (nextButtonStatus (document view))
      then ret (allTransactions, currentPage)
      else
        match clickThrows view with
        | Some _ => ret (allTransactions, currentPage)
        | None => cycle fuel allTransactions (S currentPage)
        end
  end.

(** The [try] block of [crawlPriceHistory] after the launch. *)
Definition scrape (browser fuel : nat) (url outputFile : string)
  : Eff unit :=
  newPage site browser url ;;
  mayThrow (gotoThrows site) ;;
  mayThrow (scrollThrows site) ;;
  if negb (tableRoot site) then ret tt
  else
    mayThrow (filtersThrow site) ;;
    if negb (rowsAppear (views site 1)) then ret tt
    else
      loop <- cycle fuel [] 1 ;;
      let '(allTransactions, currentPage) := loop in
      mayThrow (fsThrows env) ;;
      writeFile outputFile
        (HistoryFile {| cd_url := url; cd_error := None;
                        cd_scrapedAt := Some (isoNow env);
                        cd_totalTransactions := Some (length allTransactions);
                        cd_totalPages := Some currentPage;
                        cd_transactions := allTransactions |}).

(** The [try] block of [crawlByClass] after the launch.  The wait for
    the selector has a [catch] of its own; the two scripts have not. *)
Definition scrapeClass (browser : nat) (url className outputFile : string)
  : Eff unit :=
  newPage site browser url ;;
  mayThrow (gotoThrows site) ;;
  mayThrow (scrollThrows site) ;;
  mayThrow (collectThrows site className) ;;
  let data := classElements site className in
  match data with
  | [] => mayThrow (sampleThrows site)
  | _ :: _ =>
      mayThrow (fsThrows env) ;;
      writeFile outputFile
        (ClassFile url className (isoNow env) (length data) data)
  end.

End Visit.

(** [crawlPriceHistory(url, outputFile, headless)].  The variable
    [browser] is assigned by the first statement of the [try] block: when
    the launch throws, the [finally] block finds it [undefined] and closes
    nothing; afterwards it closes that browser.  The [catch] block throws
    the error again. *)
Definition crawlPriceHistory (fuel : nat) (url outputFile : string)
  (headlessFlag : bool) : Eff unit :=
  browser <- launch headlessFlag ;;
  tryFinally
    (tryCatch (scrape (visit env 0 url) browser fuel url outputFile) throw)
    (close browser).

(** [crawlByClass(url, className, outputFile, headless)] *)
Definition crawlByClass (url className outputFile : string)
  (headlessFlag : bool) : Eff unit :=
  browser <- launch headlessFlag ;;
  tryFinally
    (tryCatch
       (scrapeClass (visit env 0 url) browser url className outputFile)
       throw)
    (close browser).

(** [options.headless === "false" ? false : true] *)
Definition headlessMode (headlessOption : string) : bool :=
  if bool_decide (headlessOption = "false") then false else true.

(** The value commander gives an option declared with a default. *)
Definition optionValue (given : option string) (byDefault : string)
  : string :=
  default byDefault given.

(** The action of [price-history]; the result is the exit status. *)
Definition priceHistoryAction (fuel : nat) (url : string)
  (output headlessArg : option string) : Eff nat :=
  let options_output := optionValue output "price-history.json" in
  let options_headless := optionValue headlessArg "false" in
  tryCatch
    (crawlPriceHistory fuel url options_output
       (headlessMode options_headless) ;;
     ret 0)
    (λ _, ret 1).

(** The action of [crawl]. *)
Definition crawlAction (url className : string)
  (output headlessArg : option string) : Eff nat :=
  let options_output := optionValue output "output.json" in
  let options_headless := optionValue headlessArg "false" in
  tryCatch
    (crawlByClass url className options_output
       (headlessMode options_headless) ;;
     ret 0)
    (λ _, ret 1).

End Commands.
End Cli.

(** ** Observations on runs *)

Module Run.
Import Js Dom Script Host.

(** The way a computation ends from a world, and the world it leaves. *)
Definition outcome {A} (m : Eff A) (w : World) : Completion A := (m w).2.
Definition after {A} (m : Eff A) (w : World) : World := (m w).1.

(** [w'] is [w] but for what was written to the response streams and for
    the tabs that were opened. *)
Definition emitted (w w' : World) : Prop :=
  ∃ s t, w' = set_tabs (λ _, t) (set_streams (λ _, s) w).

(** A computation that opens tabs and writes to the response streams at
    most, and whose outcome is fixed by the array [this.browsers]. *)
Definition Tame {A} (m : Eff A) : Prop :=
  ∀ w, emitted w (after m w)
       ∧ ∀ w', browsers w' = browsers w → outcome m w' = outcome m w.

(** A computation that leaves a part of the world as it found it. *)
Definition Keeps {A X} (part : World → X) (m : Eff A) : Prop :=
  ∀ w, part (after m w) = part w.

(** The result object of a scrape that got through its loop. *)
Definition scrapedResult (env : Env) (url : string)
  (allTransactions : list Transaction) (currentPage : nat) : CrawlData :=
  {| cd_url := url; cd_error := None; cd_scrapedAt := Some (isoNow env);
     cd_totalTransactions := Some (length allTransactions);
     cd_totalPages := Some currentPage;
     cd_transactions := allTransactions |}.

(** A world with nothing in it but the array [this.browsers]. *)
Definition blank (pool : list nat) : World :=
  {| activeCrawls := ∅; streams := ∅; ended := ∅; launched := [];
     running := ∅; browsers := pool; tabs := []; files := ∅ |}.

(** The world after a tab was opened on a browser for a URL. *)
Definition opened (browser : nat) (url : string) (w : World) : World :=
  set_tabs (λ sofar, sofar ++ [(browser, url)]) w.

(** The state in which [Promise.allSettled] finds a promise. *)
Definition settle {A} (c : Completion A) : option (settled A) :=
  match c with
  | Normal v => Some (fulfilled v)
  | Throw message => Some (rejected message)
  | Pending => None
  end.

(** The rows of one page of a visit, and of [count] pages in a row. *)
Definition pageRows (site : Site) (page : nat) : list Transaction :=
  extractPage (document (views site page)).

Definition pagesFrom (site : Site) (first count : nat) : list Transaction :=
  concat (map (pageRows site) (seq first count)).

(** The page is scraped and the click on the next control succeeds. *)
Definition turns (site : Site) (page : nat) : Prop :=
  rowsAppear (views site page) = true
  ∧ scriptThrows (views site page) = None
  ∧ statusThrows (views site page) = None
  ∧ lastPage (nextButtonStatus (document (views site page))) = false
  ∧ clickThrows (views site page) = None.

(** The next control of a document: absent, or inside an [li] that
    carries the class [disabled]. *)
Definition nextAbsent (doc : Document) : Prop :=
  locate (ByDaId "hui-pagination-btn-next") doc = None.

Definition nextDisabled (doc : Document) : Prop :=
  ∃ button above li,
    locate (ByDaId "hui-pagination-btn-next") doc = Some (button, above)
    ∧ closest (ByTag "li") button above = Some li
    ∧ hasClass li "disabled" = true.

(** A table of three pages with 10, 10 and 4 rows, whose next control is
    usable on the first two pages and disabled on the third; every wait
    for rows succeeds and nothing throws. *)
Definition threePageTable (site : Site) : Prop :=
  (∀ page, 1 ≤ page ≤ 3 →
     rowsAppear (views site page) = true
     ∧ scriptThrows (views site page) = None
     ∧ statusThrows (views site page) = None)
  ∧ length (pageRows site 1) = 10
  ∧ length (pageRows site 2) = 10
  ∧ length (pageRows site 3) = 4
  ∧ (∀ page, 1 ≤ page ≤ 2 →
       ¬ (nextAbsent (document (views site page))
          ∨ nextDisabled (document (views site page)))
       ∧ clickThrows (views site page) = None)
  ∧ nextDisabled (document (views site 3)).

(** The visit reaches the pagination loop: the tab opens, the navigation
    succeeds, the table root is there, no script before the loop throws,
    and the tab closes. *)
Definition reachesTable (site : Site) : Prop :=
  newPageThrows site = None ∧ gotoThrows site = None
  ∧ scrollThrows site = None ∧ tableRoot site = true
  ∧ filtersThrow site = None ∧ closeThrows site = None.

(** The calls of [puppeteer.launch] numbered [first .. first + count - 1]
    succeed. *)
Definition launchesSucceed (env : Env) (first count : nat) : Prop :=
  ∀ k, k < count → launchThrows env (first + k) = None.

(** The flag [initBrowsers] launches its browsers with. *)
Definition poolFlag (env : Env) (this : FastCrawler.Crawler) : bool :=
  match lambdaHeadless env with
  | Some flag => flag
  | None => FastCrawler.headless this
  end.

(** The world after [count] successful launches in a row. *)
Definition provisioned (flag : bool) (count : nat) (w : World) : World :=
  let first := length (launched w) in
  set_running (λ up, list_to_set (seq first count) ∪ up)
    (set_browsers (λ pool, pool ++ seq first count)
       (set_launched (λ calls, calls ++ replicate count flag) w)).

(** The tab that the crawl of the URL at a position of a batch opens,
    when the pool has the browsers [first .. first + budget - 1]: on the
    browser at position [index mod budget] of the pool, for the trimmed
    URL; none when the pool is empty or [newPage] throws. *)
Definition tabOf (env : Env) (first budget index : nat) (url : string)
  : option (nat * string) :=
  match budget, newPageThrows (visit env index (trim url)) with
  | S _, None => Some (first + index mod budget, trim url)
  | _, _ => None
  end.

Definition tabsOf (env : Env) (first budget : nat) (urls : list string)
  : list (nat * string) :=
  omap id (imap (tabOf env first budget) urls).

(** The outcome of the crawl of one URL of a batch, taken on its own. *)
Definition crawlOutcome (env : Env) (fuel : nat) (this : FastCrawler.Crawler)
  (pool : list nat) (urls : list string) (sessionId : string)
  (index : nat) (url : string) : Completion CrawlData :=
  outcome (FastCrawler.crawlPropertyGuru env fuel this (trim url) sessionId
             index (length urls)) (blank pool).

End Run.

(** ** Sample pages *)

Module Sample.
Import Js Dom Script Host.

(** A cell [<td da-id=...><span class=...>text</span></td>]. *)
Definition cell (da cls text : string) : Node :=
  Element "td" (Some da) [] [Element "span" None [cls] [Text text]].

(** A collapsed row with a date and a price, and nothing else. *)
Definition sparseRow : Node :=
  Element "tr" None ["table-row-collapsed"]
    [cell "row-date" "field-value" " Sept 2025 ";
     Element "td" (Some "row-price") []
       [Element "div" None ["main-text"] [Text "S$ 4.05M"];
        Element "div" None ["sub-text"] [Text "S$ 2368 psf"]]].

(** The detail row that follows, with an address. *)
Definition detailRow (address : string) : Node :=
  Element "tr" None ["table-row-expanded"]
    [Element "div" (Some "expanded-address") []
       [Element "span" None ["expanded-item-value"] [Text address]]].

(** The pagination list, with the next control inside its [li]. *)
Definition pagination (disabled : bool) : Node :=
  Element "ul" None ["hui-pagination"]
    [Element "li" None (if disabled then ["disabled"] else [])
       [Element "a" (Some "hui-pagination-btn-next") [] [Text ">"]]].

(** A page of the table with [rows] rows, each followed by its detail. *)
Definition tablePage (rows : nat) (disabled : bool) : Document :=
  Element "html" None []
    [Element "table" None ["price-history-table-root"]
       (concat (replicate rows [sparseRow; detailRow "#07-12, Example Rd"]));
     pagination disabled].

Definition view (rows : nat) (disabled : bool) : PageView :=
  {| rowsAppear := true; document := tablePage rows disabled;
     scriptThrows := None; statusThrows := None; clickThrows := None |}.

Definition emptyView : PageView :=
  {| rowsAppear := false; document := Element "html" None [] [];
     scriptThrows := None; statusThrows := None; clickThrows := None |}.

Definition siteOf (root : bool) (pages : nat → PageView) : Site :=
  {| newPageThrows := None; gotoThrows := None; scrollThrows := None;
     tableRoot := root; filtersThrow := None; views := pages;
     collectThrows := λ _, None; classElements := λ _, [];
     sampleThrows := None; closeThrows := None |}.

(** Three pages of 10, 10 and 4 rows. *)
Definition threePageSite : Site :=
  siteOf true (λ page, match page with
                       | 1 | 2 => view 10 false
                       | 3 => view 4 true
                       | _ => emptyView
                       end).

(** The click on the second page throws. *)
Definition clickFailsSite : Site :=
  siteOf true (λ page, match page with
                       | 1 => view 10 false
                       | 2 => {| rowsAppear := true;
                                 document := tablePage 10 false;
                                 scriptThrows := None;
                                 statusThrows := None;
                                 clickThrows := Some "Node is detached" |}
                       | _ => emptyView
                       end).

(** After the first click no row shows up any more. *)
Definition vanishingSite : Site :=
  siteOf true (λ page, match page with
                       | 1 => view 10 false
                       | _ => emptyView
                       end).

(** One page of two rows, its next control disabled. *)
Definition onePageSite : Site :=
  siteOf true (λ page, match page with
                       | 1 => view 2 true
                       | _ => emptyView
                       end).

(** The page loads, the table root never appears. *)
Definition noTableSite : Site := siteOf false (λ _, emptyView).

(** The navigation throws. *)
Definition unreachableSite : Site :=
  {| newPageThrows := None;
     gotoThrows := Some "net::ERR_NAME_NOT_RESOLVED";
     scrollThrows := None; tableRoot := false; filtersThrow := None;
     views := λ _, emptyView;
     collectThrows := λ _, None; classElements := λ _, [];
     sampleThrows := None; closeThrows := None |}.

Definition envOf (launch : nat → option string)
  (sites : nat → string → Site) : Env :=
  {| lambdaHeadless := None; launchThrows := launch; visit := sites;
     isoNow := "2025-09-01T00:00:00.000Z"; elapsed := 0; fsThrows := None |}.

(** Every visit finds the same site. *)
Definition web (site : Site) : Env := envOf (λ _, None) (λ _ _, site).

(** The second URL of a batch cannot be reached. *)
Definition secondUnreachable : Env :=
  envOf (λ _, None)
        (λ index _, match index with
                    | 1 => unreachableSite
                    | _ => onePageSite
                    end).

(** The second launch fails. *)
Definition secondLaunchFails : Env :=
  envOf (λ call, match call with
                 | 1 => Some "Failed to launch the browser process"
                 | _ => None
                 end)
        (λ _ _, onePageSite).

Definition crawler (budget : nat) : FastCrawler.Crawler :=
  {| FastCrawler.concurrency := ofNat budget; FastCrawler.headless := true;
     FastCrawler.timeout := ofZ 30000 |}.

End Sample.

(** ** What the outside sees *)

Module Observe.
Import Js Script Host Run FastCrawler.

(** The chunks a response stream has received. *)
Definition chunksOf (stream : nat) (w : World) : list Chunk :=
  default [] (streams w !! stream).

(** The registry has the session, with this response stream. *)
Definition listening (sessionId : string) (stream : nat) (w : World)
  : Prop :=
  ∃ since,
    activeCrawls w !! sessionId
    = Some {| res := Some stream; startTime := since |}.

(** The crawler of a request: the defaults applied once. *)
Definition routeCrawler (options : Options) : Crawler :=
  {| concurrency := orDefault (opt_concurrency options) (ofNat 3);
     headless := negb (bool_decide (opt_headless options = Some false));
     timeout := orDefault (opt_timeout options) (ofZ 30000) |}.

(** The file a request saves its results to. *)
Definition bulkFile (sessionId : string) : string :=
  "output/bulk-crawl-" +:+ sessionId +:+ ".json".

(** The world as the handler of [POST /crawl] sets it up: the session
    registered, the pool of the new crawler empty. *)
Definition registered (stream now : nat) (w : World) : World :=
  set_browsers (λ _, [])
    (set_activeCrawls
       <[pretty now := {| res := Some stream; startTime := now |}]> w).

(** An event that does not end the reporting on a URL. *)
Definition inProgress (data : ProgressEvent) : Prop :=
  ev_status data = loading ∨ ev_status data = scraping.

(** An event about a URL of a batch. *)
Definition concerns (url : string) (urlIndex totalUrls : nat)
  (data : ProgressEvent) : Prop :=
  ev_url data = url ∧ ev_urlIndex data = urlIndex
  ∧ ev_totalUrls data = totalUrls.

(** The world after these events were written to a stream. *)
Definition report (stream : nat) (events : list ProgressEvent) (w : World)
  : World :=
  foldl (λ w data, after (write stream (Progress data)) w) w events.

(** The keys a scraped record can have. *)
Definition knownKeys : list string :=
  ["date"; "bedrooms"; "size"; "price"; "pricePerSqft"; "floorLevel";
   "buildStatus"; "lease"; "address"; "floor"].

End Observe.

(** ** More sample pages *)

Module Fixtures.
Import Js Dom Script Host Run Sample.

(** The script of the second page throws. *)
Definition scriptFailsSite : Site :=
  siteOf true (λ page, match page with
                       | 1 => view 10 false
                       | 2 => {| rowsAppear := true;
                                 document := tablePage 10 false;
                                 scriptThrows :=
                                   Some "Execution context was destroyed";
                                 statusThrows := None;
                                 clickThrows := None |}
                       | _ => emptyView
                       end).

(** The rows of the first page are read, then the script that looks at
    the next control throws. *)
Definition statusFailsSite : Site :=
  siteOf true (λ page, match page with
                       | 1 => {| rowsAppear := true;
                                 document := tablePage 2 false;
                                 scriptThrows := None;
                                 statusThrows :=
                                   Some "Execution context was destroyed";
                                 clickThrows := None |}
                       | _ => emptyView
                       end).

(** The selector built from the class is refused by the page. *)
Definition badClassSite : Site :=
  {| newPageThrows := None; gotoThrows := None; scrollThrows := None;
     tableRoot := false; filtersThrow := None; views := λ _, emptyView;
     collectThrows := λ _, Some "SyntaxError: not a valid selector";
     classElements := λ _, []; sampleThrows := None; closeThrows := None |}.

(** A row whose date stands between a no-break space and a line
    separator. *)
Definition paddedRow : Node :=
  Element "tr" None ["table-row-collapsed"]
    [cell "row-date" "field-value"
       (utf8 [194; 160] +:+ "Sept 2025" +:+ utf8 [226; 128; 168])].

(** The tab cannot be opened. *)
Definition tabFailsSite : Site :=
  {| newPageThrows := Some "Protocol error (Target.createTarget)";
     gotoThrows := None; scrollThrows := None; tableRoot := true;
     filtersThrow := None; views := λ _, emptyView;
     collectThrows := λ _, None; classElements := λ _, [];
     sampleThrows := None; closeThrows := None |}.

(** The table root is there, its rows never are. *)
Definition emptyTableSite : Site := siteOf true (λ _, emptyView).


(** The tab of the second URL of a batch cannot be opened. *)
Definition secondTabFails : Env :=
  envOf (λ _, None)
        (λ index _, match index with
                    | 1 => tabFailsSite
                    | _ => onePageSite
                    end).

(** A request body without options. *)
Definition noOptions : FastCrawler.Options :=
  {| FastCrawler.opt_concurrency := None; FastCrawler.opt_headless := None;
     FastCrawler.opt_timeout := None |}.

(** A world in which the session [sessionId] writes to [stream]. *)
Definition listeningWorld (sessionId : string) (stream : nat)
  (pool : list nat) : World :=
  set_activeCrawls
    <[sessionId := {| res := Some stream; startTime := 0 |}]> (blank pool).

End Fixtures.

(** * Properties *)

(** ** The pattern of the floor *)

Module FloorPatternFacts.
Import Js FloorPattern.

Lemma spanDigits_split s d rest :
  spanDigits s = (d, rest) →
  s = d +:+ rest ∧ allDigits d = true.
Proof.
  revert d rest. induction s as [|c r IH]; intros d rest; simpl.
  - intros [= <- <-]. done.
  - destruct (isDigit c) eqn:Hc.
    + destruct (spanDigits r) as [d' rest'] eqn:Hr.
      intros [= <- <-]. destruct (IH _ _ eq_refl) as [-> Hd].
      simpl. by rewrite Hc, Hd.
    + intros [= <- <-]. done.
Qed.

Lemma spanDigits_run d post :
  allDigits d = true →
  spanDigits (d +:+ String "-"%char post) = (d, String "-"%char post).
Proof.
  induction d as [|c d IH]; simpl; [done|].
  intros [Hc Hd]%andb_true_iff. by rewrite Hc, (IH Hd).
Qed.

Lemma matchHere_Some s d :
  matchHere s = Some d ↔ ∃ post, occursAt s EmptyString d post.
Proof.
  unfold occursAt. split.
  - destruct s as [|c r]; [done|]. simpl.
    destruct (Ascii.ascii_dec c "#"%char) as [->|Hne].
    + destruct (spanDigits r) as [run rest] eqn:Hr.
      apply spanDigits_split in Hr as [-> Hd].
      destruct run as [|c0 run]; [done|].
      destruct rest as [|c1 rest]; [done|].
      destruct (Ascii.ascii_dec c1 "-"%char) as [->|Hne1].
      * intros [= <-]. by exists rest.
      * intros H. exfalso. revert H.
        destruct c1 as [[] [] [] [] [] [] [] []]; try done.
    + intros H. exfalso. revert H.
      destruct c as [[] [] [] [] [] [] [] []]; try done.
  - intros (post & -> & Hne & Hd). simpl.
    rewrite (spanDigits_run _ _ Hd). by destruct d.
Qed.

Lemma occursAt_cons c s pre d post :
  occursAt s pre d post ↔ occursAt (String c s) (String c pre) d post.
Proof.
  unfold occursAt; simpl. split.
  - intros (-> & ? & ?). done.
  - intros ([= ->] & ? & ?). done.
Qed.

Lemma floorMatch_None s :
  floorMatch s = None ↔ ∀ pre d post, ¬ occursAt s pre d post.
Proof.
  induction s as [|c r IH].
  - split; [|done]. intros _ pre d post (H & _).
    destruct pre; discriminate H.
  - cbn [floorMatch]. destruct (matchHere (String c r)) as [d0|] eqn:Hm.
    + split; [done|]. intros H. apply matchHere_Some in Hm as [post Hp].
      by destruct (H _ _ _ Hp).
    + rewrite IH. split.
      * intros H [|c' pre] d post Hocc.
        -- assert (matchHere (String c r) = Some d) as Hd
             by (apply matchHere_Some; eauto).
           congruence.
        -- assert (c' = c) as -> by (destruct Hocc as [[= -> _] _]; done).
           apply occursAt_cons in Hocc. by eapply H.
      * intros H pre d post Hocc. eapply (H (String c pre)).
        apply occursAt_cons, Hocc.
Qed.

Lemma floorMatch_Some s d :
  floorMatch s = Some d ↔ ∃ pre, leftmost s pre d.
Proof.
  revert d. induction s as [|c r IH]; intros d.
  - split; [done|]. intros (pre & (post & H & _) & _).
    destruct pre; discriminate H.
  - cbn [floorMatch]. destruct (matchHere (String c r)) as [d0|] eqn:Hm.
    + split.
      * intros [= ->]. exists EmptyString. split.
        -- by apply matchHere_Some.
        -- intros; simpl; lia.
      * intros (pre & (post & Hocc) & Hmin).
        apply matchHere_Some in Hm as [post0 Hp0].
        specialize (Hmin _ _ _ Hp0). destruct pre; [|simpl in Hmin; lia].
        assert (matchHere (String c r) = Some d) as Hd
          by (apply matchHere_Some; eauto).
        assert (matchHere (String c r) = Some d0) as Hd0
          by (apply matchHere_Some; eauto).
        congruence.
    + rewrite IH. split.
      * intros (pre & (post & Hocc) & Hmin). exists (String c pre). split.
        -- exists post. by apply occursAt_cons.
        -- intros [|c' pre'] d' post' Hocc'.
           ++ assert (matchHere (String c r) = Some d') as Hd
                by (apply matchHere_Some; eauto).
              congruence.
           ++ assert (c' = c) as -> by (destruct Hocc' as [[= -> _] _]; done).
              apply occursAt_cons in Hocc'. specialize (Hmin _ _ _ Hocc').
              simpl; lia.
      * intros ([|c' pre] & (post & Hocc) & Hmin).
        -- assert (matchHere (String c r) = Some d) as Hd
             by (apply matchHere_Some; eauto).
           congruence.
        -- assert (c' = c) as -> by (destruct Hocc as [[= -> _] _]; done).
           exists pre. split.
           ++ exists post. by eapply occursAt_cons.
           ++ intros pre' d' post' Hocc'.
              apply (occursAt_cons c) in Hocc'.
              specialize (Hmin _ _ _ Hocc'). simpl in Hmin; lia.
Qed.

End FloorPatternFacts.

(** ** The page scripts *)

Module ScriptFacts.
Import Js Dom FloorPattern Script FloorPatternFacts.

Ltac settle_lookups :=
  repeat match goal with
         | |- context [querySelector ?sel ?e] => destruct (querySelector sel e)
         end;
  simpl;
  repeat first [ rewrite lookup_insert_eq
               | rewrite lookup_insert_ne by done
               | rewrite lookup_empty ];
  try done.

(** What [summaryFields] leaves under each key. *)
Lemma summaryFields_lookup row k :
  summaryFields row !! k =
    if decide (k = "date") then
      textOf (ByClass "field-value") <$> querySelector (ByDaId "row-date") row
    else if decide (k = "bedrooms") then
      textOf (ByClass "main-text") <$> querySelector (ByDaId "row-bedroom") row
    else if decide (k = "size") then
      textOf (ByClass "sub-text") <$> querySelector (ByDaId "row-bedroom") row
    else if decide (k = "price") then
      textOf (ByClass "main-text") <$> querySelector (ByDaId "row-price") row
    else if decide (k = "pricePerSqft") then
      textOf (ByClass "sub-text") <$> querySelector (ByDaId "row-price") row
    else if decide (k = "floorLevel") then
      textOf (ByClass "field-value")
        <$> querySelector (ByDaId "row-floorLevel") row
    else if decide (k = "buildStatus") then
      textOf (ByClass "field-value")
        <$> querySelector (ByDaId "row-completed") row
    else None.
Proof.
  unfold summaryFields. repeat case_decide; subst; settle_lookups.
Qed.

(** The block of the address with the test of truthiness resolved: the
    empty string matches nothing. *)
Lemma expandedFields_unfold e t :
  expandedFields e t =
    let t :=
      match querySelector (ByDaId "expanded-lease") e with
      | Some leaseItem =>
          <["lease" := textOf (ByClass "expanded-item-value") leaseItem]> t
      | None => t
      end in
    match querySelector (ByDaId "expanded-address") e with
    | Some addressItem =>
        let address := textOf (ByClass "expanded-item-value") addressItem in
        match textIn address ≫= floorMatch with
        | Some digits => <["floor" := str digits]> (<["address" := address]> t)
        | None => <["address" := address]> t
        end
    | None => t
    end.
Proof.
  unfold expandedFields.
  destruct (querySelector (ByDaId "expanded-address") e) as [item|]; [|done].
  cbv zeta.
  destruct (textOf (ByClass "expanded-item-value") item) as [|[|c text]];
    done.
Qed.

Lemma expandedFields_lease e t :
  expandedFields e t !! "lease" =
    match querySelector (ByDaId "expanded-lease") e with
    | Some leaseItem => Some (textOf (ByClass "expanded-item-value") leaseItem)
    | None => t !! "lease"
    end.
Proof.
  rewrite expandedFields_unfold. cbv zeta.
  destruct (querySelector (ByDaId "expanded-address") e) as [item|];
    [destruct (textIn _ ≫= floorMatch)|]; settle_lookups.
Qed.

Lemma expandedFields_address e t :
  expandedFields e t !! "address" =
    match querySelector (ByDaId "expanded-address") e with
    | Some addressItem =>
        Some (textOf (ByClass "expanded-item-value") addressItem)
    | None => t !! "address"
    end.
Proof.
  rewrite expandedFields_unfold. cbv zeta.
  destruct (querySelector (ByDaId "expanded-address") e) as [item|];
    [destruct (textIn _ ≫= floorMatch)|]; settle_lookups.
Qed.

Lemma expandedFields_floor e t :
  expandedFields e t !! "floor" =
    match querySelector (ByDaId "expanded-address") e with
    | Some addressItem =>
        match textIn (textOf (ByClass "expanded-item-value") addressItem)
                ≫= floorMatch with
        | Some digits => Some (str digits)
        | None => t !! "floor"
        end
    | None => t !! "floor"
    end.
Proof.
  rewrite expandedFields_unfold. cbv zeta.
  destruct (querySelector (ByDaId "expanded-address") e) as [item|];
    [destruct (textIn _ ≫= floorMatch)|]; settle_lookups.
Qed.

Lemma expandedFields_other e t k :
  k ≠ "lease" → k ≠ "address" → k ≠ "floor" →
  expandedFields e t !! k = t !! k.
Proof.
  intros. rewrite expandedFields_unfold. cbv zeta.
  destruct (querySelector (ByDaId "expanded-address") e) as [item|];
    [destruct (textIn _ ≫= floorMatch)|]; settle_lookups.
Qed.

(** The floor is read off the address. *)
Lemma extractRow_floor row sibling :
  extractRow row sibling !! "floor" =
    match extractRow row sibling !! "address" with
    | Some (str text) => str <$> floorMatch text
    | _ => None
    end.
Proof.
  unfold extractRow.
  assert (summaryFields row !! "floor" = None) as Hf
    by (by rewrite summaryFields_lookup).
  assert (summaryFields row !! "address" = None) as Ha
    by (by rewrite summaryFields_lookup).
  destruct sibling as [e|]; [destruct (hasClass e _)|];
    try by rewrite Hf, Ha.
  rewrite expandedFields_floor, expandedFields_address, Hf, Ha.
  destruct (querySelector _ e) as [item|]; [|done].
  destruct (textOf _ item) as [|text]; simpl; [done|].
  by destruct (floorMatch text).
Qed.

Lemma extractRow_summary row sibling k :
  k ≠ "lease" → k ≠ "address" → k ≠ "floor" →
  extractRow row sibling !! k = summaryFields row !! k.
Proof.
  intros. unfold extractRow.
  destruct sibling as [e|]; [destruct (hasClass e _)|]; try done.
  by apply expandedFields_other.
Qed.

End ScriptFacts.

(** ** Computations that only open tabs and write to the streams *)

Module RunFacts.
Import Js Dom Script Host Run.
Local Open Scope eff_scope.

Lemma set_streams_id w : set_streams (λ _, streams w) w = w.
Proof. by destruct w. Qed.

Lemma emitted_refl w : emitted w w.
Proof. exists (streams w), (tabs w). by destruct w. Qed.

Lemma emitted_trans w1 w2 w3 : emitted w1 w2 → emitted w2 w3 → emitted w1 w3.
Proof. intros (s & t & ->) (s' & t' & ->). by exists s', t'. Qed.

Lemma emitted_browsers w w' : emitted w w' → browsers w' = browsers w.
Proof. by intros (s & t & ->). Qed.

Lemma emitted_running w w' : emitted w w' → running w' = running w.
Proof. by intros (s & t & ->). Qed.

Lemma emitted_launched w w' : emitted w w' → launched w' = launched w.
Proof. by intros (s & t & ->). Qed.

Lemma emitted_activeCrawls w w' :
  emitted w w' → activeCrawls w' = activeCrawls w.
Proof. by intros (s & t & ->). Qed.

Lemma emitted_files w w' : emitted w w' → files w' = files w.
Proof. by intros (s & t & ->). Qed.

Lemma emitted_ended w w' : emitted w w' → ended w' = ended w.
Proof. by intros (s & t & ->). Qed.

Lemma Tame_ret {A} (a : A) : Tame (ret a).
Proof. intros w; split; [apply emitted_refl | done]. Qed.

Lemma Tame_throw {A} message : Tame (@throw A message).
Proof. intros w; split; [apply emitted_refl | done]. Qed.

Lemma Tame_pending {A} : Tame (@pending A).
Proof. intros w; split; [apply emitted_refl | done]. Qed.

Lemma Tame_mayThrow answer : Tame (mayThrow answer).
Proof. destruct answer; [apply Tame_throw | apply Tame_ret]. Qed.

Lemma Tame_gets_browsers : Tame (gets browsers).
Proof.
  intros w; split; [apply emitted_refl|].
  intros w' Hw. unfold outcome, gets; simpl. by rewrite Hw.
Qed.

Lemma Tame_write stream chunk : Tame (write stream chunk).
Proof.
  intros w; split; [|done]. unfold after, write, modify; simpl.
  by eexists _, (tabs w).
Qed.

Lemma Tame_newPage site browser url : Tame (newPage site browser url).
Proof.
  intros w; split.
  - unfold after, newPage, bind, modify. destruct (newPageThrows site);
      simpl; [apply emitted_refl|]. by eexists (streams w), _.
  - intros w' _. unfold outcome, newPage, bind, modify.
    by destruct (newPageThrows site).
Qed.

Lemma Tame_emitProgress sessionId data :
  Tame (FastCrawler.emitProgress sessionId data).
Proof.
  intros w. unfold FastCrawler.emitProgress, bind, gets, after, outcome.
  split.
  - simpl. destruct (activeCrawls w !! sessionId) as [[[stream|] ?]|];
      simpl; try apply emitted_refl. by eexists _, (tabs w).
  - intros w' _. simpl.
    by destruct (activeCrawls w !! sessionId) as [[[?|] ?]|],
                (activeCrawls w' !! sessionId) as [[[?|] ?]|].
Qed.

(** Running a tame computation from two worlds with the same pool. *)
Lemma Tame_run {A} (m : Eff A) w w' :
  Tame m → browsers w' = browsers w →
  outcome m w' = outcome m w ∧ browsers (after m w') = browsers (after m w).
Proof.
  intros Hm Hw. destruct (Hm w) as [Hq Ho], (Hm w') as [Hq' _].
  split; [by apply Ho|].
  by rewrite (emitted_browsers _ _ Hq), (emitted_browsers _ _ Hq').
Qed.

Lemma Tame_bind {A B} (m : Eff A) (k : A → Eff B) :
  Tame m → (∀ a, Tame (k a)) → Tame (bind m k).
Proof.
  intros Hm Hk w. destruct (Hm w) as [Hq Ho]. split.
  - unfold after, bind in *. destruct (m w) as [w1 [a| |]]; simpl in *; try done.
    eapply emitted_trans; [done|]. apply (Hk a w1).
  - intros w' Hw. destruct (Tame_run m w w' Hm Hw) as [Ho' Hb].
    unfold outcome, after, bind in *.
    destruct (m w) as [w1 c], (m w') as [w1' c']; simpl in *; subst c'.
    destruct c; try done. by apply (Hk a w1).
Qed.

Lemma Tame_tryCatch {A} (body : Eff A) handler :
  Tame body → (∀ message, Tame (handler message)) →
  Tame (tryCatch body handler).
Proof.
  intros Hm Hk w. destruct (Hm w) as [Hq Ho]. split.
  - unfold after, tryCatch in *.
    destruct (body w) as [w1 [a|message|]]; simpl in *; try done.
    eapply emitted_trans; [done|]. apply (Hk message w1).
  - intros w' Hw. destruct (Tame_run body w w' Hm Hw) as [Ho' Hb].
    unfold outcome, after, tryCatch in *.
    destruct (body w) as [w1 c], (body w') as [w1' c']; simpl in *; subst c'.
    destruct c; try done. by apply (Hk message w1).
Qed.

Lemma Tame_tryFinally {A} (body : Eff A) final :
  Tame body → Tame final → Tame (tryFinally body final).
Proof.
  intros Hm Hf w. destruct (Hm w) as [Hq Ho]. split.
  - unfold after, tryFinally in *.
    destruct (body w) as [w1 c]; simpl in *.
    destruct (Hf w1) as [Hq1 _]. unfold after in Hq1.
    destruct c; try done;
      destruct (final w1) as [w2 [[]| |]]; simpl in *;
      by eapply emitted_trans.
  - intros w' Hw. destruct (Tame_run body w w' Hm Hw) as [Ho' Hb].
    unfold outcome, after, tryFinally in *.
    destruct (body w) as [w1 c], (body w') as [w1' c']; simpl in *; subst c'.
    destruct (Tame_run final w1 w1' Hf Hb) as [Hfo _]. unfold outcome in Hfo.
    destruct c; try done;
      destruct (final w1) as [w2 c2], (final w1') as [w2' c2'];
      simpl in *; subst c2'; by destruct c2.
Qed.


Create HintDb tame.
#[export] Hint Resolve Tame_ret Tame_throw Tame_pending Tame_mayThrow
  Tame_gets_browsers Tame_write Tame_newPage Tame_emitProgress Tame_bind
  Tame_tryCatch Tame_tryFinally : tame.

End RunFacts.

(** ** The pagination controller, step by step *)

Module ControllerFacts.
Import Js Dom Script Host Run RunFacts FastCrawler.
Local Open Scope eff_scope.

(** The outcome of composed tame computations. *)
Lemma outcome_bind {A B} (m : Eff A) (k : A → Eff B) w :
  Tame m → (∀ a, Tame (k a)) →
  outcome (bind m k) w =
    match outcome m w with
    | Normal a => outcome (k a) w
    | Throw message => Throw message
    | Pending => Pending
    end.
Proof.
  intros Hm Hk. destruct (Hm w) as [Hq _]. unfold outcome, after, bind in *.
  destruct (m w) as [w1 [a| |]]; simpl in *; try done.
  apply (Hk a w). by apply emitted_browsers.
Qed.

Lemma outcome_tryCatch {A} (body : Eff A) handler w :
  Tame body → (∀ message, Tame (handler message)) →
  outcome (tryCatch body handler) w =
    match outcome body w with
    | Throw message => outcome (handler message) w
    | c => c
    end.
Proof.
  intros Hm Hk. destruct (Hm w) as [Hq _].
  unfold outcome, after, tryCatch in *.
  destruct (body w) as [w1 [a|message|]]; simpl in *; try done.
  apply (Hk message w). by apply emitted_browsers.
Qed.

Lemma outcome_tryFinally {A} (body : Eff A) final w :
  Tame body → Tame final →
  outcome (tryFinally body final) w =
    match outcome body w, outcome final w with
    | Pending, _ => Pending
    | c, Normal _ => c
    | _, Throw message => Throw message
    | _, Pending => Pending
    end.
Proof.
  intros Hm Hf. destruct (Hm w) as [Hq _].
  unfold outcome, after, tryFinally in *.
  destruct (body w) as [w1 c]; simpl in *.
  destruct (Hf w) as [_ Ho]. specialize (Ho w1 (emitted_browsers _ _ Hq)).
  unfold outcome in Ho.
  destruct c; try done; destruct (final w1) as [w2 c2]; simpl in *;
    subst c2; by destruct (final w).2.
Qed.

Lemma Tame_settledOf {A} (task : Eff A) : Tame task → Tame (settledOf task).
Proof.
  intros Ht w. destruct (Ht w) as [Hq Ho]. split.
  - unfold after, settledOf in *. by destruct (task w) as [w1 [| |]].
  - intros w' Hw. specialize (Ho w' Hw). unfold outcome, settledOf in *.
    destruct (task w) as [w1 c], (task w') as [w1' c']; simpl in *; subst c'.
    by destruct c.
Qed.

Lemma outcome_settledOf {A} (task : Eff A) w :
  outcome (settledOf task) w =
    match settle (outcome task w) with
    | Some r => Normal r
    | None => Pending
    end.
Proof. unfold outcome, settledOf. by destruct (task w) as [w1 [| |]]. Qed.

Lemma Tame_allSettled {A} (tasks : list (Eff A)) :
  Forall Tame tasks → Tame (allSettled tasks).
Proof.
  induction 1 as [|task rest Ht _ IH]; simpl; [apply Tame_ret|].
  apply Tame_bind; [by apply Tame_settledOf|intros r].
  apply Tame_bind; [done|intros rs]. apply Tame_ret.
Qed.

Lemma outcome_allSettled {A} (tasks : list (Eff A)) w :
  Forall Tame tasks →
  outcome (allSettled tasks) w =
    match mapM (λ task, settle (outcome task w)) tasks with
    | Some rs => Normal rs
    | None => Pending
    end.
Proof.
  induction 1 as [|task rest Ht Hrest IH]; [done|].
  cbn [allSettled]. rewrite outcome_bind.
  - rewrite outcome_settledOf. cbn [mapM].
    destruct (settle (outcome task w)) as [r|]; [|done]. simpl.
    rewrite outcome_bind; [|by apply Tame_allSettled|intros; apply Tame_ret].
    rewrite IH. by destruct (mapM _ rest).
  - by apply Tame_settledOf.
  - intros r. apply Tame_bind; [by apply Tame_allSettled|].
    intros; apply Tame_ret.
Qed.

Section Visit.
Context (env : Env) (sessionId url : string) (urlIndex totalUrls : nat).
Context (site : Site).

Local Abbreviation cycle := (cycle sessionId url urlIndex totalUrls site).

Lemma Tame_cycle fuel acc page : Tame (cycle fuel acc page).
Proof.
  revert acc page. induction fuel as [|fuel IH]; intros acc page; simpl.
  - apply Tame_pending.
  - destruct (rowsAppear _); simpl; [|apply Tame_ret].
    apply Tame_bind; [apply Tame_mayThrow|intros _].
    apply Tame_bind; [apply Tame_emitProgress|intros _].
    apply Tame_bind; [apply Tame_mayThrow|intros _].
    destruct (lastPage _); [apply Tame_ret|].
    destruct (clickThrows _); [apply Tame_ret|apply IH].
Qed.

Lemma Tame_failed message :
  Tame (failed sessionId url urlIndex totalUrls message).
Proof. unfold failed. auto with tame. Qed.

Lemma Tame_scrape fuel :
  Tame (scrape env sessionId url urlIndex totalUrls site fuel).
Proof.
  unfold scrape.
  apply Tame_bind; [apply Tame_emitProgress|intros _].
  apply Tame_bind; [apply Tame_mayThrow|intros _].
  apply Tame_bind; [apply Tame_emitProgress|intros _].
  apply Tame_bind; [apply Tame_mayThrow|intros _].
  destruct (tableRoot site); simpl; [|auto with tame].
  apply Tame_bind; [apply Tame_mayThrow|intros _].
  apply Tame_bind; [apply Tame_emitProgress|intros _].
  apply Tame_bind; [apply Tame_cycle|intros [all page]].
  auto with tame.
Qed.

(** An emission does not change what follows it. *)
Lemma outcome_after_emit {A} data (k : Eff A) w :
  Tame k →
  outcome (emitProgress sessionId data ;; k) w = outcome k w.
Proof.
  intros Hk. destruct (Tame_emitProgress sessionId data w) as [Hq _].
  unfold outcome, after, bind in *.
  assert ((emitProgress sessionId data w).2 = Normal tt) as Hn.
  { unfold emitProgress, bind, gets. simpl.
    by destruct (activeCrawls w !! sessionId) as [[[?|] ?]|]. }
  destruct (emitProgress sessionId data w) as [w1 c]; simpl in *; subst c.
  apply (Hk w). by apply emitted_browsers.
Qed.

Lemma cycle_no_rows fuel acc page w :
  rowsAppear (views site page) = false →
  outcome (cycle (S fuel) acc page) w = Normal (acc, page).
Proof. intros H. unfold outcome. simpl. by rewrite H. Qed.

Lemma cycle_script_throws fuel acc page message w :
  rowsAppear (views site page) = true →
  scriptThrows (views site page) = Some message →
  outcome (cycle (S fuel) acc page) w = Throw message.
Proof. intros H1 H2. unfold outcome. simpl. by rewrite H1, H2. Qed.

(** The script that reads the next control throws after the rows of the
    page were reported. *)
Lemma cycle_status_throws fuel acc page message w :
  rowsAppear (views site page) = true →
  scriptThrows (views site page) = None →
  statusThrows (views site page) = Some message →
  outcome (cycle (S fuel) acc page) w = Throw message.
Proof.
  intros H1 H2 H3. cbn [FastCrawler.cycle]. rewrite H1, H2, H3.
  cbn [negb mayThrow].
  change (outcome (ret tt ;; ?k) w) with (outcome k w).
  rewrite outcome_after_emit; [done|].
  apply Tame_bind; [apply Tame_throw|intros _].
  destruct (lastPage _); [apply Tame_ret|].
  destruct (clickThrows _); [apply Tame_ret|apply Tame_cycle].
Qed.

Lemma cycle_scraped fuel acc page w :
  rowsAppear (views site page) = true →
  scriptThrows (views site page) = None →
  statusThrows (views site page) = None →
  outcome (cycle (S fuel) acc page) w =
    if lastPage (nextButtonStatus (document (views site page)))
    then Normal (acc ++ pageRows site page, page)
    else match clickThrows (views site page) with
         | Some _ => Normal (acc ++ pageRows site page, page)
         | None => outcome (cycle fuel (acc ++ pageRows site page) (S page)) w
         end.
Proof.
  intros H1 H2 H3. cbn [FastCrawler.cycle]. rewrite H1, H2, H3.
  cbn [negb mayThrow].
  change (outcome (ret tt ;; ?k) w) with (outcome k w).
  rewrite outcome_after_emit.
  - change (outcome (ret tt ;; ?k) w) with (outcome k w).
    unfold pageRows. destruct (lastPage _); [done|].
    by destruct (clickThrows _).
  - apply Tame_bind; [apply Tame_ret|intros _].
    destruct (lastPage _); [apply Tame_ret|].
    destruct (clickThrows _); [apply Tame_ret|apply Tame_cycle].
Qed.

Lemma cycle_turn fuel acc page w :
  turns site page →
  outcome (cycle (S fuel) acc page) w =
    outcome (cycle fuel (acc ++ pageRows site page) (S page)) w.
Proof.
  intros (H1 & H2 & H3 & H4 & H5). rewrite cycle_scraped by done.
  by rewrite H4, H5.
Qed.

Lemma cycle_turns count fuel acc first w :
  (∀ page, first ≤ page < first + count → turns site page) →
  outcome (cycle (count + fuel) acc first) w =
    outcome (cycle fuel (acc ++ pagesFrom site first count) (first + count)) w.
Proof.
  revert acc first. induction count as [|count IH]; intros acc first Hall.
  - unfold pagesFrom; simpl. by rewrite app_nil_r, Nat.add_0_r.
  - change (S count + fuel) with (S (count + fuel)).
    rewrite cycle_turn by (apply Hall; lia).
    rewrite IH by (intros; apply Hall; lia).
    replace (first + S count) with (S first + count) by lia.
    unfold pagesFrom. cbn [seq map concat]. by rewrite app_assoc.
Qed.

End Visit.

Section Crawl.
Context (env : Env) (fuel : nat) (this : Crawler).
Context (url sessionId : string) (urlIndex totalUrls : nat).

Local Abbreviation site := (visit env urlIndex url).
Local Abbreviation crawl :=
  (crawlPropertyGuru env fuel this url sessionId urlIndex totalUrls).

Lemma Tame_crawlPropertyGuru :
  Tame (crawlPropertyGuru env fuel this url sessionId urlIndex totalUrls).
Proof.
  unfold crawlPropertyGuru.
  apply Tame_bind; [apply Tame_gets_browsers|intros pool].
  destruct (browserFor pool urlIndex); [|apply Tame_throw].
  apply Tame_bind; [apply Tame_newPage|intros _].
  apply Tame_tryFinally; [|apply Tame_mayThrow].
  apply Tame_tryCatch; [apply Tame_scrape|apply Tame_failed].
Qed.

Lemma crawl_no_browser w :
  browserFor (browsers w) urlIndex = None →
  outcome crawl w = Throw "Browser not available".
Proof.
  intros H. unfold outcome, crawlPropertyGuru, bind, gets. simpl.
  by rewrite H.
Qed.

Lemma crawl_with_browser w browser :
  browserFor (browsers w) urlIndex = Some browser →
  outcome crawl w =
    match newPageThrows site with
    | Some message => Throw message
    | None =>
        match outcome (scrape env sessionId url urlIndex totalUrls site fuel) w,
              closeThrows site with
        | Pending, _ => Pending
        | _, Some message => Throw message
        | Throw message, None => Normal (errorResult url message)
        | c, None => c
        end
    end.
Proof.
  intros H.
  assert (outcome crawl w =
          outcome (newPage site browser url ;;
                   tryFinally
                     (tryCatch
                        (scrape env sessionId url urlIndex totalUrls site fuel)
                        (failed sessionId url urlIndex totalUrls))
                     (mayThrow (closeThrows site))) w) as ->.
  { unfold outcome, crawlPropertyGuru, bind at 1, gets. simpl. by rewrite H. }
  assert (Tame (tryCatch
                  (scrape env sessionId url urlIndex totalUrls site fuel)
                  (failed sessionId url urlIndex totalUrls))) as Hbody
    by (apply Tame_tryCatch; [apply Tame_scrape|apply Tame_failed]).
  rewrite outcome_bind;
    [|apply Tame_newPage
     |intros; apply Tame_tryFinally; [done|apply Tame_mayThrow]].
  unfold newPage at 1, outcome at 1, bind at 1.
  destruct (newPageThrows site); [done|]. cbn [mayThrow ret modify snd].
  rewrite outcome_tryFinally; [|done|apply Tame_mayThrow].
  rewrite outcome_tryCatch; [|apply Tame_scrape|apply Tame_failed].
  destruct (outcome (scrape _ _ _ _ _ _ _) w) as [r|message|];
    destruct (closeThrows site); try done.
  all: unfold failed; rewrite outcome_after_emit by apply Tame_ret; done.
Qed.

Local Abbreviation scrape :=
  (FastCrawler.scrape env sessionId url urlIndex totalUrls site fuel).

Lemma scrape_outcome w :
  outcome scrape w =
    match gotoThrows site, scrollThrows site with
    | Some message, _ => Throw message
    | None, Some message => Throw message
    | None, None =>
        if tableRoot site then
          match filtersThrow site with
          | Some message => Throw message
          | None =>
              match outcome
                      (cycle sessionId url urlIndex totalUrls site fuel [] 1) w
              with
              | Normal (allTransactions, currentPage) =>
                  Normal (scrapedResult env url allTransactions currentPage)
              | Throw message => Throw message
              | Pending => Pending
              end
          end
        else Normal (errorResult url "No price history table found")
    end.
Proof.
  unfold FastCrawler.scrape.
  assert (∀ A (k : Eff A) w, outcome (mayThrow None ;; k) w = outcome k w)
    as Hskip by done.
  assert (∀ A message (k : Eff A) w,
            outcome (mayThrow (Some message) ;; k) w = Throw message)
    as Hstop by done.
  rewrite outcome_after_emit.
  2:{ apply Tame_bind; [apply Tame_mayThrow|intros _].
      apply Tame_bind; [apply Tame_emitProgress|intros _].
      apply Tame_bind; [apply Tame_mayThrow|intros _].
      destruct (tableRoot site); simpl; [|auto with tame].
      apply Tame_bind; [apply Tame_mayThrow|intros _].
      apply Tame_bind; [apply Tame_emitProgress|intros _].
      apply Tame_bind; [apply Tame_cycle|intros [all page]].
      auto with tame. }
  destruct (gotoThrows site); [by rewrite Hstop|]. rewrite Hskip.
  rewrite outcome_after_emit.
  2:{ apply Tame_bind; [apply Tame_mayThrow|intros _].
      destruct (tableRoot site); simpl; [|auto with tame].
      apply Tame_bind; [apply Tame_mayThrow|intros _].
      apply Tame_bind; [apply Tame_emitProgress|intros _].
      apply Tame_bind; [apply Tame_cycle|intros [all page]].
      auto with tame. }
  destruct (scrollThrows site); [by rewrite Hstop|]. rewrite Hskip.
  destruct (tableRoot site); cbn [negb].
  - destruct (filtersThrow site); [by rewrite Hstop|]. rewrite Hskip.
    rewrite outcome_after_emit.
    2:{ apply Tame_bind; [apply Tame_cycle|intros [all page]].
        auto with tame. }
    rewrite outcome_bind; [|apply Tame_cycle|intros [??]; auto with tame].
    destruct (outcome (cycle _ _ _ _ _ _ _ _) w) as [[all page]| |]; try done.
    by rewrite outcome_after_emit by apply Tame_ret.
  - by rewrite outcome_after_emit by apply Tame_ret.
Qed.

End Crawl.

Lemma lastPage_iff doc :
  lastPage (nextButtonStatus doc) = true ↔ nextAbsent doc ∨ nextDisabled doc.
Proof.
  unfold lastPage, nextButtonStatus, nextAbsent, nextDisabled.
  destruct (locate _ doc) as [[button above]|]; simpl; [|by split; auto].
  split.
  - destruct (closest _ button above) as [li|] eqn:Hli; simpl; [|done].
    destruct (hasClass li "disabled") eqn:Hc; simpl; [|done].
    intros _. right. by exists button, above, li.
  - intros [H|(b & a & l & Hloc & Hli & Hc)]; [done|].
    injection Hloc as <- <-. by rewrite Hli, Hc.
Qed.

End ControllerFacts.

(** ** The pool of browsers and the batch *)

Module BatchFacts.
Import Js Dom Script Host Run RunFacts FastCrawler ControllerFacts.
Local Open Scope eff_scope.

Section Batch.
Context (env : Env) (this : Crawler).

Local Abbreviation flag := (poolFlag env this).

Lemma launch_succeeds headlessFlag w :
  launchThrows env (length (launched w)) = None →
  launch env headlessFlag w =
    (set_running (λ up, {[length (launched w)]} ∪ up)
       (set_launched (λ calls, calls ++ [headlessFlag]) w),
     Normal (length (launched w))).
Proof.
  intros H. unfold launch, bind, gets, modify, mayThrow. simpl.
  by rewrite H.
Qed.

Lemma launch_fails headlessFlag message w :
  launchThrows env (length (launched w)) = Some message →
  launch env headlessFlag w =
    (set_launched (λ calls, calls ++ [headlessFlag]) w, Throw message).
Proof.
  intros H. unfold launch, bind, gets, modify, mayThrow. simpl.
  by rewrite H.
Qed.

Lemma launchesSucceed_first first count :
  launchesSucceed env first (S count) → launchThrows env first = None.
Proof. intros H. rewrite <- (Nat.add_0_r first). apply H. lia. Qed.

Lemma launchesSucceed_rest first count :
  launchesSucceed env first (S count) → launchesSucceed env (S first) count.
Proof.
  intros H k Hk. replace (S first + k) with (first + S k) by lia.
  apply H. lia.
Qed.

Lemma launchAll_succeeds count w :
  launchesSucceed env (length (launched w)) count →
  launchAll env this count w = (provisioned flag count w, Normal tt).
Proof.
  revert w. induction count as [|count IH]; intros w Hok.
  - unfold provisioned, poolFlag; destruct w; simpl. unfold ret.
    f_equal. unfold set_running, set_browsers, set_launched; simpl.
    f_equal; [by rewrite app_nil_r|set_solver|by rewrite app_nil_r].
  - cbn [launchAll]. unfold bind at 1.
    rewrite launch_succeeds by (by eapply launchesSucceed_first).
    unfold bind, modify at 1. rewrite IH.
    + f_equal. unfold provisioned, poolFlag. destruct w; simpl.
      unfold set_running, set_browsers, set_launched; simpl.
      rewrite length_app; simpl. rewrite Nat.add_1_r.
      f_equal; [by rewrite <- app_assoc|set_solver|by rewrite <- app_assoc].
    + simpl. rewrite length_app, Nat.add_1_r.
      by apply launchesSucceed_rest.
Qed.

Lemma launchAll_fails count ready message w :
  ready < count →
  launchesSucceed env (length (launched w)) ready →
  launchThrows env (length (launched w) + ready) = Some message →
  launchAll env this count w =
    (set_launched (λ calls, calls ++ [flag]) (provisioned flag ready w),
     Throw message).
Proof.
  revert w ready. induction count as [|count IH]; intros w ready Hlt Hok Hbad;
    [lia|].
  cbn [launchAll]. unfold bind at 1.
  destruct ready as [|ready].
  - rewrite Nat.add_0_r in Hbad. rewrite (launch_fails _ message) by done.
    f_equal. unfold provisioned, poolFlag. destruct w; simpl.
    unfold set_running, set_browsers, set_launched; simpl.
    f_equal; [by rewrite app_nil_r|set_solver|by rewrite app_nil_r].
  - rewrite launch_succeeds by (by eapply launchesSucceed_first).
    unfold bind, modify at 1. rewrite (IH _ ready).
    + f_equal. unfold provisioned, poolFlag. destruct w; simpl.
      unfold set_running, set_browsers, set_launched; simpl.
      rewrite length_app; simpl. rewrite Nat.add_1_r.
      f_equal; [by rewrite <- !app_assoc|set_solver|by rewrite <- app_assoc].
    + lia.
    + simpl. rewrite length_app, Nat.add_1_r.
      by apply launchesSucceed_rest.
    + simpl. rewrite length_app, Nat.add_1_r.
      by replace (S (length (launched w)) + ready)
        with (length (launched w) + S ready) by lia.
Qed.

Lemma closeEach_run pool w :
  closeEach pool w = (set_running (λ up, up ∖ list_to_set pool) w, Normal tt).
Proof.
  revert w. induction pool as [|browser pool IH]; intros w.
  - cbn [closeEach]. unfold ret. f_equal.
    destruct w; unfold set_running; simpl. f_equal. set_solver.
  - cbn [closeEach]. unfold close, bind, modify. simpl. rewrite IH.
    f_equal. destruct w; unfold set_running; simpl. f_equal. set_solver.
Qed.

(** The loop that never ends: it launches until a launch throws. *)
Lemma launchForever_fails fuel ready message w :
  ready < fuel →
  launchesSucceed env (length (launched w)) ready →
  launchThrows env (length (launched w) + ready) = Some message →
  launchForever env this fuel w =
    (set_launched (λ calls, calls ++ [flag]) (provisioned flag ready w),
     Throw message).
Proof.
  revert w ready. induction fuel as [|fuel IH]; intros w ready Hlt Hok Hbad;
    [lia|].
  cbn [launchForever]. unfold bind at 1.
  destruct ready as [|ready].
  - rewrite Nat.add_0_r in Hbad. rewrite (launch_fails _ message) by done.
    f_equal. unfold provisioned, poolFlag. destruct w; simpl.
    unfold set_running, set_browsers, set_launched; simpl.
    f_equal; [by rewrite app_nil_r|set_solver|by rewrite app_nil_r].
  - rewrite launch_succeeds by (by eapply launchesSucceed_first).
    unfold bind, modify at 1. rewrite (IH _ ready).
    + f_equal. unfold provisioned, poolFlag. destruct w; simpl.
      unfold set_running, set_browsers, set_launched; simpl.
      rewrite length_app; simpl. rewrite Nat.add_1_r.
      f_equal; [by rewrite <- !app_assoc|set_solver|by rewrite <- app_assoc].
    + lia.
    + simpl. rewrite length_app, Nat.add_1_r.
      by apply launchesSucceed_rest.
    + simpl. rewrite length_app, Nat.add_1_r.
      by replace (S (length (launched w)) + ready)
        with (length (launched w) + S ready) by lia.
Qed.

(** While every launch succeeds it is still running, whatever the
    fuel. *)
Lemma launchForever_pending fuel w :
  launchesSucceed env (length (launched w)) fuel →
  launchForever env this fuel w = (provisioned flag fuel w, Pending).
Proof.
  revert w. induction fuel as [|fuel IH]; intros w Hok.
  - unfold provisioned, poolFlag; destruct w; simpl. unfold pending.
    f_equal. unfold set_running, set_browsers, set_launched; simpl.
    f_equal; [by rewrite app_nil_r|set_solver|by rewrite app_nil_r].
  - cbn [launchForever]. unfold bind at 1.
    rewrite launch_succeeds by (by eapply launchesSucceed_first).
    unfold bind, modify at 1. rewrite IH.
    + f_equal. unfold provisioned, poolFlag. destruct w; simpl.
      unfold set_running, set_browsers, set_launched; simpl.
      rewrite length_app; simpl. rewrite Nat.add_1_r.
      f_equal; [by rewrite <- app_assoc|set_solver|by rewrite <- app_assoc].
    + simpl. rewrite length_app, Nat.add_1_r.
      by apply launchesSucceed_rest.
Qed.

Section Run.
Context (fuel : nat) (urls : list string) (sessionId : string).
Context (budget : nat).
Context (Hbudget : turnsBelow (concurrency this) = Some budget).

Local Abbreviation tasks :=
  (imap (λ index url,
           crawlPropertyGuru env fuel this (trim url) sessionId index
             (length urls))
        urls).

Local Abbreviation body :=
  (results <- allSettled tasks ;; ret (imap (entry urls) results)).

Lemma Tame_tasks : Forall Tame tasks.
Proof.
  apply Forall_lookup. intros i task. rewrite list_lookup_imap.
  destruct (urls !! i); intros [= <-]. apply Tame_crawlPropertyGuru.
Qed.

Lemma Tame_body : Tame body.
Proof.
  apply Tame_bind; [apply Tame_allSettled, Tame_tasks|].
  intros; apply Tame_ret.
Qed.

(** The batch, once the pool is up: the tasks are settled from the
    provisioned world, then every browser of the pool is closed. *)
Lemma crawlMultipleUrls_run w :
  launchesSucceed env (length (launched w)) budget →
  crawlMultipleUrls env fuel this urls sessionId w =
    match body (provisioned flag budget w) with
    | (w2, Pending) => (w2, Pending)
    | (w2, c) => (set_running (λ up, up ∖ list_to_set (browsers w2)) w2, c)
    end.
Proof.
  intros Hok. unfold crawlMultipleUrls, initBrowsers. rewrite Hbudget.
  unfold bind at 1.
  rewrite launchAll_succeeds by done. unfold tryFinally.
  destruct (body _) as [w2 c].
  unfold closeAll, bind, gets. rewrite closeEach_run. by destruct c.
Qed.

Lemma crawlMultipleUrls_outcome w :
  launchesSucceed env (length (launched w)) budget →
  let pool := browsers w ++ seq (length (launched w)) budget in
  (∀ i url, urls !! i = Some url →
     crawlOutcome env fuel this pool urls sessionId i url ≠ Pending) →
  ∃ results,
    outcome (crawlMultipleUrls env fuel this urls sessionId) w
      = Normal (imap (entry urls) results)
    ∧ length results = length urls
    ∧ ∀ i url, urls !! i = Some url →
        ∃ r, results !! i = Some r
             ∧ settle (crawlOutcome env fuel this pool urls sessionId i url)
               = Some r.
Proof.
  intros Hok pool Hfuel.
  set (w1 := provisioned flag budget w).
  assert (browsers w1 = pool) as Hpool by done.
  assert (∀ i url, urls !! i = Some url →
            outcome (crawlPropertyGuru env fuel this (trim url) sessionId i
                       (length urls)) w1
            = crawlOutcome env fuel this pool urls sessionId i url) as Hown.
  { intros i url _. unfold crawlOutcome.
    apply (Tame_crawlPropertyGuru env fuel this (trim url) sessionId i
             (length urls) (blank pool)). done. }
  assert (is_Some (mapM (λ task, settle (outcome task w1)) tasks))
    as [results Hres].
  { apply mapM_is_Some, Forall_lookup. intros i task.
    rewrite list_lookup_imap. destruct (urls !! i) as [url|] eqn:Hurl;
      intros [= <-]. simpl. rewrite (Hown i url Hurl).
    specialize (Hfuel i url Hurl).
    by destruct (crawlOutcome env fuel this pool urls sessionId i url). }
  exists results. apply mapM_Some in Hres.
  split; [|split].
  - unfold outcome. rewrite crawlMultipleUrls_run by done. fold w1.
    assert (outcome body w1 = Normal (imap (entry urls) results)) as Hb.
    { rewrite outcome_bind;
        [|apply Tame_allSettled, Tame_tasks|intros; apply Tame_ret].
      rewrite outcome_allSettled by apply Tame_tasks.
      by apply mapM_Some in Hres as ->. }
    unfold outcome in Hb. destruct (body w1) as [w2 c]; simpl in *.
    by subst c.
  - apply Forall2_length in Hres. by rewrite length_imap in Hres.
  - intros i url Hurl.
    assert (tasks !! i = Some (crawlPropertyGuru env fuel this (trim url)
                                 sessionId i (length urls))) as Htask
      by (by rewrite list_lookup_imap, Hurl).
    destruct (Forall2_lookup_l _ _ _ _ _ Hres Htask) as (r & Hr & Hset).
    exists r. split; [done|]. by rewrite <- (Hown i url Hurl).
Qed.

(** What the batch leaves behind when it ends. *)
Lemma crawlMultipleUrls_after w :
  launchesSucceed env (length (launched w)) budget →
  let final := after (crawlMultipleUrls env fuel this urls sessionId) w in
  launched final = launched w ++ replicate budget flag
  ∧ browsers final
    = browsers w ++ seq (length (launched w)) budget
  ∧ (outcome (crawlMultipleUrls env fuel this urls sessionId) w ≠ Pending →
     running final
     = (list_to_set (seq (length (launched w)) budget)
          ∪ running w)
       ∖ list_to_set (browsers final)).
Proof.
  intros Hok. unfold after, outcome. rewrite crawlMultipleUrls_run by done.
  destruct (Tame_body (provisioned flag budget w)) as [Hq _].
  unfold after in Hq. destruct (body _) as [w2 c]; simpl in Hq.
  destruct Hq as (s & t & ->). by destruct c.
Qed.

End Run.
End Batch.
End BatchFacts.

(** ** The command-line crawler, step by step *)

Module CliFacts.
Import Js Dom Script Host Run RunFacts ControllerFacts BatchFacts.
Local Open Scope eff_scope.

Section Visit.
Context (site : Site).

Lemma cli_cycle_scraped fuel acc page w :
  scriptThrows (views site page) = None →
  statusThrows (views site page) = None →
  Cli.cycle site (S fuel) acc page w =
    if lastPage (nextButtonStatus (document (views site page)))
    then (w, Normal (acc ++ pageRows site page, page))
    else match clickThrows (views site page) with
         | Some _ => (w, Normal (acc ++ pageRows site page, page))
         | None => Cli.cycle site fuel (acc ++ pageRows site page) (S page) w
         end.
Proof.
  intros H H'. cbn [Cli.cycle]. rewrite H, H'. unfold pageRows, bind; simpl.
  destruct (lastPage _); [done|]. by destruct (clickThrows _).
Qed.

Lemma cli_cycle_throws fuel acc page message w :
  scriptThrows (views site page) = Some message
  ∨ (scriptThrows (views site page) = None
     ∧ statusThrows (views site page) = Some message) →
  Cli.cycle site (S fuel) acc page w = (w, Throw message).
Proof.
  intros [H|[H H']]; cbn [Cli.cycle]; by rewrite H, ?H'.
Qed.

Lemma cycle_still fuel acc page w :
  after (Cli.cycle site fuel acc page) w = w.
Proof.
  revert acc page. induction fuel as [|fuel IH]; intros acc page; [done|].
  destruct (scriptThrows (views site page)) as [message|] eqn:H.
  { unfold after. by rewrite (cli_cycle_throws _ _ _ message) by auto. }
  destruct (statusThrows (views site page)) as [message|] eqn:H'.
  - unfold after. by rewrite (cli_cycle_throws _ _ _ message) by auto.
  - unfold after in *. rewrite cli_cycle_scraped by done.
    destruct (lastPage _); [done|]. destruct (clickThrows _); [done|].
    apply IH.
Qed.

Lemma cli_cycle_turns count fuel acc first w :
  (∀ page, first ≤ page < first + count → turns site page) →
  Cli.cycle site (count + fuel) acc first w =
    Cli.cycle site fuel (acc ++ pagesFrom site first count) (first + count) w.
Proof.
  revert acc first. induction count as [|count IH]; intros acc first Hall.
  - unfold pagesFrom; simpl. by rewrite app_nil_r, Nat.add_0_r.
  - change (S count + fuel) with (S (count + fuel)).
    destruct (Hall first) as (_ & H2 & H3 & H4 & H5); [lia|].
    rewrite cli_cycle_scraped by done. rewrite H4, H5.
    rewrite IH by (intros; apply Hall; lia).
    replace (first + S count) with (S first + count) by lia.
    unfold pagesFrom. cbn [seq map concat]. by rewrite app_assoc.
Qed.

End Visit.

Section Command.
Context (env : Env).

(** The scrape that gets to the loop and through it writes the file. *)
Lemma scrape_writes site browser fuel url outputFile all page w :
  reachesTable site → rowsAppear (views site 1) = true →
  fsThrows env = None →
  Cli.cycle site fuel [] 1 (opened browser url w)
  = (opened browser url w, Normal (all, page)) →
  Cli.scrape env site browser fuel url outputFile w =
    (set_files <[outputFile := HistoryFile (scrapedResult env url all page)]>
       (opened browser url w),
     Normal tt).
Proof.
  intros (Hnew & Hgoto & Hscroll & Hroot & Hfilters & _) Hrows Hfs Hloop.
  unfold Cli.scrape, newPage.
  rewrite Hnew, Hgoto, Hscroll, Hroot, Hfilters, Hrows, Hfs.
  cbn [mayThrow negb]. unfold bind at 1 2 3 4 5 6. cbn [ret modify].
  fold (opened browser url w). rewrite Hloop. done.
Qed.

(** Without the table root nothing is written. *)
Lemma scrape_gives_up site browser fuel url outputFile w :
  newPageThrows site = None → gotoThrows site = None →
  scrollThrows site = None → tableRoot site = false →
  Cli.scrape env site browser fuel url outputFile w
  = (opened browser url w, Normal tt).
Proof.
  intros Hnew Hgoto Hscroll Hroot. unfold Cli.scrape, newPage.
  rewrite Hnew, Hgoto, Hscroll, Hroot. cbn [mayThrow negb].
  unfold bind at 1 2 3 4. cbn [ret modify]. done.
Qed.

Lemma crawlPriceHistory_returns fuel url outputFile headlessFlag w w' :
  launchThrows env (length (launched w)) = None →
  Cli.scrape env (visit env 0 url) (length (launched w)) fuel url outputFile
    (set_running (λ up, {[length (launched w)]} ∪ up)
       (set_launched (λ calls, calls ++ [headlessFlag]) w))
  = (w', Normal tt) →
  Cli.crawlPriceHistory env fuel url outputFile headlessFlag w =
    (set_running (λ up, up ∖ {[length (launched w)]}) w', Normal tt).
Proof.
  intros Hlaunch Hscrape. unfold Cli.crawlPriceHistory, Cli.launch.
  unfold bind at 1. rewrite launch_succeeds by done.
  unfold tryFinally, tryCatch. by rewrite Hscrape.
Qed.

End Command.

Section Launch.
Context (env : Env).

(** A command launches one browser, whatever comes after. *)
Lemma launch_then {A} headlessFlag (k : nat → Eff A) w :
  (∀ browser, Keeps launched (k browser)) →
  launched (after (browser <- Cli.launch env headlessFlag ;; k browser) w)
  = launched w ++ [headlessFlag].
Proof.
  intros Hk. unfold after, bind at 1, Cli.launch.
  destruct (launchThrows env (length (launched w))) as [message|] eqn:H.
  - by rewrite (launch_fails _ _ message).
  - rewrite launch_succeeds by done.
    specialize (Hk (length (launched w))
                  (set_running (λ up, {[length (launched w)]} ∪ up)
                     (set_launched (λ calls, calls ++ [headlessFlag]) w))).
    unfold after in Hk. by rewrite Hk.
Qed.

End Launch.

Lemma Keeps_ret {A X} (part : World → X) (a : A) : Keeps part (ret a).
Proof. done. Qed.

Lemma Keeps_throw {A X} (part : World → X) message :
  Keeps part (@throw A message).
Proof. done. Qed.

Lemma Keeps_mayThrow {X} (part : World → X) answer :
  Keeps part (mayThrow answer).
Proof. by destruct answer. Qed.

Lemma Keeps_bind {A B X} (part : World → X) (m : Eff A) (k : A → Eff B) :
  Keeps part m → (∀ a, Keeps part (k a)) → Keeps part (bind m k).
Proof.
  intros Hm Hk w. specialize (Hm w). unfold after, bind in *.
  destruct (m w) as [w1 [a| |]]; simpl in *; try done.
  rewrite <- Hm. apply (Hk a w1).
Qed.

Lemma Keeps_tryCatch {A X} (part : World → X) (body : Eff A) handler :
  Keeps part body → (∀ message, Keeps part (handler message)) →
  Keeps part (tryCatch body handler).
Proof.
  intros Hm Hk w. specialize (Hm w). unfold after, tryCatch in *.
  destruct (body w) as [w1 [a|message|]]; simpl in *; try done.
  rewrite <- Hm. apply (Hk message w1).
Qed.

Lemma Keeps_tryFinally {A X} (part : World → X) (body : Eff A) final :
  Keeps part body → Keeps part final → Keeps part (tryFinally body final).
Proof.
  intros Hm Hf w. specialize (Hm w). unfold after, tryFinally in *.
  destruct (body w) as [w1 c]; simpl in *. specialize (Hf w1).
  unfold after in Hf.
  destruct c; try done; destruct (final w1) as [w2 [[]| |]]; simpl in *;
    congruence.
Qed.

Lemma Keeps_cycle {X} (part : World → X) site fuel acc page :
  Keeps part (Cli.cycle site fuel acc page).
Proof. intros w. by rewrite cycle_still. Qed.

Lemma Keeps_launched_close browser : Keeps launched (close browser).
Proof. done. Qed.

Lemma Keeps_launched_writeFile file content :
  Keeps launched (writeFile file content).
Proof. done. Qed.

Lemma Keeps_launched_newPage site browser url :
  Keeps launched (newPage site browser url).
Proof.
  unfold newPage. apply Keeps_bind; [apply Keeps_mayThrow|by intros _].
Qed.

Lemma Keeps_launched_scrape env site browser fuel url outputFile :
  Keeps launched (Cli.scrape env site browser fuel url outputFile).
Proof.
  unfold Cli.scrape.
  apply Keeps_bind; [apply Keeps_launched_newPage|intros _].
  apply Keeps_bind; [apply Keeps_mayThrow|intros _].
  apply Keeps_bind; [apply Keeps_mayThrow|intros _].
  destruct (tableRoot site); simpl; [|apply Keeps_ret].
  apply Keeps_bind; [apply Keeps_mayThrow|intros _].
  destruct (rowsAppear _); simpl; [|apply Keeps_ret].
  apply Keeps_bind; [apply Keeps_cycle|intros [all page]].
  apply Keeps_bind; [apply Keeps_mayThrow|intros _].
  apply Keeps_launched_writeFile.
Qed.

Lemma Keeps_launched_scrapeClass env site browser url className outputFile :
  Keeps launched (Cli.scrapeClass env site browser url className outputFile).
Proof.
  unfold Cli.scrapeClass.
  apply Keeps_bind; [apply Keeps_launched_newPage|intros _].
  apply Keeps_bind; [apply Keeps_mayThrow|intros _].
  apply Keeps_bind; [apply Keeps_mayThrow|intros _].
  apply Keeps_bind; [apply Keeps_mayThrow|intros _].
  destruct (classElements site className); [apply Keeps_mayThrow|].
  apply Keeps_bind; [apply Keeps_mayThrow|intros _].
  apply Keeps_launched_writeFile.
Qed.

Lemma crawlPriceHistory_launches env fuel url outputFile headlessFlag w :
  launched (after (Cli.crawlPriceHistory env fuel url outputFile headlessFlag)
              w)
  = launched w ++ [headlessFlag].
Proof.
  apply launch_then. intros browser.
  apply Keeps_tryFinally; [|apply Keeps_launched_close].
  apply Keeps_tryCatch; [apply Keeps_launched_scrape|].
  intros; apply Keeps_throw.
Qed.

Lemma crawlByClass_launches env url className outputFile headlessFlag w :
  launched (after (Cli.crawlByClass env url className outputFile headlessFlag)
              w)
  = launched w ++ [headlessFlag].
Proof.
  apply launch_then. intros browser.
  apply Keeps_tryFinally; [|apply Keeps_launched_close].
  apply Keeps_tryCatch; [apply Keeps_launched_scrapeClass|].
  intros; apply Keeps_throw.
Qed.

(** Whatever a command does, the action ends with the same launches. *)
Lemma action_launches (command : Eff unit) w :
  launched (after (tryCatch (command ;; ret 0) (λ _, ret 1)) w)
  = launched (after command w).
Proof.
  unfold after, tryCatch, bind. by destruct (command w) as [w1 [[]| |]].
Qed.

End CliFacts.

(** ** The tabs a batch opens *)

Module TabFacts.
Import Js Dom Script Host Run RunFacts FastCrawler ControllerFacts BatchFacts.
Import CliFacts.
Local Open Scope eff_scope.

(** A result that is only rearranged leaves the world as it is. *)
Lemma after_bind_ret {A B} (m : Eff A) (f : A → B) w :
  after (x <- m ;; ret (f x)) w = after m w.
Proof. unfold after, bind, ret. by destruct (m w) as [w1 [?| |]]. Qed.

Lemma Keeps_tabs_emitProgress sessionId data :
  Keeps tabs (emitProgress sessionId data).
Proof.
  intros w. unfold after, emitProgress, bind, gets. simpl.
  by destruct (activeCrawls w !! sessionId) as [[[?|] ?]|].
Qed.

Section Visit.
Context (env : Env) (sessionId url : string) (urlIndex totalUrls : nat).
Context (site : Site).

Lemma Keeps_tabs_cycle fuel acc page :
  Keeps tabs (cycle sessionId url urlIndex totalUrls site fuel acc page).
Proof.
  revert acc page. induction fuel as [|fuel IH]; intros acc page; simpl.
  - done.
  - destruct (rowsAppear _); simpl; [|apply Keeps_ret].
    apply Keeps_bind; [apply Keeps_mayThrow|intros _].
    apply Keeps_bind; [apply Keeps_tabs_emitProgress|intros _].
    apply Keeps_bind; [apply Keeps_mayThrow|intros _].
    destruct (lastPage _); [apply Keeps_ret|].
    destruct (clickThrows _); [apply Keeps_ret|apply IH].
Qed.

Lemma Keeps_tabs_scrape fuel :
  Keeps tabs (scrape env sessionId url urlIndex totalUrls site fuel).
Proof.
  unfold scrape.
  apply Keeps_bind; [apply Keeps_tabs_emitProgress|intros _].
  apply Keeps_bind; [apply Keeps_mayThrow|intros _].
  apply Keeps_bind; [apply Keeps_tabs_emitProgress|intros _].
  apply Keeps_bind; [apply Keeps_mayThrow|intros _].
  destruct (tableRoot site); simpl.
  - apply Keeps_bind; [apply Keeps_mayThrow|intros _].
    apply Keeps_bind; [apply Keeps_tabs_emitProgress|intros _].
    apply Keeps_bind; [apply Keeps_tabs_cycle|intros [all page]].
    apply Keeps_bind; [apply Keeps_tabs_emitProgress|intros _].
    apply Keeps_ret.
  - apply Keeps_bind; [apply Keeps_tabs_emitProgress|intros _].
    apply Keeps_ret.
Qed.

Lemma Keeps_tabs_failed message :
  Keeps tabs (failed sessionId url urlIndex totalUrls message).
Proof.
  unfold failed.
  apply Keeps_bind; [apply Keeps_tabs_emitProgress|intros _].
  apply Keeps_ret.
Qed.

End Visit.

(** The tab of one crawl: on the browser picked for its position. *)
Lemma crawl_tabs env fuel this url sessionId urlIndex totalUrls w :
  tabs (after (crawlPropertyGuru env fuel this url sessionId urlIndex
                 totalUrls) w)
  = tabs w
      ++ match browserFor (browsers w) urlIndex,
               newPageThrows (visit env urlIndex url) with
         | Some browser, None => [(browser, url)]
         | _, _ => []
         end.
Proof.
  unfold after, crawlPropertyGuru, bind at 1, gets. cbn [fst snd].
  destruct (browserFor (browsers w) urlIndex) as [browser|];
    [|by rewrite app_nil_r].
  unfold bind at 1, newPage, bind at 1.
  destruct (newPageThrows (visit env urlIndex url)); cbn [mayThrow throw ret];
    [by rewrite app_nil_r|].
  cbn [modify].
  match goal with
  | |- tabs (?m ?w1).1 = _ =>
      change (tabs (after m w1) = tabs (opened browser url w))
  end.
  apply Keeps_tryFinally; [|apply Keeps_mayThrow].
  apply Keeps_tryCatch; [apply Keeps_tabs_scrape|].
  intros. apply Keeps_tabs_failed.
Qed.

Section Batch.
Context (env : Env) (fuel : nat) (this : Crawler).
Context (sessionId : string) (totalUrls : nat).

(** The crawls of the URLs from a position on. *)
Local Abbreviation tasksFrom position urls :=
  (imap (λ index url,
           crawlPropertyGuru env fuel this (trim url) sessionId
             (position + index) totalUrls)
        urls).

Lemma allSettled_tabs first budget urls position w :
  browsers w = seq first budget →
  (∀ index url, urls !! index = Some url →
     outcome (crawlPropertyGuru env fuel this (trim url) sessionId
                (position + index) totalUrls) w ≠ Pending) →
  tabs (after (allSettled (tasksFrom position urls)) w)
  = tabs w
      ++ omap id (imap (λ index, tabOf env first budget (position + index))
                    urls).
Proof.
  revert position w. induction urls as [|url urls IH]; intros position w Hpool
    Hend.
  { by rewrite app_nil_r. }
  cbn [imap allSettled omap].
  pose proof (Tame_crawlPropertyGuru env fuel this (trim url) sessionId
                (position + 0) totalUrls w) as [Hq Ho].
  pose proof (crawl_tabs env fuel this (trim url) sessionId (position + 0)
                totalUrls w) as Htab.
  pose proof (Hend 0 url eq_refl) as Hfirst.
  unfold after, outcome in Hq, Htab, Hfirst.
  unfold after at 1, bind at 1, settledOf.
  destruct (crawlPropertyGuru env fuel this (trim url) sessionId
              (position + 0) totalUrls w) as [w1 c].
  cbn [fst snd] in Hq, Htab, Hfirst.
  assert (browsers w1 = seq first budget) as Hpool1
    by (by rewrite (emitted_browsers _ _ Hq)).
  assert (tabs w1
          = tabs w ++ from_option (λ tab, [tab]) []
                        (tabOf env first budget (position + 0) url))
    as Htab1.
  { rewrite Htab, Hpool. unfold tabOf, browserFor. rewrite length_seq.
    destruct budget as [|budget]; [by destruct (newPageThrows _)|].
    rewrite lookup_seq_lt by (apply Nat.mod_upper_bound; lia).
    by destruct (newPageThrows _). }
  set (rest := imap ((λ index url,
                        crawlPropertyGuru env fuel this (trim url) sessionId
                          (position + index) totalUrls) ∘ S) urls).
  assert (tabs (after (allSettled rest) w1)
          = tabs w1
              ++ omap id (imap (λ index,
                                  tabOf env first budget
                                    (position + S index)) urls))
    as Hrest.
  { subst rest.
    rewrite (imap_ext _ (λ index url,
                          crawlPropertyGuru env fuel this (trim url)
                            sessionId (S position + index) totalUrls))
      by (intros; simpl; f_equal; lia).
    rewrite (IH (S position) w1 Hpool1).
    - f_equal. f_equal. apply imap_ext. intros. f_equal. lia.
    - intros index other Hother.
      destruct (Tame_crawlPropertyGuru env fuel this (trim other)
                  sessionId (S position + index) totalUrls w) as [_ Hsame].
      rewrite (Hsame w1) by (by rewrite Hpool1).
      replace (S position + index) with (position + S index) by lia.
      by apply (Hend (S index)). }
  assert (∀ r : settled CrawlData,
            tabs (bind (allSettled rest) (λ rs, ret (r :: rs)) w1).1
            = tabs w
                ++ omap id (tabOf env first budget (position + 0) url
                              :: imap (tabOf env first budget
                                         ∘ Nat.add position ∘ S) urls))
    as Hcons.
  { intros r.
    change (bind (allSettled rest) (λ rs, ret (r :: rs)) w1).1
      with (after (rs <- allSettled rest ;; ret (cons r rs)) w1).
    rewrite after_bind_ret, Hrest, Htab1, <- app_assoc. f_equal.
    cbn [omap]. by destruct (tabOf env first budget (position + 0) url). }
  destruct c as [v|message|]; [apply Hcons|apply Hcons|done].
Qed.

End Batch.

(** The tabs of a batch whose pool came up on a fresh crawler. *)
Lemma batch_tabs env fuel this urls sessionId budget w :
  turnsBelow (concurrency this) = Some budget →
  browsers w = [] →
  launchesSucceed env (length (launched w)) budget →
  (∀ i url, urls !! i = Some url →
     crawlOutcome env fuel this (seq (length (launched w)) budget) urls
       sessionId i url ≠ Pending) →
  tabs (after (crawlMultipleUrls env fuel this urls sessionId) w)
  = tabs w ++ tabsOf env (length (launched w)) budget urls.
Proof.
  intros Hbudget Hfresh Hok Hend. unfold after.
  rewrite (crawlMultipleUrls_run env this fuel urls sessionId budget Hbudget)
    by done.
  set (w1 := provisioned (poolFlag env this) budget w).
  assert (browsers w1 = seq (length (launched w)) budget) as Hpool
    by (subst w1; simpl; by rewrite Hfresh).
  set (body := results <- allSettled
                 (imap (λ index url,
                          crawlPropertyGuru env fuel this (trim url)
                            sessionId index (length urls)) urls) ;;
               ret (imap (entry urls) results)).
  assert (tabs (after body w1)
          = tabs w ++ tabsOf env (length (launched w)) budget urls) as Hbody.
  { subst body. rewrite after_bind_ret.
    apply (allSettled_tabs env fuel this sessionId (length urls)
             (length (launched w)) budget urls 0 w1 Hpool).
    intros index url Hurl.
    destruct (Tame_crawlPropertyGuru env fuel this (trim url) sessionId
                (0 + index) (length urls)
                (blank (seq (length (launched w)) budget))) as [_ Hsame].
    rewrite (Hsame w1) by done. by apply Hend. }
  unfold after in Hbody. destruct (body w1) as [w2 c]. cbn [fst] in Hbody.
  by destruct c.
Qed.

End TabFacts.

(** ** The numbers given as a budget *)

Module NumberFacts.
Import Js.

(** The closed form of the loop: the test [i < c] holds for the counters
    below [turnsBelow c], and for no other. *)
Lemma turnsBelow_counts c turns :
  turnsBelow c = Some turns → ∀ i, below i c = true ↔ i < turns.
Proof.
  unfold turnsBelow, below.
  destruct (toNumber c) as [q| | |]; [|done| |].
  - intros [= <-] i.
    rewrite negb_true_iff, <- not_true_iff_false, QArith_base.Qle_bool_iff.
    split.
    + intros Hlt. apply QArith_base.Qnot_le_lt in Hlt.
      assert (Z.of_nat i < Qround.Qceiling q)%Z; [|lia].
      rewrite QArith_base.Zlt_Qlt.
      eapply QArith_base.Qlt_le_trans; [exact Hlt|apply Qround.Qle_ceiling].
    + intros Hlt. apply QArith_base.Qlt_not_le.
      eapply QArith_base.Qle_lt_trans; [|apply Qround.Qceiling_lt].
      rewrite <- QArith_base.Zle_Qle. lia.
  - intros [= <-] i. split; [done|lia].
  - intros [= <-] i. split; [done|lia].
Qed.

Lemma turnsBelow_endless c :
  turnsBelow c = None → ∀ i, below i c = true.
Proof. unfold turnsBelow, below. by destruct (toNumber c). Qed.

(** A whole, positive budget is the number of turns. *)
Lemma turnsBelow_ofNat n : turnsBelow (ofNat n) = Some n.
Proof.
  unfold turnsBelow, ofNat, ofZ; simpl.
  by rewrite Qround.Qceiling_Z, Nat2Z.id.
Qed.

(** What [x || d] keeps is truthy, and a whole positive number is
    kept. *)
Lemma orDefault_ofNat n d : 0 < n → orDefault (Some (ofNat n)) d = ofNat n.
Proof.
  intros Hn. unfold orDefault, truthySetting, ofNat, ofZ.
  destruct (QArith_base.Qeq_bool _ _) eqn:Hz; [|done].
  apply QArith_base.Qeq_bool_iff in Hz.
  unfold QArith_base.Qeq in Hz. simpl in Hz. lia.
Qed.

Lemma orDefault_absent d : orDefault None d = d.
Proof. done. Qed.

Lemma orDefault_zero d : orDefault (Some (ofNat 0)) d = d.
Proof. done. Qed.

(** A budget that is not positive gives no turn, a fraction gives the
    next whole number of turns; so does what reads as no number. *)
Lemma turnsBelow_negative q :
  QArith_base.Qle q (QArith_base.inject_Z 0) →
  turnsBelow (numeral (finite q)) = Some 0.
Proof.
  intros Hq. unfold turnsBelow. simpl. f_equal.
  apply (Qround.Qceiling_resp_le) in Hq. rewrite Qround.Qceiling_Z in Hq.
  lia.
Qed.

Lemma orDefault_twice x d : orDefault (Some (orDefault x d)) d = orDefault x d.
Proof.
  assert (orDefault (Some d) d = d) as Hd.
  { unfold orDefault. by destruct (truthySetting d). }
  destruct x as [v|]; [|done].
  assert (orDefault (Some v) d = if truthySetting v then v else d) as ->
    by done.
  destruct (truthySetting v) eqn:Hv; [|exact Hd].
  unfold orDefault. by rewrite Hv.
Qed.

End NumberFacts.

(** ** The row extractor *)

Module RowExtractor.
Import Js Dom FloorPattern Script FloorPatternFacts ScriptFacts.

(** C8.  The row extractor is a total function, and a field whose cell is
    missing from the row is left out of the record: no key is set for it,
    hence no empty string either.  This holds for the cells of the
    collapsed row (date, bedroom, price, floor level, completed) and for
    the lease and address items of the detail row, also when there is no
    detail row at all. *)
Theorem extractRow_omits_missing_cells (row : Node) (sibling : option Node) :
  let t := extractRow row sibling in
  (querySelector (ByDaId "row-date") row = None → t !! "date" = None)
  ∧ (querySelector (ByDaId "row-bedroom") row = None →
       t !! "bedrooms" = None ∧ t !! "size" = None)
  ∧ (querySelector (ByDaId "row-price") row = None →
       t !! "price" = None ∧ t !! "pricePerSqft" = None)
  ∧ (querySelector (ByDaId "row-floorLevel") row = None →
       t !! "floorLevel" = None)
  ∧ (querySelector (ByDaId "row-completed") row = None →
       t !! "buildStatus" = None)
  ∧ (∀ e, sibling = Some e →
       querySelector (ByDaId "expanded-lease") e = None →
       t !! "lease" = None)
  ∧ (∀ e, sibling = Some e →
       querySelector (ByDaId "expanded-address") e = None →
       t !! "address" = None ∧ t !! "floor" = None)
  ∧ (sibling = None →
       t !! "lease" = None ∧ t !! "address" = None ∧ t !! "floor" = None).
Proof.
  cbv zeta.
  assert (∀ k, k = "lease" ∨ k = "address" ∨ k = "floor" →
               summaryFields row !! k = None) as Hsum.
  { intros k [->| [->| ->]]; by rewrite summaryFields_lookup. }
  repeat apply conj.
  - intros H. by rewrite extractRow_summary, summaryFields_lookup, H.
  - intros H. by rewrite !extractRow_summary, !summaryFields_lookup, H.
  - intros H. by rewrite !extractRow_summary, !summaryFields_lookup, H.
  - intros H. by rewrite extractRow_summary, summaryFields_lookup, H.
  - intros H. by rewrite extractRow_summary, summaryFields_lookup, H.
  - intros e -> H. unfold extractRow. destruct (hasClass e _).
    + rewrite expandedFields_lease, H. apply Hsum; auto.
    + apply Hsum; auto.
  - intros e -> H. unfold extractRow. destruct (hasClass e _).
    + rewrite expandedFields_address, expandedFields_floor, H.
      split; apply Hsum; auto.
    + split; apply Hsum; auto.
  - intros ->. unfold extractRow. repeat split; apply Hsum; auto.
Qed.

(** The digits are kept as they stand, and one digit is enough. *)
Example floor_keeps_leading_zero : floorMatch "#03-xx" = Some "03".
Proof. reflexivity. Qed.

Example floor_of_one_digit : floorMatch "Blk 5 #7-12" = Some "7".
Proof. reflexivity. Qed.

(** C7.  The floor is the run of digits of the leftmost occurrence of
    "#", digits, "-" in the address, as it stands there; without an
    occurrence, and without an address, the record has no floor. *)
Theorem floor_follows_address (row : Node) (sibling : option Node) :
  let t := extractRow row sibling in
  (∀ text pre digits,
     t !! "address" = Some (str text) → leftmost text pre digits →
     t !! "floor" = Some (str digits))
  ∧ (∀ text,
       t !! "address" = Some (str text) →
       (∀ pre digits post, ¬ occursAt text pre digits post) →
       t !! "floor" = None)
  ∧ (∀ v, t !! "floor" = Some v →
       ∃ text digits, t !! "address" = Some (str text) ∧ v = str digits)
  ∧ floorMatch "#07-12, Example Rd" = Some "07"
  ∧ floorMatch "Example Rd only" = None.
Proof.
  cbv zeta. rewrite extractRow_floor. repeat apply conj; try done.
  - intros text pre digits -> Hleft.
    assert (floorMatch text = Some digits) as ->
      by (apply floorMatch_Some; eauto).
    done.
  - intros text -> Hnone.
    by apply floorMatch_None in Hnone as ->.
  - intros v. destruct (extractRow row sibling !! "address") as [[|text]|];
      try done.
    destruct (floorMatch text) as [digits|]; [|done].
    intros [= <-]. eauto.
Qed.

End RowExtractor.

(** ** The pagination controller *)

Module Controller.
Import Js Dom Script Host Run RunFacts FastCrawler ControllerFacts BatchFacts.
Import CliFacts.
Local Open Scope eff_scope.

(** C5.  A table of three pages with 10, 10 and 4 rows, whose next
    control sits in a disabled [li] on the third page only, is scraped
    into 24 records, page after page and row after row, with
    [totalPages = 3]: by the server's controller and by the command-line
    crawler, which writes that result to its output file.  In a cycle in
    which the rows appear and nothing throws, the loop ends exactly when
    the next control is absent or its [li] is disabled; otherwise it goes
    on to the next page. *)
Theorem three_page_table_gives_24_rows (env : Env) (url : string)
  (site : Site) :
  threePageTable site → reachesTable site →
  let rows := pageRows site 1 ++ pageRows site 2 ++ pageRows site 3 in
  length rows = 24
  ∧ (∀ fuel this sessionId urlIndex totalUrls w browser,
       visit env urlIndex url = site →
       browserFor (browsers w) urlIndex = Some browser →
       3 ≤ fuel →
       outcome (crawlPropertyGuru env fuel this url sessionId urlIndex
                  totalUrls) w
       = Normal (scrapedResult env url rows 3))
  ∧ (∀ fuel outputFile headlessFlag w,
       visit env 0 url = site →
       launchThrows env (length (launched w)) = None →
       fsThrows env = None →
       3 ≤ fuel →
       let run := Cli.crawlPriceHistory env fuel url outputFile headlessFlag in
       outcome run w = Normal tt
       ∧ files (after run w) !! outputFile
         = Some (HistoryFile (scrapedResult env url rows 3)))
  ∧ (∀ sessionId urlIndex totalUrls fuel acc page w,
       rowsAppear (views site page) = true →
       scriptThrows (views site page) = None →
       statusThrows (views site page) = None →
       clickThrows (views site page) = None →
       let doc := document (views site page) in
       let here := cycle sessionId url urlIndex totalUrls site (S fuel)
                     acc page in
       let next := cycle sessionId url urlIndex totalUrls site fuel
                     (acc ++ pageRows site page) (S page) in
       (nextAbsent doc ∨ nextDisabled doc →
        outcome here w = Normal (acc ++ pageRows site page, page))
       ∧ (¬ (nextAbsent doc ∨ nextDisabled doc) →
          outcome here w = outcome next w)).
Proof.
  intros (Hrows & Hl1 & Hl2 & Hl3 & Hnext & Hlast) Hreach.
  pose proof Hreach as (Hnew & Hgoto & Hscroll & Hroot & Hfilters & Hclose).
  cbv zeta.
  assert (∀ page, 1 ≤ page ≤ 2 →
            lastPage (nextButtonStatus (document (views site page))) = false)
    as Hgo.
  { intros page Hp. destruct (Hnext page Hp) as [Hn _].
    destruct (lastPage _) eqn:Hlp; [|done].
    by apply lastPage_iff in Hlp. }
  assert (lastPage (nextButtonStatus (document (views site 3))) = true)
    as Hstop by (apply lastPage_iff; auto).
  repeat apply conj.
  - rewrite !length_app. lia.
  - intros fuel this sessionId urlIndex totalUrls w browser Hsite Hb Hfuel.
    rewrite (crawl_with_browser _ _ _ _ _ _ _ _ browser Hb).
    rewrite scrape_outcome, Hsite.
    rewrite Hnew, Hgoto, Hscroll, Hroot, Hfilters, Hclose.
    destruct fuel as [|[|[|fuel]]]; try lia.
    rewrite (ControllerFacts.cycle_turns _ _ _ _ _ 2 (S fuel)).
    2:{ intros page Hp. destruct (Hrows page) as (? & ? & ?); [lia|].
        destruct (Hnext page) as [??]; [lia|].
        repeat split; auto. apply Hgo; lia. }
    destruct (Hrows 3) as (H1 & H2 & H3); [lia|]. change (1 + 2) with 3.
    rewrite ControllerFacts.cycle_scraped by done. rewrite Hstop.
    unfold pagesFrom; simpl.
    by rewrite app_nil_r, <- app_assoc.
  - intros fuel outputFile headlessFlag w Hsite Hlaunch Hfs Hfuel.
    destruct (Hrows 1) as [R1 _]; [lia|].
    destruct (Hrows 3) as (_ & S3 & T3); [lia|].
    destruct fuel as [|[|[|fuel]]]; try lia.
    change (S (S (S fuel))) with (2 + S fuel).
    unfold outcome, after.
    erewrite crawlPriceHistory_returns; [|done|].
    2:{ rewrite Hsite. apply scrape_writes; try done.
        rewrite cli_cycle_turns.
        - change (1 + 2) with 3. rewrite cli_cycle_scraped by done.
          rewrite Hstop. reflexivity.
        - intros page Hp. destruct (Hrows page) as (? & ? & ?); [lia|].
          destruct (Hnext page) as [??]; [lia|].
          repeat split; auto. apply Hgo; lia. }
    split; [done|]. simpl. rewrite lookup_insert_eq.
    unfold pagesFrom; simpl. by rewrite app_nil_r, <- app_assoc.
  - intros sessionId urlIndex totalUrls fuel acc page w H1 H2 H2' H3. split.
    + intros Hstop'. rewrite ControllerFacts.cycle_scraped by done.
      apply lastPage_iff in Hstop'. by rewrite Hstop'.
    + intros Hgo'. rewrite ControllerFacts.cycle_scraped by done. rewrite H3.
      destruct (lastPage (nextButtonStatus (document (views site page))))
        eqn:Hlp; [|done].
      apply lastPage_iff in Hlp. contradiction.
Qed.

(** C6.  After [turned] pages that were scraped and left by a click,
    the loop can end early in two ways, and neither raises an error: the
    result is a scraped result with the rows gathered so far.  When the
    click on page [turned + 1] throws, that page has been scraped and
    [totalPages] is [turned + 1], the number of pages scraped.  When the
    rows of page [turned + 1] never appear, [totalPages] is still
    [turned + 1], one more than the [turned] pages the rows come from. *)
Theorem early_exit_keeps_the_rows (env : Env) (fuel : nat) (this : Crawler)
  (url sessionId : string) (urlIndex totalUrls : nat) (w : World)
  (browser turned : nat) :
  let site := visit env urlIndex url in
  let last := S turned in
  let run := crawlPropertyGuru env fuel this url sessionId urlIndex
               totalUrls in
  browserFor (browsers w) urlIndex = Some browser →
  reachesTable site →
  (∀ page, 1 ≤ page < 1 + turned → turns site page) →
  last ≤ fuel →
  (∀ message,
     rowsAppear (views site last) = true →
     scriptThrows (views site last) = None →
     statusThrows (views site last) = None →
     lastPage (nextButtonStatus (document (views site last))) = false →
     clickThrows (views site last) = Some message →
     outcome run w
     = Normal (scrapedResult env url (pagesFrom site 1 last) last))
  ∧ (rowsAppear (views site last) = false →
     outcome run w
     = Normal (scrapedResult env url (pagesFrom site 1 turned) (S turned))).
Proof.
  intros site last run Hb
    (Hnew & Hgoto & Hscroll & Hroot & Hfilters & Hclose) Hturns Hfuel.
  assert (outcome run w =
          match outcome (cycle sessionId url urlIndex totalUrls site
                           (turned + S (fuel - last)) [] 1) w with
          | Normal (all, page) => Normal (scrapedResult env url all page)
          | Throw message => Normal (errorResult url message)
          | Pending => Pending
          end) as ->.
  { subst run. rewrite (crawl_with_browser _ _ _ _ _ _ _ _ browser Hb).
    rewrite scrape_outcome. fold site.
    rewrite Hnew, Hgoto, Hscroll, Hroot, Hfilters, Hclose.
    replace (turned + S (fuel - last)) with fuel by (subst last; lia).
    by destruct (outcome _ w) as [[]| |]. }
  rewrite ControllerFacts.cycle_turns by done. cbn [app].
  change (1 + turned) with last. split.
  - intros message H1 H2 H2' H3 H4.
    rewrite ControllerFacts.cycle_scraped by done. rewrite H3, H4.
    subst last. unfold pagesFrom. rewrite seq_S, map_app, concat_app.
    simpl. by rewrite app_nil_r.
  - intros H1. by rewrite cycle_no_rows.
Qed.

(** C2, as the code has it.  When the page loads and the table root never
    appears, the controller returns, with any fuel and without throwing,
    the error variant [{ url, error: "No price history table found",
    transactions: [] }]: no transactions and no [totalPages].  The
    command-line crawler returns and writes no file. *)
Theorem missing_table_gives_error_variant (env : Env) (url : string)
  (site : Site) :
  newPageThrows site = None → gotoThrows site = None →
  scrollThrows site = None → tableRoot site = false →
  let result := errorResult url "No price history table found" in
  cd_error result = Some "No price history table found"
  ∧ cd_transactions result = []
  ∧ cd_totalPages result = None
  ∧ (∀ fuel this sessionId urlIndex totalUrls w browser,
       visit env urlIndex url = site →
       browserFor (browsers w) urlIndex = Some browser →
       closeThrows site = None →
       outcome (crawlPropertyGuru env fuel this url sessionId urlIndex
                  totalUrls) w = Normal result)
  ∧ (∀ fuel outputFile headlessFlag w,
       visit env 0 url = site →
       launchThrows env (length (launched w)) = None →
       let run := Cli.crawlPriceHistory env fuel url outputFile headlessFlag in
       outcome run w = Normal tt ∧ files (after run w) = files w).
Proof.
  intros Hnew Hgoto Hscroll Hroot. cbv zeta. repeat apply conj; try done.
  - intros fuel this sessionId urlIndex totalUrls w browser Hsite Hb Hclose.
    rewrite (crawl_with_browser _ _ _ _ _ _ _ _ browser Hb).
    rewrite scrape_outcome, Hsite.
    by rewrite Hnew, Hgoto, Hscroll, Hroot, Hclose.
  - intros fuel outputFile headlessFlag w Hsite Hlaunch.
    set (w1 := set_running (λ up, {[length (launched w)]} ∪ up)
                 (set_launched (λ calls, calls ++ [headlessFlag]) w)).
    assert (Cli.scrape env (visit env 0 url) (length (launched w)) fuel url
              outputFile w1
            = (opened (length (launched w)) url w1, Normal tt)) as Hs
      by (rewrite Hsite; apply scrape_gives_up; auto).
    unfold outcome, after.
    by rewrite (crawlPriceHistory_returns env fuel url outputFile
                  headlessFlag w _ Hlaunch Hs).
Qed.

End Controller.

(** ** The crawl coordinator *)

Module Coordinator.
Import Js Dom Script Host Run RunFacts FastCrawler ControllerFacts BatchFacts.
Import TabFacts NumberFacts.
Local Open Scope eff_scope.

Lemma browserFor_seq first budget index :
  0 < budget →
  browserFor (seq first budget) index = Some (first + index mod budget).
Proof.
  intros Hpos. unfold browserFor. rewrite length_seq.
  destruct budget as [|budget]; [lia|].
  apply lookup_seq_lt. apply Nat.mod_upper_bound. lia.
Qed.

Lemma browserFor_nil index : browserFor [] index = None.
Proof. done. Qed.

(** The crawler that the constructor builds has an empty pool and the
    budget [options.concurrency || 3]: what is absent or falsy, like 0,
    gives way to the default, any other value is kept as it is. *)
Lemma constructor_fresh (options : Options) (w : World) :
  ∃ this w',
    constructor options w = (w', Normal this)
    ∧ browsers w' = []
    ∧ concurrency this = orDefault (opt_concurrency options) (ofNat 3)
    ∧ launched w' = launched w.
Proof. by eexists _, _. Qed.

(** C4, as the code has it.  The budget of a crawler is a value [c] that
    is taken as it comes.  The loop of [initBrowsers] makes [budget]
    turns, the number of counters [i] with [i < c]: [c] itself when [c] is
    a whole number, and otherwise what [turnsBelow] gives, the next whole
    number above a positive fraction and none for a budget that is not
    positive or reads as no number.  A fresh crawler whose launches
    succeed makes exactly [budget] calls of [puppeteer.launch] and holds
    these [budget] browsers, whatever the number of URLs.  The crawls
    open one tab for every URL whose [newPage] does not throw, the tab of
    the URL at position [i] on the browser at position [i mod budget] of
    the pool; with an empty pool no tab is opened and every crawl is
    rejected.  The batch returns one entry per URL, in the order of the
    URLs, each with its own URL and the outcome of its own crawl. *)
Theorem round_robin_over_the_pool (env : Env) (fuel : nat) (this : Crawler)
  (urls : list string) (sessionId : string) (w : World) (budget : nat) :
  let first := length (launched w) in
  let pool := seq first budget in
  let run := crawlMultipleUrls env fuel this urls sessionId in
  turnsBelow (concurrency this) = Some budget →
  browsers w = [] →
  launchesSucceed env first budget →
  (∀ i url, urls !! i = Some url →
     crawlOutcome env fuel this pool urls sessionId i url ≠ Pending) →
  (∀ i, below i (concurrency this) = true ↔ i < budget)
  ∧ (∀ n, concurrency this = ofNat n → budget = n)
  ∧ launched (after run w)
    = launched w ++ replicate budget (poolFlag env this)
  ∧ browsers (after run w) = pool
  ∧ (∃ new, tabs (after run w) = tabs w ++ new
            ∧ new ≡ₚ tabsOf env first budget urls)
  ∧ (∀ i url, urls !! i = Some url → 0 < budget →
       newPageThrows (visit env i (trim url)) = None →
       (first + i mod budget, trim url) ∈ tabs (after run w))
  ∧ ∃ entries,
      outcome run w = Normal entries
      ∧ length entries = length urls
      ∧ ∀ i url, urls !! i = Some url →
          ∃ r, settle (crawlOutcome env fuel this pool urls sessionId i url)
                 = Some r
               ∧ entries !! i = Some (entry urls i r)
               ∧ be_url (entry urls i r) = Some url
               ∧ (budget = 0 → r = rejected "Browser not available").
Proof.
  intros first pool run Hbudget Hfresh Hok Hfuel.
  destruct (crawlMultipleUrls_after env this fuel urls sessionId budget
              Hbudget w Hok) as (Hlaunched & Hpool & _).
  fold run first in Hlaunched, Hpool.
  rewrite Hfresh in Hpool. simpl in Hpool.
  pose proof (batch_tabs env fuel this urls sessionId budget w Hbudget Hfresh
                Hok Hfuel) as Htabs.
  fold run first in Htabs.
  repeat apply conj.
  - by apply turnsBelow_counts.
  - intros n Hn. rewrite Hn, turnsBelow_ofNat in Hbudget. by injection Hbudget.
  - done.
  - done.
  - by eexists.
  - intros i url Hurl Hpos Hnew. rewrite Htabs. apply elem_of_app. right.
    unfold tabsOf. apply list_elem_of_omap.
    exists (Some (first + i mod budget, trim url)). split; [|done].
    apply list_elem_of_lookup. exists i.
    rewrite list_lookup_imap, Hurl. simpl. unfold tabOf. rewrite Hnew.
    by destruct budget; [lia|].
  - destruct (crawlMultipleUrls_outcome env this fuel urls sessionId budget
                Hbudget w Hok) as (results & Hout & Hlen & Hown).
    { by rewrite Hfresh. }
    rewrite Hfresh in Hown. simpl in Hown.
    exists (imap (entry urls) results). split; [done|].
    split; [by rewrite length_imap|].
    intros i url Hurl. destruct (Hown i url Hurl) as (r & Hr & Hset).
    exists r. split; [done|]. rewrite list_lookup_imap, Hr.
    repeat split; [by simpl|].
    intros ->. unfold crawlOutcome in Hset.
    rewrite crawl_no_browser in Hset by done. by injection Hset.
Qed.

(** C1, as the code has it.  When the navigation of one URL of a batch
    throws, every URL still gets its entry, built from the outcome of its
    own crawl.  The entry of the failing URL is a fulfilled one:
    [success] is [true], [error] is [null], and [data] is the error
    variant that carries the message of the navigation error. *)
Theorem navigation_failure_stays_local (env : Env) (fuel : nat)
  (this : Crawler) (urls : list string) (sessionId : string) (w : World)
  (failing budget : nat) (url message : string) :
  let first := length (launched w) in
  let pool := seq first budget in
  let site := visit env failing (trim url) in
  turnsBelow (concurrency this) = Some budget →
  0 < budget →
  browsers w = [] →
  launchesSucceed env first budget →
  urls !! failing = Some url →
  newPageThrows site = None →
  gotoThrows site = Some message →
  closeThrows site = None →
  (∀ i other, urls !! i = Some other →
     crawlOutcome env fuel this pool urls sessionId i other ≠ Pending) →
  ∃ entries,
    outcome (crawlMultipleUrls env fuel this urls sessionId) w
      = Normal entries
    ∧ length entries = length urls
    ∧ entries !! failing
      = Some {| be_url := Some url; be_success := true;
                be_data := Some (errorResult (trim url) message);
                be_error := None |}
    ∧ ∀ i other, urls !! i = Some other →
        ∃ r, settle (crawlOutcome env fuel this pool urls sessionId i other)
               = Some r
             ∧ entries !! i = Some (entry urls i r).
Proof.
  intros first pool site Hbudget Hpos Hfresh Hok Hurl Hnew Hgoto Hclose Hfuel.
  destruct (crawlMultipleUrls_outcome env this fuel urls sessionId budget
              Hbudget w Hok) as (results & Hout & Hlen & Hown).
  { by rewrite Hfresh. }
  rewrite Hfresh in Hown. simpl in Hown. fold first pool in Hown.
  exists (imap (entry urls) results). split; [done|].
  split; [by rewrite length_imap|]. split.
  - destruct (Hown failing url Hurl) as (r & Hr & Hset).
    rewrite list_lookup_imap, Hr. simpl. f_equal.
    unfold crawlOutcome in Hset.
    rewrite (crawl_with_browser _ _ _ _ _ _ _ _ (first + failing mod budget))
      in Hset by (by apply browserFor_seq).
    rewrite scrape_outcome in Hset. fold site in Hset.
    rewrite Hnew, Hgoto, Hclose in Hset. injection Hset as <-.
    unfold entry. by rewrite Hurl.
  - intros i other Hother. destruct (Hown i other Hother) as (r & Hr & Hset).
    exists r. split; [done|]. by rewrite list_lookup_imap, Hr.
Qed.

(** C3.  When the launch number [ready] of [initBrowsers] throws after
    [ready] launches that succeeded, the batch ends with that error and the
    browsers launched before it are still running: the [finally] block
    that closes the pool is never entered. *)
Theorem failed_provisioning_leaves_browsers_running (env : Env) (fuel : nat)
  (this : Crawler) (urls : list string) (sessionId : string) (w : World)
  (ready budget : nat) (message : string) :
  let first := length (launched w) in
  let run := crawlMultipleUrls env fuel this urls sessionId in
  turnsBelow (concurrency this) = Some budget →
  ready < budget →
  launchesSucceed env first ready →
  launchThrows env (first + ready) = Some message →
  outcome run w = Throw message
  ∧ ∀ k, k < ready → first + k ∈ running (after run w).
Proof.
  intros first run Hbudget Hlt Hok Hbad.
  assert (run w =
          (set_launched (λ calls, calls ++ [poolFlag env this])
             (provisioned (poolFlag env this) ready w),
           Throw message)) as Hrun.
  { unfold run, crawlMultipleUrls, initBrowsers. rewrite Hbudget.
    unfold bind at 1.
    by rewrite (launchAll_fails env this _ ready message). }
  unfold outcome, after. rewrite Hrun. split; [done|].
  intros k Hk. cbn [fst]. unfold provisioned, set_launched; cbn [running].
  unfold set_running; cbn [running]. fold first.
  apply elem_of_union. left. apply elem_of_list_to_set, elem_of_seq. lia.
Qed.

(** When the pool comes up, the teardown closes all of it. *)
Lemma pool_closed_when_provisioned (env : Env) (fuel : nat) (this : Crawler)
  (urls : list string) (sessionId : string) (w : World) (budget : nat) :
  let run := crawlMultipleUrls env fuel this urls sessionId in
  turnsBelow (concurrency this) = Some budget →
  launchesSucceed env (length (launched w)) budget →
  outcome run w ≠ Pending →
  ∀ browser, browser ∈ browsers (after run w) → browser ∉ running (after run w).
Proof.
  intros run Hbudget Hok Hend browser Hin. subst run.
  destruct (crawlMultipleUrls_after env this fuel urls sessionId budget
              Hbudget w Hok) as (_ & _ & Hrun).
  rewrite (Hrun Hend). set_solver.
Qed.

End Coordinator.

(** ** The progress emitter and the command line *)

Module Emitter.
Import Js Dom Script Host Run RunFacts FastCrawler.
Local Open Scope eff_scope.

Lemma emitProgress_absent sessionId data w :
  activeCrawls w !! sessionId = None →
  emitProgress sessionId data w = (w, Normal tt).
Proof.
  intros H. unfold emitProgress, bind, gets. simpl. by rewrite H.
Qed.

Lemma bind_Normal {A B} (m : Eff A) (k : A → Eff B) w w1 a :
  m w = (w1, Normal a) → bind m k w = k a w1.
Proof. intros H. unfold bind. by rewrite H. Qed.

(** What holds after every run of [final] holds after
    [try { body } finally { final }], whatever follows it returns. *)
Lemma after_finally {A B} (body : Eff A) (final : Eff unit) (b : B) w
  (P : World → Prop) :
  outcome (tryFinally body final ;; ret b) w ≠ Pending →
  (∀ v, P (after final v)) →
  P (after (tryFinally body final ;; ret b) w).
Proof.
  unfold outcome, after, bind, tryFinally. intros Hend Hfinal.
  destruct (body w) as [w1 c]. specialize (Hfinal w1).
  destruct c; try done;
    by destruct (final w1) as [w2 [[]| |]].
Qed.

(** C9.  [emitProgress] for a session that is not in the registry returns
    normally and changes nothing, one event or many.  After the session
    is deleted from the registry this is the case, so the streams receive
    nothing more from it; and when a request to [POST /crawl] whose
    options are an object or absent has run to its end, its session is no
    longer in the registry. *)
Theorem emitProgress_without_session (sessionId : string) (w : World) :
  (activeCrawls w !! sessionId = None →
   (∀ data, emitProgress sessionId data w = (w, Normal tt))
   ∧ ∀ events,
       foldl (λ w data, after (emitProgress sessionId data) w) w events = w)
  ∧ (let gone := set_activeCrawls (delete sessionId) w in
     (∀ data, emitProgress sessionId data gone = (gone, Normal tt))
     ∧ ∀ events,
         streams (foldl (λ w data, after (emitProgress sessionId data) w)
                    gone events)
         = streams w)
  ∧ (∀ env fuel url urls options stream now,
       let request := Server.postCrawl env fuel (url :: urls)
                        (Server.objectOptions options) stream now in
       outcome request w ≠ Pending →
       activeCrawls (after request w) !! pretty now = None).
Proof.
  assert (∀ v : World, activeCrawls v !! sessionId = None →
            ∀ events,
              foldl (λ w data, after (emitProgress sessionId data) w) v events
              = v) as Hfold.
  { intros v Hv events. induction events as [|data events IH]; [done|].
    simpl. unfold after at 2. by rewrite emitProgress_absent. }
  repeat apply conj.
  - intros Hnone. split; [|by apply Hfold].
    intros data. by apply emitProgress_absent.
  - intros data. apply emitProgress_absent. simpl. apply lookup_delete_eq.
  - intros events. rewrite Hfold; [done|]. simpl. apply lookup_delete_eq.
  - intros env fuel url urls options stream now request. subst request.
    unfold outcome at 1, after at 1, Server.postCrawl.
    erewrite !bind_Normal by reflexivity. intros Hend.
    apply (after_finally _ _ _ _ (λ v, activeCrawls v !! pretty now = None));
      [done|].
    intros v. simpl. apply lookup_delete_eq.
Qed.

End Emitter.

Module CommandLine.
Import Js Dom Script Host Run RunFacts CliFacts.
Local Open Scope eff_scope.

(** C10.  [headlessMode] is [false] exactly for the string "false".
    Each of the two commands launches its one browser with the
    [headlessMode] of the option [--headless], whose default is "false":
    the browser is visible by default, and headless for "0", "no" or
    "true". *)
Theorem headless_unless_false :
  (∀ value, Cli.headlessMode value = false ↔ value = "false")
  ∧ (∀ env fuel url output headlessArg w,
       launched (after (Cli.priceHistoryAction env fuel url output headlessArg)
                   w)
       = launched w
           ++ [Cli.headlessMode (Cli.optionValue headlessArg "false")])
  ∧ (∀ env url className output headlessArg w,
       launched (after (Cli.crawlAction env url className output headlessArg)
                   w)
       = launched w
           ++ [Cli.headlessMode (Cli.optionValue headlessArg "false")])
  ∧ Cli.headlessMode (Cli.optionValue None "false") = false
  ∧ Cli.headlessMode (Cli.optionValue (Some "0") "false") = true
  ∧ Cli.headlessMode (Cli.optionValue (Some "no") "false") = true
  ∧ Cli.headlessMode (Cli.optionValue (Some "true") "false") = true.
Proof.
  repeat apply conj; try done.
  - intros value. unfold Cli.headlessMode. by case_bool_decide.
  - intros. unfold Cli.priceHistoryAction.
    rewrite action_launches. apply crawlPriceHistory_launches.
  - intros. unfold Cli.crawlAction.
    rewrite action_launches. apply crawlByClass_launches.
Qed.

End CommandLine.

(** ** The theorems at work on the sample pages *)

Module Scenarios.
Import Js Dom FloorPattern Script Host Run FastCrawler Sample.

Lemma floor_follows_address_witness :
  extractRow sparseRow (Some (detailRow " #07-12, Example Rd ")) !! "floor"
  = Some (str "07").
Proof.
  destruct (RowExtractor.floor_follows_address sparseRow
              (Some (detailRow " #07-12, Example Rd "))) as (Hfloor & _).
  apply (Hfloor "#07-12, Example Rd" "" "07"); [vm_compute; reflexivity|].
  split.
  - exists "12, Example Rd". by repeat split.
  - intros pre' d' post' _. simpl. lia.
Defined.

Lemma extractRow_omits_missing_cells_witness :
  extractRow sparseRow None !! "bedrooms" = None
  ∧ extractRow sparseRow None !! "size" = None.
Proof.
  destruct (RowExtractor.extractRow_omits_missing_cells sparseRow None)
    as (_ & Hbedroom & _).
  apply Hbedroom. vm_compute. reflexivity.
Defined.

Lemma emitProgress_without_session_witness :
  emitProgress "1756684800000"
    (event "u" 0 1 scraping "Scraped page 1 (10 records)" None) (blank [])
  = (blank [], Normal tt).
Proof.
  destruct (Emitter.emitProgress_without_session "1756684800000" (blank []))
    as (Habsent & _).
  destruct Habsent as [Hone _]; [reflexivity|]. apply Hone.
Defined.

Lemma threePageSite_table : threePageTable threePageSite.
Proof.
  repeat apply conj; try (vm_compute; reflexivity).
  - intros [|[|[|[|page]]]] Hp; try lia; by split.
  - intros [|[|[|page]]] Hp; try lia.
    all: split; [|reflexivity].
    all: intros [H|(b & a & li & H1 & H2 & H3)];
      [ vm_compute in H; discriminate H
      | vm_compute in H1; injection H1 as <- <-;
        vm_compute in H2; injection H2 as <-;
        vm_compute in H3; discriminate H3 ].
  - eexists _, _, _. repeat split; vm_compute; reflexivity.
Defined.

Lemma reachesTable_siteOf pages : reachesTable (siteOf true pages).
Proof. by repeat split. Defined.

Lemma firstPage_turns (site : Site) :
  views site 1 = view 10 false →
  ∀ page, 1 ≤ page < 1 + 1 → turns site page.
Proof.
  intros Hv [|[|page]] Hp; try lia. unfold turns. rewrite Hv.
  repeat split; vm_compute; reflexivity.
Defined.

Lemma three_page_table_gives_24_rows_witness :
  outcome (crawlPropertyGuru (web threePageSite) 3 (crawler 3) "u" "s" 0 1)
    (blank [0])
  = Normal (scrapedResult (web threePageSite) "u"
              (pageRows threePageSite 1 ++ pageRows threePageSite 2
                 ++ pageRows threePageSite 3) 3).
Proof.
  destruct (Controller.three_page_table_gives_24_rows
              (web threePageSite) "u" threePageSite
              threePageSite_table (reachesTable_siteOf _))
    as (_ & Hserver & _).
  apply (Hserver 3 (crawler 3) "s" 0 1 (blank [0]) 0);
    [reflexivity | reflexivity | lia].
Defined.

Lemma early_exit_keeps_the_rows_witness :
  outcome (crawlPropertyGuru (web clickFailsSite) 5 (crawler 3) "u" "s" 0 1)
    (blank [0])
  = Normal (scrapedResult (web clickFailsSite) "u"
              (pagesFrom clickFailsSite 1 2) 2)
  ∧ outcome (crawlPropertyGuru (web vanishingSite) 5 (crawler 3) "u" "s" 0 1)
      (blank [0])
    = Normal (scrapedResult (web vanishingSite) "u"
                (pagesFrom vanishingSite 1 1) 2).
Proof.
  split.
  - destruct (Controller.early_exit_keeps_the_rows
                (web clickFailsSite) 5 (crawler 3) "u" "s" 0 1 (blank [0]) 0 1)
      as [Hclick _];
      [reflexivity | by repeat split | by apply firstPage_turns | lia |].
    apply (Hclick "Node is detached"); vm_compute; reflexivity.
  - destruct (Controller.early_exit_keeps_the_rows
                (web vanishingSite) 5 (crawler 3) "u" "s" 0 1 (blank [0]) 0 1)
      as [_ Hrows];
      [reflexivity | by repeat split | by apply firstPage_turns | lia |].
    apply Hrows. reflexivity.
Defined.

Lemma missing_table_gives_error_variant_witness :
  outcome (crawlPropertyGuru (web noTableSite) 5 (crawler 1) "u" "s" 0 1)
    (blank [0])
  = Normal (errorResult "u" "No price history table found").
Proof.
  destruct (Controller.missing_table_gives_error_variant
              (web noTableSite) "u" noTableSite)
    as (_ & _ & _ & Hserver & _);
    [reflexivity | reflexivity | reflexivity | reflexivity |].
  apply (Hserver 5 (crawler 1) "s" 0 1 (blank [0]) 0); reflexivity.
Defined.

(** C2, as the claim states it, fails: the page of [noTableSite] loads,
    its table root never appears, and the result is not a success result
    with [totalPages = 1]. *)
Lemma missing_table_counterexample :
  gotoThrows noTableSite = None ∧ tableRoot noTableSite = false
  ∧ ¬ ∃ result,
        outcome (crawlPropertyGuru (web noTableSite) 5 (crawler 1) "u" "s"
                   0 1) (blank [0]) = Normal result
        ∧ cd_error result = None
        ∧ cd_transactions result = []
        ∧ cd_totalPages result = Some 1.
Proof.
  split; [reflexivity|]. split; [reflexivity|].
  intros (result & Hout & Herr & _). vm_compute in Hout.
  injection Hout as <-. discriminate Herr.
Qed.

Lemma sample_batch_ends (env : Env) :
  (∀ i, i < 3 →
     crawlOutcome env 5 (crawler 2) (seq 0 2) ["a"; "b"; "c"] "s" i
       (default "" (["a"; "b"; "c"] !! i)) ≠ Pending) →
  ∀ i url, ["a"; "b"; "c"] !! i = Some url →
    crawlOutcome env 5 (crawler 2) (seq 0 2) ["a"; "b"; "c"] "s" i url
    ≠ Pending.
Proof.
  intros H [|[|[|i]]] url [= <-].
  - apply (H 0). lia.
  - apply (H 1). lia.
  - apply (H 2). lia.
Defined.

Lemma round_robin_over_the_pool_witness :
  let run := crawlMultipleUrls (web onePageSite) 5 (crawler 2)
               ["a"; "b"; "c"] "s" in
  launched (after run (blank [])) = [true; true]
  ∧ browsers (after run (blank [])) = [0; 1]
  ∧ (0, "a") ∈ tabs (after run (blank []))
  ∧ (1, "b") ∈ tabs (after run (blank []))
  ∧ (0, "c") ∈ tabs (after run (blank []))
  ∧ ∃ entries,
      outcome run (blank []) = Normal entries ∧ length entries = 3.
Proof.
  destruct (Coordinator.round_robin_over_the_pool
              (web onePageSite) 5 (crawler 2) ["a"; "b"; "c"] "s" (blank [])
              2)
    as (_ & _ & H1 & H2 & _ & H3 & entries & H4 & H5 & _).
  - reflexivity.
  - reflexivity.
  - intros k _. reflexivity.
  - apply sample_batch_ends.
    intros [|[|[|i]]] Hi; try lia; vm_compute; discriminate.
  - split; [exact H1|]. split; [exact H2|].
    split; [apply (H3 0 "a"); [reflexivity|lia|reflexivity]|].
    split; [apply (H3 1 "b"); [reflexivity|lia|reflexivity]|].
    split; [apply (H3 2 "c"); [reflexivity|lia|reflexivity]|].
    by exists entries.
Defined.

(** C4, as the claim states it, fails for a budget that is not a whole
    positive number.  A crawler built with the budget 0 provisions three
    browsers, not none; with the budget 5/2 three, not 5/2 of them; with
    the budget -1 none: no URL is given a browser and every entry is a
    failure. *)
Lemma fractional_budget_counterexample :
  let built budget :=
    bind (constructor {| opt_concurrency := Some budget;
                         opt_headless := None; opt_timeout := None |})
         (λ this, crawlMultipleUrls (web onePageSite) 5 this ["a"; "b"]
                    "s") in
  let half := numeral (finite (QArith_base.Qmake 5 2)) in
  length (browsers (after (built (ofNat 0)) (blank []))) = 3
  ∧ length (browsers (after (built half) (blank []))) = 3
  ∧ ¬ QArith_base.Qeq (QArith_base.inject_Z 3) (QArith_base.Qmake 5 2)
  ∧ browsers (after (built (ofZ (-1))) (blank [])) = []
  ∧ tabs (after (built (ofZ (-1))) (blank [])) = []
  ∧ ¬ ∃ entries e,
        outcome (built (ofZ (-1))) (blank []) = Normal entries
        ∧ entries !! 0 = Some e
        ∧ be_success e = true.
Proof.
  cbv zeta. split; [vm_compute; reflexivity|].
  split; [vm_compute; reflexivity|].
  split; [intros H; vm_compute in H; discriminate H|].
  split; [vm_compute; reflexivity|]. split; [vm_compute; reflexivity|].
  intros (entries & e & Hout & He & Hs).
  vm_compute in Hout. injection Hout as <-.
  injection He as <-. discriminate Hs.
Qed.

Lemma navigation_failure_stays_local_witness :
  ∃ entries,
    outcome (crawlMultipleUrls secondUnreachable 5 (crawler 2)
               ["a"; "b"; "c"] "s") (blank []) = Normal entries
    ∧ entries !! 1
      = Some {| be_url := Some "b"; be_success := true;
                be_data :=
                  Some (errorResult "b" "net::ERR_NAME_NOT_RESOLVED");
                be_error := None |}.
Proof.
  destruct (Coordinator.navigation_failure_stays_local
              secondUnreachable 5 (crawler 2) ["a"; "b"; "c"] "s" (blank [])
              1 2 "b" "net::ERR_NAME_NOT_RESOLVED")
    as (entries & H1 & _ & H2 & _).
  - reflexivity.
  - lia.
  - reflexivity.
  - intros k _. reflexivity.
  - reflexivity.
  - reflexivity.
  - reflexivity.
  - reflexivity.
  - apply sample_batch_ends.
    intros [|[|[|i]]] Hi; try lia; vm_compute; discriminate.
  - by exists entries.
Defined.

(** C1, as the claim states it, fails: the navigation to the second of
    three URLs throws, and the entry of that URL is not marked as
    failed. *)
Lemma navigation_failure_counterexample :
  gotoThrows (visit secondUnreachable 1 "b")
    = Some "net::ERR_NAME_NOT_RESOLVED"
  ∧ ¬ ∃ entries e,
        outcome (crawlMultipleUrls secondUnreachable 5 (crawler 2)
                   ["a"; "b"; "c"] "s") (blank []) = Normal entries
        ∧ entries !! 1 = Some e
        ∧ be_success e = false.
Proof.
  split; [reflexivity|].
  intros (entries & e & Hout & He & Hs).
  vm_compute in Hout. injection Hout as <-.
  injection He as <-. discriminate Hs.
Qed.

Lemma failed_provisioning_leaves_browsers_running_witness :
  let run := crawlMultipleUrls secondLaunchFails 5 (crawler 2)
               ["a"; "b"; "c"] "s" in
  outcome run (blank []) = Throw "Failed to launch the browser process"
  ∧ 0 ∈ running (after run (blank [])).
Proof.
  destruct (Coordinator.failed_provisioning_leaves_browsers_running
              secondLaunchFails 5 (crawler 2) ["a"; "b"; "c"] "s" (blank [])
              1 2 "Failed to launch the browser process")
    as [Hthrow Hleak].
  - reflexivity.
  - lia.
  - intros [|k] Hk; [reflexivity|lia].
  - reflexivity.
  - split; [exact Hthrow|]. apply (Hleak 0). lia.
Defined.

End Scenarios.

(** ** The loops, when they return *)

Module LoopFacts.
Import Js Dom Script Host Run RunFacts FastCrawler ControllerFacts BatchFacts.
Import CliFacts.
Local Open Scope eff_scope.

Lemma pagesFrom_S site first count :
  pagesFrom site first (S count)
  = pageRows site first ++ pagesFrom site (S first) count.
Proof. done. Qed.

Lemma pagesFrom_snoc site first count :
  pagesFrom site first (S count)
  = pagesFrom site first count ++ pageRows site (first + count).
Proof.
  unfold pagesFrom. rewrite seq_S, map_app, concat_app. simpl.
  by rewrite app_nil_r.
Qed.

Section Server.
Context (sessionId url : string) (urlIndex totalUrls : nat) (site : Site).

(** What the loop of the server returns, when it returns: the rows of the
    pages it went through, in order, and a counter that is the number of
    these pages or one more. *)
Lemma cycle_returns fuel acc first w all page :
  outcome (cycle sessionId url urlIndex totalUrls site fuel acc first) w
  = Normal (all, page) →
  ∃ scraped,
    all = acc ++ pagesFrom site first scraped
    ∧ (first + scraped = page ∨ first + scraped = S page)
    ∧ first ≤ page.
Proof.
  revert acc first. induction fuel as [|fuel IH]; intros acc first; [done|].
  destruct (rowsAppear (views site first)) eqn:Hrows.
  - destruct (scriptThrows (views site first)) as [message|] eqn:Hscript.
    + by rewrite (cycle_script_throws _ _ _ _ _ _ _ _ message).
    + destruct (statusThrows (views site first)) as [message|] eqn:Hstatus;
        [by rewrite (cycle_status_throws _ _ _ _ _ _ _ _ message)|].
      rewrite ControllerFacts.cycle_scraped by done.
      destruct (lastPage _).
      { intros [= <- <-]. exists 1. split; [|lia].
        unfold pagesFrom; simpl. by rewrite app_nil_r. }
      destruct (clickThrows _).
      { intros [= <- <-]. exists 1. split; [|lia].
        unfold pagesFrom; simpl. by rewrite app_nil_r. }
      intros H. destruct (IH _ _ H) as (scraped & -> & Hp & Hle).
      exists (S scraped). rewrite pagesFrom_S, app_assoc. split; [done|lia].
  - rewrite cycle_no_rows by done. intros [= <- <-].
    exists 0. unfold pagesFrom; simpl. rewrite app_nil_r. split; [done|lia].
Qed.

End Server.

Section Cli.
Context (site : Site).

(** The loop of the command line has no wait of its own: its counter is
    the number of the pages it went through. *)
Lemma cli_cycle_returns fuel acc first w w' all page :
  Cli.cycle site fuel acc first w = (w', Normal (all, page)) →
  ∃ more,
    all = acc ++ pagesFrom site first (S more) ∧ page = first + more.
Proof.
  revert acc first. induction fuel as [|fuel IH]; intros acc first; [done|].
  destruct (scriptThrows (views site first)) as [message|] eqn:Hscript.
  { by rewrite (cli_cycle_throws _ _ _ _ message) by auto. }
  destruct (statusThrows (views site first)) as [message|] eqn:Hstatus.
  - by rewrite (cli_cycle_throws _ _ _ _ message) by auto.
  - rewrite cli_cycle_scraped by done.
    destruct (lastPage _).
    { intros [= <- <- <-]. exists 0. split; [|lia].
      unfold pagesFrom; simpl. by rewrite app_nil_r. }
    destruct (clickThrows _).
    { intros [= <- <- <-]. exists 0. split; [|lia].
      unfold pagesFrom; simpl. by rewrite app_nil_r. }
    intros H. destruct (IH _ _ H) as (more & -> & ->).
    exists (S more). rewrite (pagesFrom_S _ first), app_assoc.
    split; [done|lia].
Qed.

End Cli.

End LoopFacts.

(** ** Every result of a crawl *)

Module ControllerMore.
Import Js Dom Script Host Run RunFacts FastCrawler ControllerFacts BatchFacts.
Import CliFacts LoopFacts.
Local Open Scope eff_scope.

(** X1.  Whenever [crawlPropertyGuru] fulfils, its value is the error
    variant for its URL, or a scraped result whose transactions are the
    rows of the pages 1 to [scraped] of the table, in that order, and
    whose [totalPages] is [scraped] or [scraped + 1]: one more when the
    loop was left because no row showed up on the next page.
    [totalPages] is never 0. *)
Theorem fulfilled_result_shape (env : Env) (fuel : nat) (this : Crawler)
  (url sessionId : string) (urlIndex totalUrls : nat) (w : World)
  (result : CrawlData) :
  let site := visit env urlIndex url in
  outcome (crawlPropertyGuru env fuel this url sessionId urlIndex totalUrls) w
  = Normal result →
  (∃ message, result = errorResult url message)
  ∨ (∃ scraped page,
       result = scrapedResult env url (pagesFrom site 1 scraped) page
       ∧ (page = scraped ∨ page = S scraped)
       ∧ 1 ≤ page).
Proof.
  intros site.
  destruct (browserFor (browsers w) urlIndex) as [browser|] eqn:Hb;
    [|by rewrite crawl_no_browser].
  rewrite (crawl_with_browser _ _ _ _ _ _ _ _ browser Hb).
  rewrite scrape_outcome. fold site.
  destruct (newPageThrows site); [done|].
  destruct (gotoThrows site) as [message|].
  { destruct (closeThrows site); [done|]. intros [= <-]. eauto. }
  destruct (scrollThrows site) as [message|].
  { destruct (closeThrows site); [done|]. intros [= <-]. eauto. }
  destruct (tableRoot site).
  2:{ destruct (closeThrows site); [done|]. intros [= <-]. eauto. }
  destruct (filtersThrow site) as [message|].
  { destruct (closeThrows site); [done|]. intros [= <-]. eauto. }
  destruct (outcome (cycle _ _ _ _ _ _ _ _) w) as [[all page]|message|] eqn:Hc.
  - destruct (closeThrows site); [done|]. intros [= <-].
    apply cycle_returns in Hc as (scraped & -> & Hp & Hle).
    right. exists scraped, page. split; [done|]. lia.
  - destruct (closeThrows site); [done|]. intros [= <-]. eauto.
  - done.
Qed.

(** X2.  When a script of a page throws inside the loop, after [turned]
    pages were scraped and turned, the rows gathered so far are dropped:
    the crawl fulfils with the error variant that carries the message,
    and no transaction.  This is so for the scripts that expand and
    extract the rows, and for the script that reads the next control,
    which runs after the rows of the page were reported. *)
Theorem script_failure_discards_rows (env : Env) (fuel : nat) (this : Crawler)
  (url sessionId : string) (urlIndex totalUrls : nat) (w : World)
  (browser turned : nat) (message : string) :
  let site := visit env urlIndex url in
  browserFor (browsers w) urlIndex = Some browser →
  reachesTable site →
  (∀ page, 1 ≤ page < 1 + turned → turns site page) →
  rowsAppear (views site (S turned)) = true →
  scriptThrows (views site (S turned)) = Some message
  ∨ (scriptThrows (views site (S turned)) = None
     ∧ statusThrows (views site (S turned)) = Some message) →
  S turned ≤ fuel →
  outcome (crawlPropertyGuru env fuel this url sessionId urlIndex totalUrls) w
  = Normal (errorResult url message).
Proof.
  intros site Hb (Hnew & Hgoto & Hscroll & Hroot & Hfilters & Hclose)
    Hturns Hrows Hscript Hfuel.
  rewrite (crawl_with_browser _ _ _ _ _ _ _ _ browser Hb).
  rewrite scrape_outcome. fold site.
  rewrite Hnew, Hgoto, Hscroll, Hroot, Hfilters, Hclose.
  replace fuel with (turned + S (fuel - S turned)) by lia.
  rewrite ControllerFacts.cycle_turns by done. change (1 + turned) with (S turned).
  destruct Hscript as [Hscript|[Hscript Hstatus]].
  - by rewrite (cycle_script_throws _ _ _ _ _ _ _ _ message).
  - by rewrite (cycle_status_throws _ _ _ _ _ _ _ _ message).
Qed.

(** X3.  The promise of [crawlPropertyGuru] is rejected in three cases
    only: no browser for the index (the message is "Browser not
    available"), [newPage] throws, or [page.close] throws in the
    [finally] block, which then replaces whatever the [try] block had
    returned or caught. *)
Theorem rejection_cases (env : Env) (fuel : nat) (this : Crawler)
  (url sessionId : string) (urlIndex totalUrls : nat) (w : World)
  (message : string) :
  let site := visit env urlIndex url in
  let run := crawlPropertyGuru env fuel this url sessionId urlIndex
               totalUrls in
  outcome run w = Throw message ↔
    (browserFor (browsers w) urlIndex = None
     ∧ message = "Browser not available")
    ∨ (is_Some (browserFor (browsers w) urlIndex)
       ∧ newPageThrows site = Some message)
    ∨ (is_Some (browserFor (browsers w) urlIndex)
       ∧ newPageThrows site = None
       ∧ closeThrows site = Some message
       ∧ outcome (scrape env sessionId url urlIndex totalUrls site fuel) w
         ≠ Pending).
Proof.
  intros site run. subst run.
  destruct (browserFor (browsers w) urlIndex) as [browser|] eqn:Hb.
  - rewrite (crawl_with_browser _ _ _ _ _ _ _ _ browser Hb). fold site.
    destruct (newPageThrows site) as [m|].
    { split.
      - intros [= ->]. right; left. eauto.
      - intros [[? _]|[[_ [= ->]]|(_ & ? & _)]]; done. }
    destruct (outcome (scrape _ _ _ _ _ _ _) w) as [r|m|],
             (closeThrows site) as [m'|]; split; try done.
    all: try (intros [= ->]; right; right; by eauto).
    all: try (intros [[? _]|[[_ ?]|(_ & _ & ? & ?)]]; by simplify_eq).
  - rewrite crawl_no_browser by done. split.
    + intros [= <-]. by left.
    + intros [[_ ->]|[[[? ?] _]|[[? ?] _]]]; done.
Qed.

End ControllerMore.

(** ** What a batch leaves alone *)

Module FrameFacts.
Import Js Dom Script Host Run RunFacts FastCrawler ControllerFacts BatchFacts.
Import CliFacts.
Local Open Scope eff_scope.

Lemma Keeps_pending {A X} (part : World → X) : Keeps part (@pending A).
Proof. done. Qed.

(** A tame computation keeps every part of the world that looks neither
    at the streams nor at the tabs. *)
Lemma Keeps_Tame {A X} (part : World → X) (m : Eff A) :
  (∀ s t w, part (set_tabs (λ _, t) (set_streams (λ _, s) w)) = part w) →
  Tame m → Keeps part m.
Proof.
  intros Hpart Hm w. destruct (Hm w) as [(s & t & Hs) _].
  by rewrite Hs, Hpart.
Qed.

Lemma Keeps_settledOf {A X} (part : World → X) (task : Eff A) :
  Keeps part task → Keeps part (settledOf task).
Proof.
  intros Ht w. specialize (Ht w). unfold after, settledOf in *.
  by destruct (task w) as [w1 [| |]].
Qed.

Lemma Keeps_allSettled {A X} (part : World → X) (tasks : list (Eff A)) :
  Forall (Keeps part) tasks → Keeps part (allSettled tasks).
Proof.
  induction 1 as [|task rest Ht _ IH]; simpl; [apply Keeps_ret|].
  apply Keeps_bind; [by apply Keeps_settledOf|intros r].
  apply Keeps_bind; [done|intros rs]. apply Keeps_ret.
Qed.

Section Pool.
Context {X : Type} (part : World → X).
Context (Hlaunched : ∀ f w, part (set_launched f w) = part w).
Context (Hrunning : ∀ f w, part (set_running f w) = part w).
Context (Hbrowsers : ∀ f w, part (set_browsers f w) = part w).
Context (Hstreams : ∀ f w, part (set_streams f w) = part w).
Context (Htabs : ∀ f w, part (set_tabs f w) = part w).
Context (env : Env).

Lemma Keeps_launch flag : Keeps part (launch env flag).
Proof.
  intros w. unfold after, launch, bind, gets, modify, mayThrow. simpl.
  destruct (launchThrows env (length (launched w))); simpl;
    by rewrite ?Hrunning, ?Hlaunched.
Qed.

Lemma Keeps_launchAll this count : Keeps part (launchAll env this count).
Proof.
  induction count as [|count IH]; [apply Keeps_ret|]. cbn [launchAll].
  apply Keeps_bind; [apply Keeps_launch|intros browser].
  apply Keeps_bind; [|by intros _].
  intros w. apply Hbrowsers.
Qed.

Lemma Keeps_launchForever this fuel :
  Keeps part (launchForever env this fuel).
Proof.
  induction fuel as [|fuel IH]; [done|]. cbn [launchForever].
  apply Keeps_bind; [apply Keeps_launch|intros browser].
  apply Keeps_bind; [|by intros _].
  intros w. apply Hbrowsers.
Qed.

Lemma Keeps_closeEach pool : Keeps part (closeEach pool).
Proof. intros w. unfold after. rewrite closeEach_run. apply Hrunning. Qed.

Lemma Keeps_crawlMultipleUrls fuel this urls sessionId :
  Keeps part (crawlMultipleUrls env fuel this urls sessionId).
Proof.
  unfold crawlMultipleUrls.
  apply Keeps_bind.
  { unfold initBrowsers. destruct (turnsBelow (concurrency this));
      [apply Keeps_launchAll|apply Keeps_launchForever]. }
  intros _. apply Keeps_tryFinally.
  - apply Keeps_Tame; [intros; by rewrite Htabs, Hstreams|apply Tame_body].
  - unfold closeAll. apply Keeps_bind; [done|intros pool].
    apply Keeps_closeEach.
Qed.

End Pool.

Lemma Keeps_activeCrawls_batch env fuel this urls sessionId :
  Keeps activeCrawls (crawlMultipleUrls env fuel this urls sessionId).
Proof. by apply Keeps_crawlMultipleUrls. Qed.

Lemma Keeps_files_batch env fuel this urls sessionId :
  Keeps files (crawlMultipleUrls env fuel this urls sessionId).
Proof. by apply Keeps_crawlMultipleUrls. Qed.

Lemma Keeps_ended_batch env fuel this urls sessionId :
  Keeps ended (crawlMultipleUrls env fuel this urls sessionId).
Proof. by apply Keeps_crawlMultipleUrls. Qed.

(** The world a batch leaves when its pool comes up and every crawl
    settles: the pool is provisioned, the tabs are opened, the streams
    have received the progress events, and the pool is closed. *)
Lemma crawlMultipleUrls_world env fuel this urls sessionId budget w :
  let pool := browsers w ++ seq (length (launched w)) budget in
  turnsBelow (concurrency this) = Some budget →
  launchesSucceed env (length (launched w)) budget →
  (∀ i url, urls !! i = Some url →
     crawlOutcome env fuel this pool urls sessionId i url ≠ Pending) →
  ∃ s t results,
    crawlMultipleUrls env fuel this urls sessionId w
    = (set_running (λ up, up ∖ list_to_set pool)
         (set_tabs (λ _, t)
            (set_streams (λ _, s)
               (provisioned (poolFlag env this) budget w))),
       Normal (imap (entry urls) results))
    ∧ length results = length urls
    ∧ ∀ i url, urls !! i = Some url →
        ∃ r, results !! i = Some r
             ∧ settle (crawlOutcome env fuel this pool urls sessionId i url)
               = Some r.
Proof.
  intros pool Hbudget Hok Hfuel.
  destruct (crawlMultipleUrls_outcome env this fuel urls sessionId budget
              Hbudget w Hok Hfuel) as (results & Hout & Hlen & Hown).
  unfold outcome in Hout.
  rewrite (crawlMultipleUrls_run env this fuel urls sessionId budget Hbudget)
    in * by done.
  destruct (Tame_body env this fuel urls sessionId
              (provisioned (poolFlag env this) budget w))
    as [(s & t & Hs) _].
  unfold after in Hs. exists s, t, results.
  match type of Hs with
  | (?b ?v).1 = _ => destruct (b v) as [w2 c] eqn:Hbody
  end.
  simpl in Hs. subst w2. split; [|done].
  destruct c; simpl in Hout; try done. by injection Hout as ->.
Qed.

End FrameFacts.

(** ** The route *)

Module RouteFacts.
Import Js Dom Script Host Run RunFacts FastCrawler ControllerFacts BatchFacts.
Import CliFacts FrameFacts NumberFacts Observe.
Local Open Scope eff_scope.

Lemma bind_returns {A B} (m : Eff A) (k : A → Eff B) w w1 a :
  m w = (w1, Normal a) → bind m k w = k a w1.
Proof. intros H. unfold bind. by rewrite H. Qed.

Lemma bind_throws {A B} (m : Eff A) (k : A → Eff B) w w1 message :
  m w = (w1, Throw message) → bind m k w = (w1, Throw message).
Proof. intros H. unfold bind. by rewrite H. Qed.

Lemma tryCatch_returns {A} (body : Eff A) handler w w1 a :
  body w = (w1, Normal a) → tryCatch body handler w = (w1, Normal a).
Proof. intros H. unfold tryCatch. by rewrite H. Qed.

Lemma tryCatch_throws {A} (body : Eff A) handler w w1 message :
  body w = (w1, Throw message) →
  tryCatch body handler w = handler message w1.
Proof. intros H. unfold tryCatch. by rewrite H. Qed.

Lemma tryFinally_returns {A} (body : Eff A) final w w1 w2 a :
  body w = (w1, Normal a) → final w1 = (w2, Normal tt) →
  tryFinally body final w = (w2, Normal a).
Proof. intros H1 H2. unfold tryFinally. by rewrite H1, H2. Qed.

(** The options as the route hands them to the constructor. *)
Lemma constructor_of_route options w :
  constructor
    {| opt_concurrency :=
         Some (orDefault (opt_concurrency options) (ofNat 3));
       opt_headless :=
         Some (negb (bool_decide (opt_headless options = Some false)));
       opt_timeout :=
         Some (orDefault (opt_timeout options) (ofZ 30000)) |} w
  = (set_browsers (λ _, []) w, Normal (routeCrawler options)).
Proof.
  unfold constructor, bind, modify, ret, routeCrawler.
  cbn [opt_concurrency opt_headless opt_timeout].
  rewrite !orDefault_twice. do 3 f_equal.
  by destruct (bool_decide (opt_headless options = Some false)).
Qed.

Section Route.
Context (env : Env) (fuel : nat) (url : string) (urls : list string).
Context (options : Options) (stream now : nat).

Local Abbreviation sessionId := (pretty now).
Local Abbreviation all := (url :: urls).

(** The handler, past the registration and the constructor. *)
Lemma postCrawl_unfold w :
  Server.postCrawl env fuel all (Server.objectOptions options) stream now w
  = (tryFinally
       (tryCatch
          (results <- crawlMultipleUrls env fuel (routeCrawler options) all
                        sessionId ;;
           write stream (Complete results sessionId (elapsed env)) ;;
           mayThrow (fsThrows env) ;;
           writeFile (bulkFile sessionId)
             (BulkFile sessionId (isoNow env) (length all) results) ;;
           write stream (Saved (bulkFile sessionId)))
          (λ message, write stream (BatchError message)))
       (modify (set_activeCrawls (delete sessionId)) ;;
        modify (set_ended (λ s, {[stream]} ∪ s))) ;;
     ret Server.EventStream) (registered stream now w).
Proof.
  unfold Server.postCrawl.
  erewrite bind_returns by reflexivity.
  erewrite bind_returns by apply constructor_of_route.
  reflexivity.
Qed.

Local Abbreviation this := (routeCrawler options).
Local Abbreviation batch := (crawlMultipleUrls env fuel this all sessionId).
Local Abbreviation request :=
  (Server.postCrawl env fuel all (Server.objectOptions options) stream now).

(** With [options: null] the handler throws where it reads the budget:
    the session is stored, nothing else has happened. *)
Lemma postCrawl_null w :
  Server.postCrawl env fuel all Server.nullOptions stream now w
  = (set_activeCrawls
       <[sessionId := {| res := Some stream; startTime := now |}]> w,
     Throw "Cannot read properties of null (reading 'concurrency')").
Proof. done. Qed.

(** How the handler ends after a batch that returned its results. *)
Lemma postCrawl_after_results w w3 results :
  batch (registered stream now w) = (w3, Normal results) →
  request w
  = (set_ended (λ s, {[stream]} ∪ s)
       (set_activeCrawls (delete sessionId)
          (match fsThrows env with
           | Some message =>
               (write stream (BatchError message)
                  ((write stream (Complete results sessionId (elapsed env))
                      w3).1)).1
           | None =>
               (write stream (Saved (bulkFile sessionId))
                  ((writeFile (bulkFile sessionId)
                      (BulkFile sessionId (isoNow env) (length all) results)
                      ((write stream
                          (Complete results sessionId (elapsed env)) w3).1)).1)).1
           end)),
     Normal Server.EventStream).
Proof.
  intros Hbatch. rewrite postCrawl_unfold.
  destruct (fsThrows env) as [message|].
  - etransitivity.
    { eapply bind_returns, tryFinally_returns; [|reflexivity].
      etransitivity.
      { eapply tryCatch_throws.
        etransitivity; [eapply bind_returns, Hbatch|].
        reflexivity. }
      reflexivity. }
    reflexivity.
  - etransitivity.
    { eapply bind_returns, tryFinally_returns; [|reflexivity].
      eapply tryCatch_returns.
      etransitivity; [eapply bind_returns, Hbatch|].
      reflexivity. }
    reflexivity.
Qed.

(** How the handler ends after a batch that threw. *)
Lemma postCrawl_after_throw w w3 message :
  batch (registered stream now w) = (w3, Throw message) →
  request w
  = (set_ended (λ s, {[stream]} ∪ s)
       (set_activeCrawls (delete sessionId)
          (write stream (BatchError message) w3).1),
     Normal Server.EventStream).
Proof.
  intros Hbatch. rewrite postCrawl_unfold.
  etransitivity.
  { eapply bind_returns, tryFinally_returns; [|reflexivity].
    etransitivity; [eapply tryCatch_throws, bind_throws, Hbatch|].
    reflexivity. }
  reflexivity.
Qed.

Lemma postCrawl_pending w w3 :
  batch (registered stream now w) = (w3, Pending) →
  outcome request w = Pending.
Proof.
  intros Hbatch. unfold outcome. rewrite postCrawl_unfold.
  unfold bind at 1, tryFinally, tryCatch, bind at 1. by rewrite Hbatch.
Qed.

End Route.
End RouteFacts.

Module Route.
Import Js Dom Script Host Run RunFacts FastCrawler ControllerFacts BatchFacts.
Import CliFacts FrameFacts Observe RouteFacts.
Local Open Scope eff_scope.

(** X10.  A request with URLs whose [options] is an object, or absent,
    and that comes to an end answers with the event stream, never with an
    exception: its session is taken out of [activeCrawls], its response is
    ended, and it leaves the files as they were or with one more, the bulk
    file of its session for all its URLs.  With [options: null] the
    handler throws where it reads the budget, before its [try] statement:
    the session stays in [activeCrawls], the response is not ended, and
    nothing is launched or written. *)
Theorem request_always_ends (env : Env) (fuel : nat) (url : string)
  (urls : list string) (given : Server.OptionsGiven) (stream now : nat)
  (w : World) :
  let request := Server.postCrawl env fuel (url :: urls) given stream now in
  (∀ options, given = Server.objectOptions options →
     outcome request w ≠ Pending →
     outcome request w = Normal Server.EventStream
     ∧ activeCrawls (after request w) = delete (pretty now) (activeCrawls w)
     ∧ stream ∈ ended (after request w)
     ∧ (files (after request w) = files w
        ∨ ∃ results,
            files (after request w)
            = <[bulkFile (pretty now) :=
                  BulkFile (pretty now) (isoNow env) (S (length urls))
                    results]>
                (files w)))
  ∧ (given = Server.nullOptions →
     outcome request w
     = Throw "Cannot read properties of null (reading 'concurrency')"
     ∧ activeCrawls (after request w) !! pretty now
       = Some {| res := Some stream; startTime := now |}
     ∧ ended (after request w) = ended w
     ∧ streams (after request w) = streams w
     ∧ launched (after request w) = launched w
     ∧ files (after request w) = files w).
Proof.
  intros request. subst request. split.
  - intros options -> Hend.
    pose proof (Keeps_activeCrawls_batch env fuel (routeCrawler options)
                  (url :: urls) (pretty now) (registered stream now w))
      as Hreg.
    pose proof (Keeps_files_batch env fuel (routeCrawler options)
                  (url :: urls) (pretty now) (registered stream now w))
      as Hfiles.
    unfold after in Hreg, Hfiles.
    destruct (crawlMultipleUrls env fuel (routeCrawler options) (url :: urls)
                (pretty now) (registered stream now w))
      as [w3 [results|message|]] eqn:Hbatch; simpl in Hreg, Hfiles.
    + unfold outcome, after.
      rewrite (postCrawl_after_results _ _ _ _ _ _ _ _ _ _ Hbatch).
      cbn [fst snd]. repeat apply conj; try done.
      * destruct (fsThrows env); simpl; rewrite Hreg; simpl;
          apply delete_insert_eq.
      * simpl. set_solver.
      * destruct (fsThrows env); simpl; rewrite Hfiles; simpl; eauto.
    + unfold outcome, after.
      rewrite (postCrawl_after_throw _ _ _ _ _ _ _ _ _ _ Hbatch).
      cbn [fst snd]. repeat apply conj; try done.
      * simpl. rewrite Hreg. simpl. apply delete_insert_eq.
      * simpl. set_solver.
      * left. simpl. by rewrite Hfiles.
    + by rewrite (postCrawl_pending _ _ _ _ _ _ _ _ _ Hbatch) in Hend.
  - intros ->. unfold outcome, after. rewrite postCrawl_null. cbn [fst snd].
    repeat apply conj; try done. simpl. apply lookup_insert_eq.
Qed.

(** X11.  When the pool comes up and every crawl settles, the request
    writes, after the progress events, the results of the batch, one
    entry per URL, each the outcome of its own crawl.  When the file can
    be written the same results are saved under
    [output/bulk-crawl-<sessionId>.json] and the name of the file is the
    last message; when the write throws, the last message is that error,
    after the results, and no file is left.  Either way no browser of
    the pool is still running. *)
Theorem request_reports_and_saves (env : Env) (fuel : nat) (url : string)
  (urls : list string) (options : Options) (stream now : nat) (w : World)
  (budget : nat) :
  let this := routeCrawler options in
  let first := length (launched w) in
  let pool := seq first budget in
  let all := url :: urls in
  let request := Server.postCrawl env fuel all (Server.objectOptions options)
                   stream now in
  turnsBelow (concurrency this) = Some budget →
  launchesSucceed env first budget →
  (∀ i u, all !! i = Some u →
     crawlOutcome env fuel this pool all (pretty now) i u ≠ Pending) →
  ∃ earlier results,
    length results = length all
    ∧ (∀ i u, all !! i = Some u →
         ∃ r, settle (crawlOutcome env fuel this pool all (pretty now) i u)
                = Some r
              ∧ results !! i = Some (entry all i r))
    ∧ (fsThrows env = None →
       chunksOf stream (after request w)
       = earlier ++ [Complete results (pretty now) (elapsed env);
                     Saved (bulkFile (pretty now))]
       ∧ files (after request w)
         = <[bulkFile (pretty now) :=
               BulkFile (pretty now) (isoNow env) (length all) results]>
             (files w))
    ∧ (∀ message, fsThrows env = Some message →
       chunksOf stream (after request w)
       = earlier ++ [Complete results (pretty now) (elapsed env);
                     BatchError message]
       ∧ files (after request w) = files w)
    ∧ ∀ browser, browser ∈ pool → browser ∉ running (after request w).
Proof.
  intros this first pool all request Hbudget Hok Hfuel. subst request all.
  destruct (crawlMultipleUrls_world env fuel this (url :: urls) (pretty now)
              budget (registered stream now w))
    as (s & t & results & Hbatch & Hlen & Hown); [done|done|done|].
  exists (default [] (s !! stream)), (imap (entry (url :: urls)) results).
  unfold after.
  rewrite (postCrawl_after_results _ _ _ _ _ _ _ _ _ _ Hbatch).
  cbn [fst]. repeat apply conj.
  - by rewrite length_imap.
  - intros i u Hu. destruct (Hown i u Hu) as (r & Hr & Hset).
    exists r. split; [done|]. by rewrite list_lookup_imap, Hr.
  - intros ->. unfold chunksOf. simpl.
    rewrite !lookup_insert_eq. simpl. by rewrite <- app_assoc.
  - intros message ->. unfold chunksOf. simpl.
    rewrite !lookup_insert_eq. simpl. by rewrite <- app_assoc.
  - intros browser Hin. destruct (fsThrows env); simpl; set_solver.
Qed.

(** X12.  When a launch of the pool throws, the request still answers
    with the event stream: the one message it writes is the error, no
    results reach the client, no file is written, and the browsers
    launched before the failure are still running. *)
Theorem request_reports_failed_launch (env : Env) (fuel : nat) (url : string)
  (urls : list string) (options : Options) (stream now : nat) (w : World)
  (ready budget : nat) (message : string) :
  let this := routeCrawler options in
  let first := length (launched w) in
  let request := Server.postCrawl env fuel (url :: urls)
                   (Server.objectOptions options) stream now in
  turnsBelow (concurrency this) = Some budget →
  ready < budget →
  launchesSucceed env first ready →
  launchThrows env (first + ready) = Some message →
  outcome request w = Normal Server.EventStream
  ∧ chunksOf stream (after request w)
    = chunksOf stream w ++ [BatchError message]
  ∧ files (after request w) = files w
  ∧ ∀ k, k < ready → first + k ∈ running (after request w).
Proof.
  intros this first request Hbudget Hlt Hok Hbad. subst request.
  assert (crawlMultipleUrls env fuel this (url :: urls) (pretty now)
            (registered stream now w)
          = (set_launched (λ calls, calls ++ [poolFlag env this])
               (provisioned (poolFlag env this) ready
                  (registered stream now w)),
             Throw message)) as Hbatch.
  { unfold crawlMultipleUrls, initBrowsers. rewrite Hbudget.
    unfold bind at 1.
    by rewrite (launchAll_fails env this _ ready message). }
  unfold outcome, after.
  rewrite (postCrawl_after_throw _ _ _ _ _ _ _ _ _ _ Hbatch).
  cbn [fst snd]. repeat apply conj; try done.
  - unfold chunksOf. simpl. by rewrite lookup_insert_eq.
  - intros k Hk. simpl. fold first.
    apply elem_of_union. left. apply elem_of_list_to_set, elem_of_seq. lia.
Qed.

End Route.

(** ** The progress events *)

Module ReportFacts.
Import Js Dom Script Host Run RunFacts FastCrawler ControllerFacts BatchFacts.
Import CliFacts FrameFacts Observe RouteFacts.
Local Open Scope eff_scope.

Lemma report_app stream a b w :
  report stream (a ++ b) w = report stream b (report stream a w).
Proof. unfold report. by rewrite foldl_app. Qed.

Lemma report_snoc stream a data w :
  report stream (a ++ [data]) w
  = after (write stream (Progress data)) (report stream a w).
Proof. by rewrite report_app. Qed.

Lemma activeCrawls_report stream events w :
  activeCrawls (report stream events w) = activeCrawls w.
Proof.
  induction events as [|data events IH] using rev_ind; [done|].
  by rewrite report_snoc.
Qed.

Lemma browsers_report stream events w :
  browsers (report stream events w) = browsers w.
Proof.
  induction events as [|data events IH] using rev_ind; [done|].
  by rewrite report_snoc.
Qed.

Lemma chunksOf_report stream events w :
  chunksOf stream (report stream events w)
  = chunksOf stream w ++ map Progress events.
Proof.
  induction events as [|data events IH] using rev_ind.
  - by rewrite app_nil_r.
  - rewrite report_snoc, map_app, app_assoc, <- IH.
    unfold chunksOf. simpl. by rewrite lookup_insert_eq.
Qed.

Lemma streams_report_other stream other events w :
  other ≠ stream →
  streams (report stream events w) !! other = streams w !! other.
Proof.
  intros Hne. induction events as [|data events IH] using rev_ind; [done|].
  rewrite report_snoc. simpl. by rewrite lookup_insert_ne.
Qed.

Lemma listening_report sessionId stream events w :
  listening sessionId stream w →
  listening sessionId stream (report stream events w).
Proof. unfold listening. by rewrite activeCrawls_report. Qed.

Lemma listening_opened sessionId stream browser url w :
  listening sessionId stream w →
  listening sessionId stream (opened browser url w).
Proof. done. Qed.

Lemma emit_listening sessionId stream data w :
  listening sessionId stream w →
  emitProgress sessionId data w = (report stream [data] w, Normal tt).
Proof.
  intros [since H]. unfold emitProgress, bind, gets. simpl. by rewrite H.
Qed.

Section Visit.
Context (env : Env) (sessionId url : string) (urlIndex totalUrls : nat).
Context (site : Site) (stream : nat).

Local Abbreviation about := (concerns url urlIndex totalUrls).

(** The loop reports the pages it scrapes, and nothing else. *)
Lemma cycle_reports fuel acc page w :
  listening sessionId stream w →
  ∃ events,
    after (cycle sessionId url urlIndex totalUrls site fuel acc page) w
    = report stream events w
    ∧ Forall (λ data, inProgress data ∧ about data) events.
Proof.
  revert acc page w. induction fuel as [|fuel IH]; intros acc page w Hw.
  - by exists [].
  - cbn [cycle]. destruct (rowsAppear _); cbn [negb]; [|by exists []].
    destruct (scriptThrows _); [by exists []|].
    unfold after. cbn [mayThrow].
    erewrite (bind_returns (ret tt)) by reflexivity.
    erewrite bind_returns by (by apply emit_listening).
    set (data := event _ _ _ _ _ _).
    assert (inProgress data ∧ about data) as Hdata by (by split; [right|]).
    destruct (statusThrows _); [exists [data]; by repeat constructor|].
    cbn [mayThrow]. erewrite (bind_returns (ret tt)) by reflexivity.
    destruct (lastPage _); [exists [data]; by repeat constructor|].
    destruct (clickThrows _); [exists [data]; by repeat constructor|].
    destruct (IH (acc ++ extractPage (document (views site page))) (S page)
                (report stream [data] w)) as (events & Hev & Hall);
      [by apply listening_report|].
    exists (data :: events). unfold after in Hev. rewrite Hev.
    split; [done|by constructor].
Qed.

Local Abbreviation start :=
  (event url urlIndex totalUrls starting "Navigating to page..." None).
Local Abbreviation scrape :=
  (FastCrawler.scrape env sessionId url urlIndex totalUrls site).

(** What the [try] block reports: the start, events of progress, and at
    its return one last event, [completed] for a scraped result and
    [error] for the missing table. *)
Lemma scrape_reports fuel w :
  listening sessionId stream w →
  ∃ mid,
    Forall (λ data, inProgress data ∧ about data) mid
    ∧ match scrape fuel w with
      | (w', Normal result) =>
          ∃ last,
            w' = report stream (start :: mid ++ [last]) w
            ∧ about last
            ∧ ((ev_status last = completed ∧ cd_error result = None)
               ∨ (ev_status last = error ∧ is_Some (cd_error result)))
      | (w', Throw _) => w' = report stream (start :: mid) w
      | (_, Pending) => True
      end.
Proof.
  intros Hw. unfold FastCrawler.scrape.
  erewrite bind_returns by (by apply emit_listening).
  destruct (gotoThrows site) as [message|]; [by exists []|].
  cbn [mayThrow]. erewrite (bind_returns (ret tt)) by reflexivity.
  erewrite bind_returns
    by (by apply emit_listening, listening_report).
  set (loadingEv := event _ _ _ loading _ _).
  assert (inProgress loadingEv ∧ about loadingEv) as Hloading
    by (by split; [left|]).
  destruct (scrollThrows site) as [message|].
  { exists [loadingEv]. split; [by repeat constructor|]. done. }
  cbn [mayThrow]. erewrite (bind_returns (ret tt)) by reflexivity.
  destruct (tableRoot site); cbn [negb].
  2:{ erewrite bind_returns
        by (by apply emit_listening; do 2 apply listening_report).
      exists [loadingEv]. split; [by repeat constructor|].
      eexists. split; [reflexivity|]. split; [done|]. right. by eauto. }
  destruct (filtersThrow site) as [message|].
  { exists [loadingEv]. split; [by repeat constructor|]. done. }
  cbn [mayThrow]. erewrite (bind_returns (ret tt)) by reflexivity.
  erewrite bind_returns
    by (by apply emit_listening; do 2 apply listening_report).
  set (extractingEv := event _ _ _ scraping _ _).
  assert (inProgress extractingEv ∧ about extractingEv) as Hextracting
    by (by split; [right|]).
  set (w3 := report stream [extractingEv] _).
  assert (listening sessionId stream w3) as Hw3
    by (by do 3 apply listening_report).
  destruct (cycle_reports fuel [] 1 w3 Hw3) as (events & Hafter & Hall).
  unfold after in Hafter. unfold bind at 1.
  destruct (cycle _ _ _ _ _ _ _ _ w3) as [w4 [[all page]| |]];
    simpl in Hafter; subst w4.
  - erewrite bind_returns
      by (by apply emit_listening, listening_report).
    exists (loadingEv :: extractingEv :: events).
    split; [by repeat constructor|].
    eexists. split.
    { subst w3. rewrite <- !report_app. reflexivity. }
    split; [done|]. left. by split.
  - exists (loadingEv :: extractingEv :: events).
    split; [by repeat constructor|].
    subst w3. by rewrite <- !report_app.
  - by exists [].
Qed.

(** The script that reads the next control of the first page throws:
    what the [try] block has reported by then. *)
Lemma scrape_status_throws fuel message w :
  listening sessionId stream w →
  gotoThrows site = None → scrollThrows site = None →
  tableRoot site = true → filtersThrow site = None →
  rowsAppear (views site 1) = true →
  scriptThrows (views site 1) = None →
  statusThrows (views site 1) = Some message →
  scrape (S fuel) w
  = (report stream
       [start;
        event url urlIndex totalUrls loading "Waiting for content..." None;
        event url urlIndex totalUrls scraping "Extracting data..." None;
        event url urlIndex totalUrls scraping
          ("Scraped page 1 (" +:+ pretty (length (pageRows site 1))
           +:+ " records)") None] w,
     Throw message).
Proof.
  intros Hw Hgoto Hscroll Hroot Hfilters Hrows Hscript Hstatus.
  unfold FastCrawler.scrape.
  erewrite bind_returns by (by apply emit_listening).
  rewrite Hgoto. cbn [mayThrow].
  erewrite (bind_returns (ret tt)) by reflexivity.
  erewrite bind_returns by (by apply emit_listening, listening_report).
  rewrite Hscroll. cbn [mayThrow].
  erewrite (bind_returns (ret tt)) by reflexivity.
  rewrite Hroot. cbn [negb]. rewrite Hfilters. cbn [mayThrow].
  erewrite (bind_returns (ret tt)) by reflexivity.
  erewrite bind_returns
    by (by apply emit_listening; do 2 apply listening_report).
  cbn [cycle]. rewrite Hrows. cbn [negb]. rewrite Hscript. cbn [mayThrow].
  erewrite bind_throws; [reflexivity|].
  erewrite (bind_returns (ret tt)) by reflexivity.
  erewrite bind_returns
    by (by apply emit_listening; do 3 apply listening_report).
  rewrite Hstatus. cbn [mayThrow].
  erewrite bind_throws by reflexivity.
  by rewrite <- !report_app.
Qed.

End Visit.

Lemma map_Progress_inj (a b : list ProgressEvent) :
  map Progress a = map Progress b → a = b.
Proof.
  revert b. induction a as [|x a IH]; intros [|y b]; try done.
  intros [= -> Hab]. by rewrite (IH b Hab).
Qed.

End ReportFacts.

Module Progress.
Import Js Dom Script Host Run RunFacts FastCrawler ControllerFacts BatchFacts.
Import CliFacts FrameFacts Observe RouteFacts ReportFacts.
Local Open Scope eff_scope.

(** The events of a crawl that got its tab, in their order. *)
Lemma crawl_progress_shape (env : Env) (fuel : nat) (this : Crawler)
  (url sessionId : string) (urlIndex totalUrls : nat) (stream : nat)
  (w : World) :
  let site := visit env urlIndex url in
  let run := crawlPropertyGuru env fuel this url sessionId urlIndex
               totalUrls in
  listening sessionId stream w →
  is_Some (browserFor (browsers w) urlIndex) →
  newPageThrows site = None →
  outcome run w ≠ Pending →
  ∃ mid last,
    chunksOf stream (after run w)
    = chunksOf stream w
        ++ map Progress
             (event url urlIndex totalUrls starting "Navigating to page..."
                None :: mid ++ [last])
    ∧ Forall (λ data, inProgress data ∧ concerns url urlIndex totalUrls data)
        mid
    ∧ concerns url urlIndex totalUrls last
    ∧ (ev_status last = completed ∨ ev_status last = error)
    ∧ (∀ result, outcome run w = Normal result →
         (ev_status last = completed ↔ cd_error result = None))
    ∧ ∀ other, other ≠ stream →
        streams (after run w) !! other = streams w !! other.
Proof.
  intros site run Hw [browser Hb] Hnew. subst run.
  unfold outcome, after, crawlPropertyGuru.
  erewrite bind_returns by reflexivity. rewrite Hb. fold site.
  erewrite (bind_returns (newPage site browser url) _ w
              (opened browser url w) tt)
    by (unfold newPage, bind; by rewrite Hnew).
  change (chunksOf stream w) with (chunksOf stream (opened browser url w)).
  change (streams w) with (streams (opened browser url w)).
  apply (listening_opened _ _ browser url) in Hw.
  revert Hw. generalize (opened browser url w). clear w Hb. intros w Hw.
  destruct (scrape_reports env sessionId url urlIndex totalUrls site stream
              fuel w Hw) as (mid & Hmid & Hrun).
  unfold tryFinally, tryCatch.
  destruct (scrape _ _ _ _ _ _ _ w) as [w' [result|message|]].
  - destruct Hrun as (last & -> & Hlast & Hstatus). intros Hend.
    exists mid, last.
    assert (ev_status last = completed ∨ ev_status last = error) as Hterm
      by (destruct Hstatus as [[? _]|[? _]]; auto).
    assert (∀ c : Completion CrawlData,
              ∀ res, c = Normal res → c = Normal result ∨ (∃ m, c = Throw m) →
              (ev_status last = completed ↔ cd_error res = None)) as Hiff.
    { intros c res -> [[= ->]|[m [=]]].
      destruct Hstatus as [[-> ->]|[-> [? ->]]]; done. }
    split; [|split; [exact Hmid|split; [exact Hlast|split; [exact Hterm|]]]].
    + destruct (closeThrows site); apply chunksOf_report.
    + split.
      * intros res Hres. apply (Hiff _ res Hres).
        destruct (closeThrows site); simpl; eauto.
      * intros other Hne.
        destruct (closeThrows site); by apply streams_report_other.
  - subst w'. unfold failed.
    erewrite bind_returns
      by (by apply emit_listening, listening_report).
    set (errorEv := event _ _ _ error _ _). intros Hend.
    exists mid, errorEv.
    rewrite <- report_app.
    split; [|split; [exact Hmid|split; [done|split; [by right|]]]].
    + destruct (closeThrows site); apply chunksOf_report.
    + split.
      * intros res. destruct (closeThrows site); simpl; [done|].
        intros [= <-]. done.
      * intros other Hne.
        destruct (closeThrows site); by apply streams_report_other.
  - done.
Qed.

(** The events of a crawl whose script that reads the next control of
    the first page throws: the rows of the page are reported before the
    error is. *)
Lemma crawl_status_throws_events (env : Env) (fuel : nat) (this : Crawler)
  (url sessionId : string) (urlIndex totalUrls : nat) (stream : nat)
  (w : World) (message : string) :
  let site := visit env urlIndex url in
  let run := crawlPropertyGuru env (S fuel) this url sessionId urlIndex
               totalUrls in
  listening sessionId stream w →
  is_Some (browserFor (browsers w) urlIndex) →
  newPageThrows site = None →
  gotoThrows site = None → scrollThrows site = None →
  tableRoot site = true → filtersThrow site = None →
  rowsAppear (views site 1) = true →
  scriptThrows (views site 1) = None →
  statusThrows (views site 1) = Some message →
  chunksOf stream (after run w)
  = chunksOf stream w
      ++ map Progress
           [event url urlIndex totalUrls starting "Navigating to page..."
              None;
            event url urlIndex totalUrls loading "Waiting for content..."
              None;
            event url urlIndex totalUrls scraping "Extracting data..." None;
            event url urlIndex totalUrls scraping
              ("Scraped page 1 (" +:+ pretty (length (pageRows site 1))
               +:+ " records)") None;
            event url urlIndex totalUrls error message (Some message)].
Proof.
  intros site run Hw [browser Hb] Hnew Hgoto Hscroll Hroot Hfilters Hrows
    Hscript Hstatus.
  subst run. unfold after, crawlPropertyGuru.
  erewrite bind_returns by reflexivity. rewrite Hb. fold site.
  erewrite (bind_returns (newPage site browser url) _ w
              (opened browser url w) tt)
    by (unfold newPage, bind; by rewrite Hnew).
  change (chunksOf stream w) with (chunksOf stream (opened browser url w)).
  apply (listening_opened _ _ browser url) in Hw.
  revert Hw. generalize (opened browser url w). clear w Hb. intros w Hw.
  unfold tryFinally, tryCatch.
  rewrite (scrape_status_throws env sessionId url urlIndex totalUrls site
             stream fuel message w) by done.
  unfold failed.
  erewrite bind_returns by (by apply emit_listening, listening_report).
  rewrite <- report_app.
  destruct (closeThrows site); apply chunksOf_report.
Qed.

(** X4.  The events a crawl sends to a listening session: first
    [starting], then events with the status [loading] or [scraping], and
    last a single [completed] or [error]; all carry the URL, the index
    and the total of this crawl.  The last one is [completed] exactly
    when the result has no [error].  No other stream is written to.  The
    rows of a page are reported before the script that reads its next
    control runs: when that script throws on the first page, the events
    after [starting] are [loading], [scraping] for the extraction,
    [scraping] for the rows of page 1, and [error] with the message
    thrown. *)
Theorem progress_of_a_crawl (env : Env) (fuel : nat) (this : Crawler)
  (url sessionId : string) (urlIndex totalUrls : nat) (stream : nat)
  (w : World) :
  let site := visit env urlIndex url in
  let run := crawlPropertyGuru env fuel this url sessionId urlIndex
               totalUrls in
  listening sessionId stream w →
  is_Some (browserFor (browsers w) urlIndex) →
  newPageThrows site = None →
  outcome run w ≠ Pending →
  ∃ mid last,
    chunksOf stream (after run w)
    = chunksOf stream w
        ++ map Progress
             (event url urlIndex totalUrls starting "Navigating to page..."
                None :: mid ++ [last])
    ∧ Forall (λ data, inProgress data ∧ concerns url urlIndex totalUrls data)
        mid
    ∧ concerns url urlIndex totalUrls last
    ∧ (ev_status last = completed ∨ ev_status last = error)
    ∧ (∀ result, outcome run w = Normal result →
         (ev_status last = completed ↔ cd_error result = None))
    ∧ (∀ other, other ≠ stream →
         streams (after run w) !! other = streams w !! other)
    ∧ (∀ message,
         gotoThrows site = None → scrollThrows site = None →
         tableRoot site = true → filtersThrow site = None →
         rowsAppear (views site 1) = true →
         scriptThrows (views site 1) = None →
         statusThrows (views site 1) = Some message →
         mid ++ [last]
         = [event url urlIndex totalUrls loading "Waiting for content..."
              None;
            event url urlIndex totalUrls scraping "Extracting data..." None;
            event url urlIndex totalUrls scraping
              ("Scraped page 1 (" +:+ pretty (length (pageRows site 1))
               +:+ " records)") None;
            event url urlIndex totalUrls error message (Some message)]).
Proof.
  intros site run Hw Hb Hnew Hend.
  destruct (crawl_progress_shape env fuel this url sessionId urlIndex
              totalUrls stream w Hw Hb Hnew Hend)
    as (mid & last & H1 & H2 & H3 & H4 & H5 & H6).
  exists mid, last.
  split; [exact H1|]. split; [exact H2|]. split; [exact H3|].
  split; [exact H4|]. split; [exact H5|]. split; [exact H6|].
  intros message Hgoto Hscroll Hroot Hfilters Hrows Hscript Hstatus.
  destruct fuel as [|fuel].
  { exfalso. apply Hend. subst run. destruct Hb as [browser Hb].
    rewrite (crawl_with_browser _ _ _ _ _ _ _ _ browser Hb).
    rewrite scrape_outcome. fold site.
    by rewrite Hnew, Hgoto, Hscroll, Hroot, Hfilters. }
  pose proof (crawl_status_throws_events env fuel this url sessionId urlIndex
                totalUrls stream w message Hw Hb Hnew Hgoto Hscroll Hroot
                Hfilters Hrows Hscript Hstatus) as Hdirect.
  cbv zeta in Hdirect. fold site in Hdirect.
  subst run. rewrite H1 in Hdirect.
  apply app_inv_head, map_Progress_inj in Hdirect.
  by injection Hdirect as ->.
Qed.

(** X5.  A crawl that has no browser, or whose tab cannot be opened,
    is rejected without a word: it emits no event, not even an [error],
    and changes nothing. *)
Theorem early_rejection_is_silent (env : Env) (fuel : nat) (this : Crawler)
  (url sessionId : string) (urlIndex totalUrls : nat) (w : World) :
  let site := visit env urlIndex url in
  let run := crawlPropertyGuru env fuel this url sessionId urlIndex
               totalUrls in
  browserFor (browsers w) urlIndex = None ∨ is_Some (newPageThrows site) →
  after run w = w ∧ ∃ message, outcome run w = Throw message.
Proof.
  intros site run Hearly. subst run.
  unfold outcome, after, crawlPropertyGuru.
  erewrite bind_returns by reflexivity.
  destruct (browserFor (browsers w) urlIndex) as [browser|];
    [|by eauto].
  destruct Hearly as [|[message Hnew]]; [done|]. fold site.
  unfold newPage, bind. rewrite Hnew. by eauto.
Qed.

End Progress.

(** ** More on the coordinator *)

Module CoordinatorMore.
Import Js Dom Script Host Run RunFacts FastCrawler ControllerFacts BatchFacts.
Import CliFacts FrameFacts Observe RouteFacts ReportFacts.
Local Open Scope eff_scope.

Lemma pool_of_fresh_crawler first budget index :
  0 < budget →
  browserFor (seq first budget) index = Some (first + index mod budget).
Proof.
  intros Hpos. unfold browserFor. rewrite length_seq.
  destruct budget as [|budget]; [lia|].
  apply lookup_seq_lt. apply Nat.mod_upper_bound. lia.
Qed.

(** X7.  A crawl whose promise is rejected, because there is no browser
    in the pool, because the tab cannot be opened or because it cannot be
    closed, is the one kind of entry with [success: false]: it has the
    URL as given, no data, and the message as its [error].  The batch
    still returns one entry per URL. *)
Theorem rejected_crawl_is_marked_failed (env : Env) (fuel : nat)
  (this : Crawler) (urls : list string) (sessionId : string) (w : World)
  (failing budget : nat) (url message : string) :
  let first := length (launched w) in
  let pool := seq first budget in
  let site := visit env failing (trim url) in
  turnsBelow (concurrency this) = Some budget →
  browsers w = [] →
  launchesSucceed env first budget →
  urls !! failing = Some url →
  (∀ i other, urls !! i = Some other →
     crawlOutcome env fuel this pool urls sessionId i other ≠ Pending) →
  (budget = 0 ∧ message = "Browser not available")
  ∨ (0 < budget
     ∧ (newPageThrows site = Some message
        ∨ (newPageThrows site = None ∧ closeThrows site = Some message))) →
  ∃ entries,
    outcome (crawlMultipleUrls env fuel this urls sessionId) w
      = Normal entries
    ∧ length entries = length urls
    ∧ entries !! failing
      = Some {| be_url := Some url; be_success := false;
                be_data := None; be_error := Some message |}.
Proof.
  intros first pool site Hbudget Hfresh Hok Hurl Hfuel Hrejects.
  destruct (crawlMultipleUrls_outcome env this fuel urls sessionId budget
              Hbudget w Hok) as (results & Hout & Hlen & Hown).
  { by rewrite Hfresh. }
  rewrite Hfresh in Hown. simpl in Hown. fold first pool in Hown.
  exists (imap (entry urls) results). split; [done|].
  split; [by rewrite length_imap|].
  destruct (Hown failing url Hurl) as (r & Hr & Hset).
  rewrite list_lookup_imap, Hr. simpl. f_equal.
  pose proof (Hfuel failing url Hurl) as Hend.
  unfold crawlOutcome in Hset, Hend.
  destruct Hrejects as [[-> ->]|[Hpos Hrejects]].
  { rewrite crawl_no_browser in Hset by done. injection Hset as <-.
    unfold entry. by rewrite Hurl. }
  rewrite (crawl_with_browser _ _ _ _ _ _ _ _ (first + failing mod budget))
    in Hset, Hend by (by apply pool_of_fresh_crawler).
  fold site in Hset, Hend.
  destruct Hrejects as [Hnew|[Hnew Hclose]].
  - rewrite Hnew in Hset. injection Hset as <-. unfold entry. by rewrite Hurl.
  - rewrite Hnew, Hclose in Hset, Hend.
    destruct (outcome _ _) as [?| |] in Hset, Hend; try done;
      injection Hset as <-; unfold entry; by rewrite Hurl.
Qed.

(** X6.  A crawl opens its tab and writes to response streams, and
    touches nothing else: the session registry, the ended responses, the
    launches, the running browsers, the pool and the files are as it
    found them. *)
Theorem crawl_touches_only_streams (env : Env) (fuel : nat) (this : Crawler)
  (url sessionId : string) (urlIndex totalUrls : nat) (w : World) :
  let final := after (crawlPropertyGuru env fuel this url sessionId urlIndex
                        totalUrls) w in
  activeCrawls final = activeCrawls w
  ∧ ended final = ended w
  ∧ launched final = launched w
  ∧ running final = running w
  ∧ browsers final = browsers w
  ∧ files final = files w.
Proof.
  destruct (Tame_crawlPropertyGuru env fuel this url sessionId urlIndex
              totalUrls w) as [(s & t & Hs) _].
  cbv zeta. by rewrite Hs.
Qed.

Lemma launchAll_step env this count w :
  launchThrows env (length (launched w)) = None →
  launchAll env this (S count) w
  = launchAll env this count
      (set_browsers (λ pool, pool ++ [length (launched w)])
         (set_running (λ up, {[length (launched w)]} ∪ up)
            (set_launched (λ calls, calls ++ [poolFlag env this]) w))).
Proof.
  intros Hl. cbn [launchAll].
  erewrite bind_returns by (by apply launch_succeeds).
  by erewrite (bind_returns (modify _)) by reflexivity.
Qed.

Lemma launchAll_stops env this count message w :
  launchThrows env (length (launched w)) = Some message →
  launchAll env this (S count) w
  = (set_launched (λ calls, calls ++ [poolFlag env this]) w, Throw message).
Proof.
  intros Hl. cbn [launchAll].
  by erewrite bind_throws by (by apply launch_fails).
Qed.

Lemma launchAll_unseen env this count registry s w :
  launchAll env this count
    (set_activeCrawls (λ _, registry) (set_streams (λ _, s) w))
  = (set_activeCrawls (λ _, registry)
       (set_streams (λ _, s) (after (launchAll env this count) w)),
     outcome (launchAll env this count) w).
Proof.
  revert w. induction count as [|count IH]; intros w; [done|].
  unfold outcome, after.
  destruct (launchThrows env (length (launched w))) as [message|] eqn:Hl.
  - by rewrite !(launchAll_stops _ _ _ message).
  - rewrite !launchAll_step by done.
    exact (IH (set_browsers (λ pool, pool ++ [length (launched w)])
                 (set_running (λ up, {[length (launched w)]} ∪ up)
                    (set_launched
                       (λ calls, calls ++ [poolFlag env this]) w)))).
Qed.

Lemma launchForever_step env this fuel w :
  launchThrows env (length (launched w)) = None →
  launchForever env this (S fuel) w
  = launchForever env this fuel
      (set_browsers (λ pool, pool ++ [length (launched w)])
         (set_running (λ up, {[length (launched w)]} ∪ up)
            (set_launched (λ calls, calls ++ [poolFlag env this]) w))).
Proof.
  intros Hl. cbn [launchForever].
  erewrite bind_returns by (by apply launch_succeeds).
  by erewrite (bind_returns (modify _)) by reflexivity.
Qed.

Lemma launchForever_stops env this fuel message w :
  launchThrows env (length (launched w)) = Some message →
  launchForever env this (S fuel) w
  = (set_launched (λ calls, calls ++ [poolFlag env this]) w, Throw message).
Proof.
  intros Hl. cbn [launchForever].
  by erewrite bind_throws by (by apply launch_fails).
Qed.

Lemma launchForever_unseen env this fuel registry s w :
  launchForever env this fuel
    (set_activeCrawls (λ _, registry) (set_streams (λ _, s) w))
  = (set_activeCrawls (λ _, registry)
       (set_streams (λ _, s) (after (launchForever env this fuel) w)),
     outcome (launchForever env this fuel) w).
Proof.
  revert w. induction fuel as [|fuel IH]; intros w; [done|].
  unfold outcome, after.
  destruct (launchThrows env (length (launched w))) as [message|] eqn:Hl.
  - by rewrite !(launchForever_stops _ _ _ message).
  - rewrite !launchForever_step by done.
    exact (IH (set_browsers (λ pool, pool ++ [length (launched w)])
                 (set_running (λ up, {[length (launched w)]} ∪ up)
                    (set_launched
                       (λ calls, calls ++ [poolFlag env this]) w)))).
Qed.

Lemma initBrowsers_unseen env fuel this registry s w :
  initBrowsers env fuel this
    (set_activeCrawls (λ _, registry) (set_streams (λ _, s) w))
  = (set_activeCrawls (λ _, registry)
       (set_streams (λ _, s) (after (initBrowsers env fuel this) w)),
     outcome (initBrowsers env fuel this) w).
Proof.
  unfold initBrowsers. destruct (turnsBelow (concurrency this));
    [apply launchAll_unseen|apply launchForever_unseen].
Qed.

Lemma outcome_finally_closeAll {A} (body : Eff A) v :
  outcome (tryFinally body closeAll) v = outcome body v.
Proof.
  unfold outcome, tryFinally. destruct (body v) as [v2 c].
  unfold closeAll, bind, gets. rewrite closeEach_run. by destruct c.
Qed.

Lemma batch_outcome_shape env fuel this urls sessionId v :
  outcome (crawlMultipleUrls env fuel this urls sessionId) v
  = match initBrowsers env fuel this v with
    | (v1, Normal _) =>
        outcome (results <- allSettled
                   (imap (λ index url,
                            crawlPropertyGuru env fuel this (trim url)
                              sessionId index (length urls)) urls) ;;
                 ret (imap (entry urls) results)) v1
    | (_, Throw message) => Throw message
    | (_, Pending) => Pending
    end.
Proof.
  unfold crawlMultipleUrls.
  destruct (initBrowsers env fuel this v) as [v1 [[]| |]] eqn:Hl.
  - unfold outcome at 1. erewrite bind_returns by exact Hl.
    apply outcome_finally_closeAll.
  - unfold outcome. by erewrite bind_throws by exact Hl.
  - unfold outcome, bind at 1. by rewrite Hl.
Qed.

(** X8.  The results of a batch do not depend on the session registry
    or on what the streams hold: with or without a listener the outcome
    is the same. *)
Theorem batch_result_ignores_the_registry (env : Env) (fuel : nat)
  (this : Crawler) (urls : list string) (sessionId : string) (w : World)
  (registry : gmap string Session) (s : gmap nat (list Chunk)) :
  outcome (crawlMultipleUrls env fuel this urls sessionId)
    (set_activeCrawls (λ _, registry) (set_streams (λ _, s) w))
  = outcome (crawlMultipleUrls env fuel this urls sessionId) w.
Proof.
  rewrite !batch_outcome_shape, initBrowsers_unseen.
  unfold outcome at 1, after.
  destruct (initBrowsers env fuel this w) as [w1 [[]| |]];
    cbn [fst snd]; try done.
  by apply (Tame_body env this fuel urls sessionId w1).
Qed.

(** X9.  A batch whose pool comes up and that ends closes the browsers
    of [this.browsers], old and new, and no other; the array itself is
    not emptied, the new browsers are appended to it. *)
Theorem batch_closes_its_pool (env : Env) (fuel : nat) (this : Crawler)
  (urls : list string) (sessionId : string) (w : World) (budget : nat) :
  let run := crawlMultipleUrls env fuel this urls sessionId in
  let pool := browsers w ++ seq (length (launched w)) budget in
  turnsBelow (concurrency this) = Some budget →
  launchesSucceed env (length (launched w)) budget →
  outcome run w ≠ Pending →
  running (after run w) = running w ∖ list_to_set pool
  ∧ browsers (after run w) = pool.
Proof.
  intros run pool Hbudget Hok Hend. subst run.
  destruct (crawlMultipleUrls_after env this fuel urls sessionId budget
              Hbudget w Hok) as (_ & Hpool & Hrun).
  split; [|done]. rewrite (Hrun Hend), Hpool. fold pool.
  unfold pool at 2. rewrite list_to_set_app_L. set_solver.
Qed.

End CoordinatorMore.

(** ** The commands *)

Module CommandFacts.
Import Js Dom Script Host Run RunFacts ControllerFacts BatchFacts.
Import CliFacts FrameFacts Observe RouteFacts LoopFacts.
Local Open Scope eff_scope.

Lemma newPage_opens site browser url w :
  newPageThrows site = None →
  newPage site browser url w = (opened browser url w, Normal tt).
Proof. intros H. unfold newPage, bind. by rewrite H. Qed.

Lemma newPage_throws site browser url message w :
  newPageThrows site = Some message →
  newPage site browser url w = (w, Throw message).
Proof. intros H. unfold newPage, bind. by rewrite H. Qed.

Section Scrape.
Context (env : Env) (site : Site) (browser fuel : nat).
Context (url outputFile : string).

(** Every way the [try] block of [crawlPriceHistory] can go: it leaves
    the files as they are, or it returns with the result written. *)
Lemma scrape_cases w :
  ∃ w' c,
    Cli.scrape env site browser fuel url outputFile w = (w', c)
    ∧ running w' = running w
    ∧ ((files w' = files w
        ∧ (c = Normal tt →
           tableRoot site = false ∨ rowsAppear (views site 1) = false))
       ∨ (c = Normal tt
          ∧ ∃ pages,
              1 ≤ pages
              ∧ files w'
                = <[outputFile :=
                      HistoryFile
                        (scrapedResult env url (pagesFrom site 1 pages)
                           pages)]> (files w))).
Proof.
  unfold Cli.scrape.
  destruct (newPageThrows site) as [message|] eqn:Hnew.
  { erewrite bind_throws by (by apply newPage_throws).
    eexists _, _. split; [reflexivity|]. split; [done|]. by left. }
  erewrite bind_returns by (by apply newPage_opens).
  set (w0 := opened browser url w).
  destruct (gotoThrows site).
  { eexists _, _. split; [reflexivity|]. split; [done|]. by left. }
  destruct (scrollThrows site).
  { eexists _, _. split; [reflexivity|]. split; [done|]. by left. }
  cbn [mayThrow]. rewrite !(bind_returns (ret tt) _ w0 w0 tt) by reflexivity.
  destruct (tableRoot site); cbn [negb].
  2:{ eexists _, _. split; [reflexivity|]. split; [done|]. left. by auto. }
  destruct (filtersThrow site).
  { eexists _, _. split; [reflexivity|]. split; [done|]. by left. }
  cbn [mayThrow]. rewrite !(bind_returns (ret tt) _ w0 w0 tt) by reflexivity.
  destruct (rowsAppear (views site 1)); cbn [negb].
  2:{ eexists _, _. split; [reflexivity|]. split; [done|]. left. by auto. }
  pose proof (cycle_still site fuel [] 1 w0) as Hstill.
  unfold after in Hstill.
  destruct (Cli.cycle site fuel [] 1 w0) as [w' [[all page]|message|]] eqn:Hc;
    simpl in Hstill; subst w'.
  - erewrite bind_returns by exact Hc.
    apply cli_cycle_returns in Hc as (more & -> & ->).
    destruct (fsThrows env).
    { eexists _, _. split; [reflexivity|]. split; [done|]. by left. }
    eexists _, _. split; [reflexivity|]. split; [done|]. right.
    split; [done|]. exists (S more). split; [lia|]. done.
  - erewrite bind_throws by exact Hc.
    eexists _, _. split; [reflexivity|]. split; [done|]. by left.
  - unfold bind at 1. rewrite Hc.
    eexists _, _. split; [reflexivity|]. split; [done|]. by left.
Qed.

End Scrape.

Section ScrapeClass.
Context (env : Env) (site : Site) (browser : nat).
Context (url className outputFile : string).

(** Every way the [try] block of [crawlByClass] can go. *)
Lemma scrapeClass_cases w :
  let data := classElements site className in
  let tab := opened browser url w in
  Cli.scrapeClass env site browser url className outputFile w
  = match newPageThrows site with
    | Some message => (w, Throw message)
    | None =>
        match gotoThrows site, scrollThrows site,
              collectThrows site className with
        | Some message, _, _ => (tab, Throw message)
        | None, Some message, _ => (tab, Throw message)
        | None, None, Some message => (tab, Throw message)
        | None, None, None =>
            match data with
            | [] =>
                (tab, match sampleThrows site with
                      | Some message => Throw message
                      | None => Normal tt
                      end)
            | _ :: _ =>
                match fsThrows env with
                | Some message => (tab, Throw message)
                | None =>
                    (set_files
                       <[outputFile :=
                           ClassFile url className (isoNow env)
                             (length data) data]> tab,
                     Normal tt)
                end
            end
        end
    end.
Proof.
  cbv zeta. unfold Cli.scrapeClass.
  destruct (newPageThrows site) as [message|] eqn:Hnew.
  { by erewrite bind_throws by (by apply newPage_throws). }
  erewrite bind_returns by (by apply newPage_opens).
  destruct (gotoThrows site); [done|].
  destruct (scrollThrows site); [done|].
  destruct (collectThrows site className); [done|].
  cbn [mayThrow].
  rewrite !(bind_returns (ret tt) _ (opened browser url w)
              (opened browser url w) tt) by reflexivity.
  destruct (classElements site className); [by destruct (sampleThrows site)|].
  by destruct (fsThrows env).
Qed.

End ScrapeClass.

Section Commands.
Context (env : Env).

(** A command that has its browser closes it, however its [try] block
    ends. *)
Lemma command_closes {A} (headlessFlag : bool) (body : nat → Eff A) w w1 c :
  launchThrows env (length (launched w)) = None →
  body (length (launched w))
    (set_running (λ up, {[length (launched w)]} ∪ up)
       (set_launched (λ calls, calls ++ [headlessFlag]) w)) = (w1, c) →
  c ≠ Pending →
  (browser <- Cli.launch env headlessFlag ;;
   tryFinally (tryCatch (body browser) throw) (close browser)) w
  = (set_running (λ up, up ∖ {[length (launched w)]}) w1, c).
Proof.
  intros Hl Hbody Hc. unfold Cli.launch.
  erewrite bind_returns by (by apply launch_succeeds).
  unfold tryFinally, tryCatch. rewrite Hbody. by destruct c.
Qed.

Lemma command_without_browser {A} (headlessFlag : bool)
  (rest : nat → Eff A) message w :
  launchThrows env (length (launched w)) = Some message →
  (browser <- Cli.launch env headlessFlag ;; rest browser) w
  = (set_launched (λ calls, calls ++ [headlessFlag]) w, Throw message).
Proof.
  intros Hl. unfold Cli.launch.
  by erewrite bind_throws by (by apply launch_fails).
Qed.

End Commands.
End CommandFacts.

Module Commands.
Import Js Dom Script Host Run RunFacts ControllerFacts BatchFacts.
Import CliFacts FrameFacts Observe RouteFacts LoopFacts CommandFacts.
Local Open Scope eff_scope.

(** X13.  Both commands close the browser they launched, whatever
    happens after the launch: when the command ends, of the browsers
    that were running the one of the command is not running any more,
    and the others are. *)
Theorem commands_close_their_browser (env : Env) (fuel : nat)
  (url className outputFile : string) (headlessFlag : bool) (w : World) :
  let handle := length (launched w) in
  let history := Cli.crawlPriceHistory env fuel url outputFile headlessFlag in
  let byClass := Cli.crawlByClass env url className outputFile headlessFlag in
  launchThrows env handle = None →
  (outcome history w ≠ Pending →
   running (after history w) = running w ∖ {[handle]})
  ∧ running (after byClass w) = running w ∖ {[handle]}.
Proof.
  intros handle history byClass Hl. subst history byClass. split.
  - unfold outcome, after, Cli.crawlPriceHistory.
    set (w0 := set_running (λ up, {[length (launched w)]} ∪ up)
                 (set_launched (λ calls, calls ++ [headlessFlag]) w)).
    destruct (scrape_cases env (visit env 0 url) (length (launched w)) fuel
                url outputFile w0) as (w1 & c & Hs & Hrun & _).
    assert (c = Pending ∨ c ≠ Pending) as [->|Hc]
      by (destruct c; by eauto).
    + unfold Cli.launch.
      erewrite bind_returns by (by apply launch_succeeds).
      unfold tryFinally, tryCatch. fold w0. by rewrite Hs.
    + rewrite (command_closes env headlessFlag
                 (λ browser, Cli.scrape env (visit env 0 url) browser fuel
                               url outputFile) w w1 c Hl Hs Hc).
      intros _. cbn [fst running set_running]. rewrite Hrun. simpl.
      fold handle. set_solver.
  - unfold after, Cli.crawlByClass.
    pose proof (scrapeClass_cases env (visit env 0 url)
                  (length (launched w)) url className outputFile
                  (set_running (λ up, {[length (launched w)]} ∪ up)
                     (set_launched (λ calls, calls ++ [headlessFlag]) w)))
      as Hs.
    cbv zeta in Hs.
    assert (∃ w1 c,
              Cli.scrapeClass env (visit env 0 url) (length (launched w)) url
                className outputFile
                (set_running (λ up, {[length (launched w)]} ∪ up)
                   (set_launched (λ calls, calls ++ [headlessFlag]) w))
              = (w1, c)
              ∧ c ≠ Pending
              ∧ running w1 = {[length (launched w)]} ∪ running w)
      as (w1 & c & Hrun & Hc & Hup).
    { rewrite Hs.
      destruct (newPageThrows _); [by eexists _, _|].
      destruct (gotoThrows _); [by eexists _, _|].
      destruct (scrollThrows _); [by eexists _, _|].
      destruct (collectThrows _ _); [by eexists _, _|].
      destruct (classElements _ _).
      - destruct (sampleThrows _); by eexists _, _.
      - destruct (fsThrows env); by eexists _, _. }
    rewrite (command_closes env headlessFlag
               (λ browser, Cli.scrapeClass env (visit env 0 url) browser url
                             className outputFile) w w1 c Hl Hrun Hc).
    cbn [fst running set_running]. rewrite Hup. fold handle. set_solver.
Qed.

(** X14.  [crawlPriceHistory] leaves the files as they were, or
    returns normally with its output file holding a scraped result: the
    rows of the pages 1 to [pages] of the table, in order, with
    [totalPages = pages], at least one page.  Nothing is written when it
    throws. *)
Theorem history_file_shape (env : Env) (fuel : nat)
  (url outputFile : string) (headlessFlag : bool) (w : World) :
  let site := visit env 0 url in
  let run := Cli.crawlPriceHistory env fuel url outputFile headlessFlag in
  files (after run w) = files w
  ∨ ∃ pages,
      1 ≤ pages
      ∧ outcome run w = Normal tt
      ∧ files (after run w)
        = <[outputFile :=
              HistoryFile
                (scrapedResult env url (pagesFrom site 1 pages) pages)]>
            (files w).
Proof.
  intros site run. subst run. unfold outcome, after, Cli.crawlPriceHistory.
  fold site.
  destruct (launchThrows env (length (launched w))) as [message|] eqn:Hl.
  { left. by rewrite (command_without_browser env _ _ message). }
  set (w0 := set_running (λ up, {[length (launched w)]} ∪ up)
               (set_launched (λ calls, calls ++ [headlessFlag]) w)).
  destruct (scrape_cases env site (length (launched w)) fuel url outputFile
              w0) as (w1 & c & Hs & _ & Hfiles).
  assert (c = Pending ∨ c ≠ Pending) as [->|Hc]
    by (destruct c; by eauto).
  { left. unfold Cli.launch.
    erewrite bind_returns by (by apply launch_succeeds).
    unfold tryFinally, tryCatch. fold w0. rewrite Hs. cbn [fst].
    by destruct Hfiles as [[-> _]|[? _]]. }
  rewrite (command_closes env headlessFlag
             (λ browser, Cli.scrape env site browser fuel url outputFile)
             w w1 c Hl Hs Hc).
  cbn [fst snd files set_running].
  destruct Hfiles as [[-> _]|(-> & pages & Hpages & ->)]; [by left|].
  right. by exists pages.
Qed.

(** X15.  When the table root is there and no row shows up, the command
    [price-history] ends with exit status 0 and writes no file. *)
Theorem empty_table_writes_nothing (env : Env) (fuel : nat)
  (url : string) (output headlessArg : option string) (w : World) :
  let site := visit env 0 url in
  let action := Cli.priceHistoryAction env fuel url output headlessArg in
  launchThrows env (length (launched w)) = None →
  newPageThrows site = None → gotoThrows site = None →
  scrollThrows site = None → tableRoot site = true →
  filtersThrow site = None →
  rowsAppear (views site 1) = false →
  outcome action w = Normal 0 ∧ files (after action w) = files w.
Proof.
  intros site action Hl Hnew Hgoto Hscroll Hroot Hfilters Hrows.
  subst action. unfold Cli.priceHistoryAction.
  unfold Cli.crawlPriceHistory. fold site.
  set (flag := Cli.headlessMode (Cli.optionValue headlessArg "false")).
  set (w0 := set_running (λ up, {[length (launched w)]} ∪ up)
               (set_launched (λ calls, calls ++ [flag]) w)).
  assert (Cli.scrape env site (length (launched w)) fuel url
            (Cli.optionValue output "price-history.json") w0
          = (opened (length (launched w)) url w0, Normal tt)) as Hs.
  { unfold Cli.scrape.
    erewrite bind_returns by (by apply newPage_opens).
    by rewrite Hgoto, Hscroll, Hroot, Hfilters, Hrows. }
  unfold outcome, after, tryCatch.
  erewrite bind_returns
    by (by apply (command_closes env flag
                    (λ browser, Cli.scrape env site browser fuel url
                                  (Cli.optionValue output
                                     "price-history.json"))
                    w _ _ Hl Hs)).
  done.
Qed.

(** X16.  The command [crawl] ends with exit status 1, and no file,
    exactly when the launch, the new tab, the navigation, the scroll or
    the script that collects the elements throws, when no element was
    found and the script that samples the classes throws, or when
    elements were found and the write of the file throws; otherwise it
    ends with status 0, and then the file is written exactly when an
    element of the class was found, with these elements and their
    number. *)
Theorem crawl_action_outcome (env : Env) (url className : string)
  (output headlessArg : option string) (w : World) :
  let site := visit env 0 url in
  let outputFile := Cli.optionValue output "output.json" in
  let data := classElements site className in
  let action := Cli.crawlAction env url className output headlessArg in
  let throws :=
    is_Some (launchThrows env (length (launched w)))
    ∨ is_Some (newPageThrows site) ∨ is_Some (gotoThrows site)
    ∨ is_Some (scrollThrows site)
    ∨ is_Some (collectThrows site className)
    ∨ (data = [] ∧ is_Some (sampleThrows site))
    ∨ (data ≠ [] ∧ is_Some (fsThrows env)) in
  (throws → outcome action w = Normal 1 ∧ files (after action w) = files w)
  ∧ (¬ throws → data = [] →
     outcome action w = Normal 0 ∧ files (after action w) = files w)
  ∧ (¬ throws → data ≠ [] →
     outcome action w = Normal 0
     ∧ files (after action w)
       = <[outputFile :=
             ClassFile url className (isoNow env) (length data) data]>
           (files w)).
Proof.
  intros site outputFile data action throws. subst action throws.
  unfold Cli.crawlAction, outcome, after, tryCatch, Cli.crawlByClass.
  fold outputFile site.
  set (flag := Cli.headlessMode (Cli.optionValue headlessArg "false")).
  destruct (launchThrows env (length (launched w))) as [message|] eqn:Hl.
  { erewrite bind_throws
      by (by apply (command_without_browser env _ _ message)).
    split; [done|]. split; intros Hno; exfalso; apply Hno; by eauto. }
  pose proof (scrapeClass_cases env site (length (launched w)) url className
                outputFile
                (set_running (λ up, {[length (launched w)]} ∪ up)
                   (set_launched (λ calls, calls ++ [flag]) w))) as Hs.
  cbv zeta in Hs. fold data in Hs.
  pose proof (λ w1 c H, command_closes env flag
                (λ browser, Cli.scrapeClass env site browser url className
                              outputFile) w w1 c Hl H) as Hclose.
  destruct (newPageThrows site) as [m|].
  { erewrite bind_throws by (by apply (Hclose _ _ Hs)).
    split; [done|]. split; intros Hno; exfalso; apply Hno; by eauto. }
  destruct (gotoThrows site) as [m|].
  { erewrite bind_throws by (by apply (Hclose _ _ Hs)).
    split; [done|]. split; intros Hno; exfalso; apply Hno; by eauto 6. }
  destruct (scrollThrows site) as [m|].
  { erewrite bind_throws by (by apply (Hclose _ _ Hs)).
    split; [done|]. split; intros Hno; exfalso; apply Hno; by eauto 8. }
  destruct (collectThrows site className) as [m|].
  { erewrite bind_throws by (by apply (Hclose _ _ Hs)).
    split; [done|]. split; intros Hno; exfalso; apply Hno; by eauto 10. }
  destruct data as [|element rest] eqn:Hdata.
  - destruct (sampleThrows site) as [m|].
    + erewrite bind_throws by (by apply (Hclose _ _ Hs)).
      split; [done|].
      split; intros Hno; exfalso; apply Hno; do 5 right; left; by eauto.
    + erewrite bind_returns by (by apply (Hclose _ _ Hs)).
      split; [|by split].
      intros [[? [=]]|[[? [=]]|[[? [=]]|[[? [=]]|[[? [=]]|[[_ [? [=]]]|[? _]]]]]]];
        done.
  - destruct (fsThrows env) as [m|].
    + erewrite bind_throws by (by apply (Hclose _ _ Hs)).
      split; [done|].
      split; intros Hno; exfalso; apply Hno; do 6 right; by eauto.
    + erewrite bind_returns by (by apply (Hclose _ _ Hs)).
      split; [|by split].
      intros [[? [=]]|[[? [=]]|[[? [=]]|[[? [=]]|[[? [=]]|[[[=] _]|[_ [? [=]]]]]]]]].
Qed.

End Commands.

(** ** The records, and the two crawlers side by side *)

Module TrimFacts.
Import Js FloorPattern.

Lemma append_assoc (a b c : string) : (a +:+ b) +:+ c = a +:+ (b +:+ c).
Proof. induction a as [|x a IH]; [done|]. exact (f_equal (String x) IH). Qed.

Lemma append_empty (a : string) : a +:+ EmptyString = a.
Proof. induction a as [|x a IH]; [done|]. exact (f_equal (String x) IH). Qed.

Lemma length_append (a b : string) :
  String.length (a +:+ b) = String.length a + String.length b.
Proof. induction a as [|x a IH]; [done|]. exact (f_equal S IH). Qed.

Lemma stripPrefix_Some w s r : stripPrefix w s = Some r ↔ s = w +:+ r.
Proof.
  revert s. induction w as [|a w IH]; intros s; simpl.
  - split; [by intros [= ->]|by intros ->].
  - destruct s as [|b s]; [done|].
    destruct (Ascii.eqb a b) eqn:Hab.
    + apply Ascii.eqb_eq in Hab as ->. rewrite IH.
      split; [by intros ->|by intros [= ->]].
    + apply Ascii.eqb_neq in Hab. split; [done|]. intros [= -> _]. done.
Qed.

Lemma firstMatch_None (l : list string) s :
  foldr (λ w found, match stripPrefix w s with
                    | Some rest => Some rest
                    | None => found
                    end) None l = None
  ↔ ∀ w, w ∈ l → stripPrefix w s = None.
Proof.
  induction l as [|w l IH]; simpl.
  - split; [|done]. intros _ w Hw. by apply elem_of_nil in Hw.
  - destruct (stripPrefix w s) as [rest|] eqn:Hw.
    + split; [done|]. intros H. specialize (H w (list_elem_of_here _ _)).
      congruence.
    + rewrite IH. split.
      * intros H w' [->|Hw']%elem_of_cons; [done|by apply H].
      * intros H w' Hw'. apply H. by apply list_elem_of_further.
Qed.

Lemma firstMatch_Some (l : list string) s r :
  foldr (λ w found, match stripPrefix w s with
                    | Some rest => Some rest
                    | None => found
                    end) None l = Some r
  → ∃ w, w ∈ l ∧ s = w +:+ r.
Proof.
  induction l as [|w l IH]; simpl; [done|].
  destruct (stripPrefix w s) as [rest|] eqn:Hw.
  - intros [= ->]. exists w. split; [apply list_elem_of_here|].
    by apply stripPrefix_Some.
  - intros (w' & Hw' & ->)%IH. exists w'.
    split; [by apply list_elem_of_further|done].
Qed.

(** [afterSpace s] is [None] exactly when [s] begins with no white
    space. *)
Lemma afterSpace_None s :
  afterSpace s = None ↔ ∀ w r, w ∈ whiteSpace → s ≠ w +:+ r.
Proof.
  unfold afterSpace. rewrite firstMatch_None. split.
  - intros H w r Hw Hs. apply stripPrefix_Some in Hs.
    rewrite (H w Hw) in Hs. done.
  - intros H w Hw. destruct (stripPrefix w s) as [r|] eqn:Hs; [|done].
    apply stripPrefix_Some in Hs. by destruct (H w r Hw).
Qed.

Lemma afterSpace_Some s r :
  afterSpace s = Some r → ∃ w, w ∈ whiteSpace ∧ s = w +:+ r.
Proof. apply firstMatch_Some. Qed.

Ltac each_space Hw :=
  repeat (apply elem_of_cons in Hw as [->|Hw]; [|]);
  [..|by apply elem_of_nil in Hw].

(** No white-space character is the head of another. *)
Lemma afterSpace_append w r : w ∈ whiteSpace → afterSpace (w +:+ r) = Some r.
Proof. intros Hw. unfold whiteSpace in Hw. each_space Hw; reflexivity. Qed.

Lemma whiteSpace_length w : w ∈ whiteSpace → 0 < String.length w.
Proof.
  intros Hw. unfold whiteSpace in Hw. each_space Hw; simpl; lia.
Qed.

Lemma whiteSpace_no_digit w : w ∈ whiteSpace → allDigits w = false.
Proof. intros Hw. unfold whiteSpace in Hw. each_space Hw; reflexivity. Qed.

Lemma whiteSpace_head w :
  w ∈ whiteSpace → ∃ c r, w = String c r ∧ isDigit c = false.
Proof.
  intros Hw. unfold whiteSpace in Hw.
  each_space Hw; eexists _, _; (split; [reflexivity|reflexivity]).
Qed.

Lemma afterSpace_shorter s r :
  afterSpace s = Some r → String.length r < String.length s.
Proof.
  intros (w & Hw & ->)%afterSpace_Some. rewrite length_append.
  apply whiteSpace_length in Hw. lia.
Qed.

Lemma trimStartWithin_enough n m s :
  String.length s ≤ n → String.length s ≤ m →
  trimStartWithin n s = trimStartWithin m s.
Proof.
  revert m s. induction n as [|n IH]; intros m s Hn Hm.
  - destruct s; [|simpl in Hn; lia]. by destruct m.
  - destruct m as [|m].
    + destruct s; [done|simpl in Hm; lia].
    + simpl. destruct (afterSpace s) as [r|] eqn:Hs; [|done].
      apply afterSpace_shorter in Hs. apply IH; lia.
Qed.

Lemma trimStart_step s r : afterSpace s = Some r → trimStart s = trimStart r.
Proof.
  intros Hs. unfold trimStart.
  pose proof (afterSpace_shorter s r Hs) as Hlen.
  destruct (String.length s) as [|n] eqn:Hn; [lia|].
  simpl. rewrite Hs. apply trimStartWithin_enough; lia.
Qed.

Lemma trimStart_stop s : afterSpace s = None → trimStart s = s.
Proof.
  intros Hs. unfold trimStart.
  destruct (String.length s); [done|]. simpl. by rewrite Hs.
Qed.

Lemma trimStartWithin_done n s :
  String.length s ≤ n → afterSpace (trimStartWithin n s) = None.
Proof.
  revert s. induction n as [|n IH]; intros s Hn.
  - destruct s; [done|simpl in Hn; lia].
  - simpl. destruct (afterSpace s) as [r|] eqn:Hs; [|done].
    apply afterSpace_shorter in Hs. apply IH. lia.
Qed.

(** What [trimStart] gives begins with no white space. *)
Lemma trimStart_done s : afterSpace (trimStart s) = None.
Proof. by apply trimStartWithin_done. Qed.

Lemma trimEnd_cons c r :
  trimEnd (String c r)
  = if bool_decide (trimStart (String c r) = EmptyString) then EmptyString
    else String c (trimEnd r).
Proof. done. Qed.

(** [trimEnd] cuts a run of white space off the end. *)
Lemma trimEnd_rest s :
  ∃ rest, s = trimEnd s +:+ rest ∧ trimStart rest = EmptyString.
Proof.
  induction s as [|c r (rest & Hr & Hrest)]; [by exists EmptyString|].
  rewrite trimEnd_cons. case_bool_decide as Hs.
  - by exists (String c r).
  - exists rest. split; [|done]. exact (f_equal (String c) Hr).
Qed.

Lemma trimEnd_keeps_head s :
  afterSpace s = None → afterSpace (trimEnd s) = None.
Proof.
  intros Hs. apply afterSpace_None. intros w r Hw Hcut.
  destruct (trimEnd_rest s) as (rest & Hrest & _).
  rewrite Hcut, append_assoc in Hrest.
  by apply (proj1 (afterSpace_None s) Hs w (r +:+ rest) Hw).
Qed.

Lemma trimEnd_done s w r : w ∈ whiteSpace → trimEnd s ≠ r +:+ w.
Proof.
  intros Hw. revert r. induction s as [|c s IH]; intros r.
  - simpl. apply whiteSpace_length in Hw.
    intros Hr. apply (f_equal String.length) in Hr.
    rewrite length_append in Hr. simpl in Hr. lia.
  - rewrite trimEnd_cons. case_bool_decide as Hs.
    + apply whiteSpace_length in Hw.
      intros Hr. apply (f_equal String.length) in Hr.
      rewrite length_append in Hr. simpl in Hr. lia.
    + destruct r as [|x r].
      * intros Hc. change (String c (trimEnd s) = w) in Hc. apply Hs.
        destruct (trimEnd_rest s) as (rest & Hrest & Hblank).
        rewrite Hrest at 1.
        change (String c (trimEnd s +:+ rest))
          with (String c (trimEnd s) +:+ rest).
        rewrite Hc.
        by rewrite (trimStart_step _ rest (afterSpace_append w rest Hw)).
      * intros Hc. change (String c (trimEnd s) = String x (r +:+ w)) in Hc.
        injection Hc as _ Hr. by apply (IH r).
Qed.

(** What [trim] gives neither begins nor ends with white space. *)
Lemma trim_clean s w r :
  w ∈ whiteSpace → trim s ≠ w +:+ r ∧ trim s ≠ r +:+ w.
Proof.
  intros Hw. unfold trim. split; [|by apply trimEnd_done].
  apply (proj1 (afterSpace_None _)
           (trimEnd_keeps_head _ (trimStart_done s)) w r Hw).
Qed.

Lemma allDigits_append a b :
  allDigits (a +:+ b) = allDigits a && allDigits b.
Proof.
  induction a as [|c a IH]; [done|]. simpl. by rewrite IH, andb_assoc.
Qed.

Lemma digits_clean d w r :
  allDigits d = true → w ∈ whiteSpace → d ≠ w +:+ r ∧ d ≠ r +:+ w.
Proof.
  intros Hd Hw. split; intros ->; rewrite allDigits_append in Hd;
    apply andb_true_iff in Hd as [H1 H2];
    by rewrite (whiteSpace_no_digit w Hw) in *.
Qed.

End TrimFacts.

Module RecordFacts.
Import Js Dom FloorPattern Script FloorPatternFacts ScriptFacts Observe.
Import TrimFacts.

Lemma textOf_trimmed sel cell s :
  textOf sel cell = str s →
  ∀ w r, w ∈ whiteSpace → s ≠ w +:+ r ∧ s ≠ r +:+ w.
Proof.
  unfold textOf. destruct (querySelector sel cell); [|done].
  intros [= <-] w r. apply trim_clean.
Qed.

Lemma summaryFields_trimmed row k s :
  summaryFields row !! k = Some (str s) →
  ∀ w r, w ∈ whiteSpace → s ≠ w +:+ r ∧ s ≠ r +:+ w.
Proof.
  rewrite summaryFields_lookup.
  repeat case_decide; try done;
    (destruct (querySelector _ row); [|done]);
    intros [= Htext]; by eapply textOf_trimmed.
Qed.

Ltac find_key :=
  repeat first [apply list_elem_of_here | apply list_elem_of_further].

Lemma summaryFields_keys row k :
  is_Some (summaryFields row !! k) →
  k ∈ ["date"; "bedrooms"; "size"; "price"; "pricePerSqft"; "floorLevel";
       "buildStatus"].
Proof.
  rewrite summaryFields_lookup.
  repeat (case_decide; [subst; intros _; find_key|]).
  by intros [? ?].
Qed.

End RecordFacts.

Module Records.
Import Js Dom FloorPattern Script FloorPatternFacts ScriptFacts Observe.
Import TrimFacts RecordFacts.

(** X18.  A scraped record has no key beside the ten the extractor
    knows; and a next sibling that lacks the class [table-row-expanded]
    is not read: the record then has no lease, address or floor. *)
Theorem record_keys (row : Node) (sibling : option Node) :
  let t := extractRow row sibling in
  (∀ k, is_Some (t !! k) → k ∈ knownKeys)
  ∧ (∀ e, sibling = Some e → hasClass e "table-row-expanded" = false →
       t !! "lease" = None ∧ t !! "address" = None ∧ t !! "floor" = None).
Proof.
  cbv zeta. split.
  - intros k Hk.
    unfold knownKeys.
    destruct (decide (k = "lease")) as [->|]; [find_key|].
    destruct (decide (k = "address")) as [->|]; [find_key|].
    destruct (decide (k = "floor")) as [->|]; [find_key|].
    rewrite extractRow_summary in Hk by done.
    apply summaryFields_keys in Hk.
    change (k ∈ ["date"; "bedrooms"; "size"; "price"; "pricePerSqft";
                 "floorLevel"; "buildStatus"]
                ++ ["lease"; "address"; "floor"]).
    apply elem_of_app. by left.
  - intros e -> He. unfold extractRow. rewrite He.
    by rewrite !summaryFields_lookup.
Qed.

(** X19.  A record with a floor has an address, and the floor is a run
    of one or more digits that stands in that address between a "#" and
    a "-". *)
Theorem floor_is_found_in_the_address (row : Node) (sibling : option Node)
  (v : value) :
  extractRow row sibling !! "floor" = Some v →
  ∃ text pre digits post,
    extractRow row sibling !! "address" = Some (str text)
    ∧ v = str digits
    ∧ text = pre +:+ "#" +:+ digits +:+ "-" +:+ post
    ∧ digits ≠ EmptyString ∧ allDigits digits = true.
Proof.
  rewrite extractRow_floor.
  destruct (extractRow row sibling !! "address") as [[|text]|]; try done.
  destruct (floorMatch text) as [digits|] eqn:Hm; [|done].
  intros [= <-].
  apply floorMatch_Some in Hm as (pre & (post & Hocc & Hd & Hall) & _).
  exists text, pre, digits, post. done.
Qed.

(** X20.  No string of a scraped record begins or ends with a
    character that [String.prototype.trim] removes: the white space and
    the line terminators of ECMAScript, the no-break space and the byte
    order mark among them ([whiteSpace]). *)
Theorem record_strings_are_trimmed (row : Node) (sibling : option Node)
  (k s : string) :
  extractRow row sibling !! k = Some (str s) →
  ∀ w rest, w ∈ whiteSpace → s ≠ w +:+ rest ∧ s ≠ rest +:+ w.
Proof.
  destruct (decide (k = "floor")) as [->|Hfloor].
  { rewrite extractRow_floor.
    destruct (extractRow row sibling !! "address") as [[|text]|]; try done.
    destruct (floorMatch text) as [digits|] eqn:Hm; [|done].
    intros [= <-].
    apply floorMatch_Some in Hm as (pre & (post & _ & _ & Hall) & _).
    intros w rest. by apply digits_clean. }
  destruct (decide (k = "lease")) as [->|Hlease].
  { unfold extractRow.
    assert (summaryFields row !! "lease" = None) as Hnone
      by (by rewrite summaryFields_lookup).
    destruct sibling as [e|]; [destruct (hasClass e _)|];
      rewrite ?expandedFields_lease, ?Hnone; try done.
    destruct (querySelector _ e); [|done].
    intros [= H]. by eapply textOf_trimmed. }
  destruct (decide (k = "address")) as [->|Haddress].
  { unfold extractRow.
    assert (summaryFields row !! "address" = None) as Hnone
      by (by rewrite summaryFields_lookup).
    destruct sibling as [e|]; [destruct (hasClass e _)|];
      rewrite ?expandedFields_address, ?Hnone; try done.
    destruct (querySelector _ e); [|done].
    intros [= H]. by eapply textOf_trimmed. }
  rewrite extractRow_summary by done. apply summaryFields_trimmed.
Qed.

End Records.

Module AgreementFacts.
Import Js Dom Script Host Run RunFacts ControllerFacts BatchFacts.
Import CliFacts FrameFacts Observe RouteFacts LoopFacts CommandFacts.
Local Open Scope eff_scope.


End AgreementFacts.

Module Agreement.
Import Js Dom Script Host Run RunFacts ControllerFacts BatchFacts.
Import CliFacts FrameFacts Observe RouteFacts LoopFacts CommandFacts.
Import AgreementFacts.
Local Open Scope eff_scope.


End Agreement.

(** ** Launches and URLs of a batch *)

Module BudgetFacts.
Import Js Dom Script Host Run RunFacts FastCrawler ControllerFacts BatchFacts.
Import CliFacts FrameFacts Observe RouteFacts.
Local Open Scope eff_scope.

(** What follows a computation and keeps a part of the world leaves that
    part as the computation left it. *)
Lemma after_bind_keeps {A B X} (part : World → X) (m : Eff A)
  (k : A → Eff B) w :
  (∀ a, Keeps part (k a)) → part (after (bind m k) w) = part (after m w).
Proof.
  intros Hk. unfold after, bind.
  destruct (m w) as [w1 [a| |]]; try done. apply (Hk a w1).
Qed.

Lemma after_tryCatch_keeps {A X} (part : World → X) (body : Eff A)
  handler w :
  (∀ message, Keeps part (handler message)) →
  part (after (tryCatch body handler) w) = part (after body w).
Proof.
  intros Hk. unfold after, tryCatch.
  destruct (body w) as [w1 [a|message|]]; try done. apply (Hk message w1).
Qed.

Lemma after_tryFinally_keeps {A X} (part : World → X) (body : Eff A)
  final w :
  Keeps part final →
  part (after (tryFinally body final) w) = part (after body w).
Proof.
  intros Hf. unfold after, tryFinally.
  destruct (body w) as [w1 c]. specialize (Hf w1). unfold after in Hf.
  destruct c; try done; by destruct (final w1) as [w2 [[]| |]].
Qed.

Section Launches.
Context (env : Env) (this : Crawler).

(** The launches of [initBrowsers]: at most the budget, all with the
    flag of the pool. *)
Lemma launchAll_launched count w :
  ∃ k, k ≤ count
       ∧ launched (after (launchAll env this count) w)
         = launched w ++ replicate k (poolFlag env this).
Proof.
  revert w. induction count as [|count IH]; intros w.
  { exists 0. split; [done|]. by rewrite app_nil_r. }
  cbn [launchAll]. fold (poolFlag env this).
  destruct (launchThrows env (length (launched w))) as [message|] eqn:Hl.
  - exists 1. split; [lia|]. unfold after.
    by erewrite bind_throws by (by apply launch_fails).
  - unfold after.
    erewrite bind_returns by (by apply launch_succeeds).
    erewrite bind_returns by reflexivity.
    match goal with
    | |- context [launchAll env this count ?w1] =>
        destruct (IH w1) as (k & Hk & Hafter)
    end.
    exists (S k). split; [lia|]. unfold after in Hafter. rewrite Hafter.
    simpl. by rewrite <- app_assoc.
Qed.

(** The launches of the loop without an end: one for each unit of fuel
    at most. *)
Lemma launchForever_launched fuel w :
  ∃ k, k ≤ fuel
       ∧ launched (after (launchForever env this fuel) w)
         = launched w ++ replicate k (poolFlag env this).
Proof.
  revert w. induction fuel as [|fuel IH]; intros w.
  { exists 0. split; [done|]. by rewrite app_nil_r. }
  cbn [launchForever]. fold (poolFlag env this).
  destruct (launchThrows env (length (launched w))) as [message|] eqn:Hl.
  - exists 1. split; [lia|]. unfold after.
    by erewrite bind_throws by (by apply launch_fails).
  - unfold after.
    erewrite bind_returns by (by apply launch_succeeds).
    erewrite bind_returns by reflexivity.
    match goal with
    | |- context [launchForever env this fuel ?w1] =>
        destruct (IH w1) as (k & Hk & Hafter)
    end.
    exists (S k). split; [lia|]. unfold after in Hafter. rewrite Hafter.
    simpl. by rewrite <- app_assoc.
Qed.

(** The launches of [initBrowsers]: each one in a turn whose counter is
    below the budget. *)
Lemma initBrowsers_launched fuel w :
  ∃ k, launched (after (initBrowsers env fuel this) w)
       = launched w ++ replicate k (poolFlag env this)
       ∧ (∀ i, i < k → below i (concurrency this) = true)
       ∧ (∀ turns, turnsBelow (concurrency this) = Some turns → k ≤ turns).
Proof.
  unfold initBrowsers.
  destruct (turnsBelow (concurrency this)) as [turns|] eqn:Hturns.
  - destruct (launchAll_launched turns w) as (k & Hk & Hafter).
    exists k. split; [done|]. split.
    + intros i Hi. apply (NumberFacts.turnsBelow_counts _ turns Hturns). lia.
    + by intros ? [= <-].
  - destruct (launchForever_launched fuel w) as (k & Hk & Hafter).
    exists k. split; [done|]. split; [|done].
    intros i _. by apply NumberFacts.turnsBelow_endless.
Qed.

Lemma batch_launched fuel urls sessionId w :
  launched (after (crawlMultipleUrls env fuel this urls sessionId) w)
  = launched (after (initBrowsers env fuel this) w).
Proof.
  unfold crawlMultipleUrls. apply after_bind_keeps.
  intros _. apply Keeps_tryFinally.
  - apply Keeps_Tame; [done|apply Tame_body].
  - unfold closeAll. apply Keeps_bind; [done|intros pool].
    by apply Keeps_closeEach.
Qed.

End Launches.

(** The URL of a result is the URL the crawl was called with. *)
Lemma crawl_result_url env fuel this url sessionId urlIndex totalUrls w r :
  outcome (crawlPropertyGuru env fuel this url sessionId urlIndex totalUrls) w
  = Normal r →
  cd_url r = url.
Proof.
  destruct (browserFor (browsers w) urlIndex) as [browser|] eqn:Hb;
    [|by rewrite crawl_no_browser].
  rewrite (crawl_with_browser _ _ _ _ _ _ _ _ browser Hb).
  rewrite scrape_outcome.
  destruct (newPageThrows _); [done|].
  destruct (gotoThrows _).
  { destruct (closeThrows _); [done|]. by intros [= <-]. }
  destruct (scrollThrows _).
  { destruct (closeThrows _); [done|]. by intros [= <-]. }
  destruct (tableRoot _).
  2:{ destruct (closeThrows _); [done|]. by intros [= <-]. }
  destruct (filtersThrow _).
  { destruct (closeThrows _); [done|]. by intros [= <-]. }
  destruct (outcome (cycle _ _ _ _ _ _ _ _) w) as [[all page]|message|];
    [| |done]; (destruct (closeThrows _); [done|]); by intros [= <-].
Qed.

End BudgetFacts.

Module Batches.
Import Js Dom Script Host Run RunFacts FastCrawler ControllerFacts BatchFacts.
Import CliFacts FrameFacts Observe RouteFacts BudgetFacts.
Local Open Scope eff_scope.

(** X21.  A request launches a browser only in a turn of the loop of
    [initBrowsers] whose counter is below [concurrency || 3], whatever
    fails on the way: at most 3 browsers for [2.5], none for a negative
    budget, and as many as the loop makes turns otherwise.  All are
    launched with the same [headless] flag: the one of
    [chrome-aws-lambda] in production, otherwise [true] unless the
    request says [headless: false].  With [options: null] nothing is
    launched. *)
Theorem request_launch_budget (env : Env) (fuel : nat) (url : string)
  (urls : list string) (options : Options) (stream now : nat) (w : World) :
  let request given :=
    Server.postCrawl env fuel (url :: urls) given stream now in
  let flag :=
    match lambdaHeadless env with
    | Some fixed => fixed
    | None => negb (bool_decide (opt_headless options = Some false))
    end in
  let budget := orDefault (opt_concurrency options) (ofNat 3) in
  (∃ k, launched (after (request (Server.objectOptions options)) w)
        = launched w ++ replicate k flag
        ∧ (∀ i, i < k → below i budget = true)
        ∧ (∀ turns, turnsBelow budget = Some turns → k ≤ turns))
  ∧ launched (after (request Server.nullOptions) w) = launched w.
Proof.
  intros request flag budget. subst request. split; [|done].
  destruct (initBrowsers_launched env (routeCrawler options) fuel
              (registered stream now w)) as (k & Hafter & Hbelow & Hturns).
  exists k. split; [|by split].
  change (launched w) with (launched (registered stream now w)).
  change flag with (poolFlag env (routeCrawler options)).
  rewrite <- Hafter.
  rewrite <- (batch_launched env (routeCrawler options) fuel (url :: urls)
                (pretty now)).
  unfold after at 1. rewrite postCrawl_unfold.
  fold (after
          (tryFinally
             (tryCatch
                (results <- crawlMultipleUrls env fuel (routeCrawler options)
                              (url :: urls) (pretty now) ;;
                 write stream (Complete results (pretty now) (elapsed env)) ;;
                 mayThrow (fsThrows env) ;;
                 writeFile (bulkFile (pretty now))
                   (BulkFile (pretty now) (isoNow env)
                      (length (url :: urls)) results) ;;
                 write stream (Saved (bulkFile (pretty now))))
                (λ message, write stream (BatchError message)))
             (modify (set_activeCrawls (delete (pretty now))) ;;
              modify (set_ended (λ s, {[stream]} ∪ s))) ;;
           ret Server.EventStream) (registered stream now w)).
  rewrite after_bind_keeps by done.
  rewrite after_tryFinally_keeps by done.
  rewrite after_tryCatch_keeps by done.
  apply after_bind_keeps. intros results.
  apply Keeps_bind; [done|intros _].
  apply Keeps_bind; [apply Keeps_mayThrow|intros _].
  apply Keeps_bind; done.
Qed.

(** X22.  In the results of a batch the entry of a URL has the URL as
    it was given, while the data inside carries the trimmed URL; an entry
    has data exactly when it is a success and an error exactly when it
    is not. *)
Theorem entry_url_and_data_url (env : Env) (fuel : nat) (this : Crawler)
  (urls : list string) (sessionId : string) (budget : nat) (w : World) :
  let pool := browsers w ++ seq (length (launched w)) budget in
  turnsBelow (concurrency this) = Some budget →
  launchesSucceed env (length (launched w)) budget →
  (∀ i url, urls !! i = Some url →
     crawlOutcome env fuel this pool urls sessionId i url ≠ Pending) →
  ∃ entries,
    outcome (crawlMultipleUrls env fuel this urls sessionId) w
    = Normal entries
    ∧ ∀ i url, urls !! i = Some url →
        ∃ e, entries !! i = Some e
             ∧ be_url e = Some url
             ∧ (∀ data, be_data e = Some data → cd_url data = trim url)
             ∧ (be_success e = true ↔ is_Some (be_data e))
             ∧ (be_success e = false ↔ is_Some (be_error e)).
Proof.
  intros pool Hbudget Hok Hfuel.
  destruct (crawlMultipleUrls_outcome env this fuel urls sessionId budget
              Hbudget w Hok Hfuel)
    as (results & Hout & Hlen & Hown).
  exists (imap (entry urls) results). split; [done|].
  intros i url Hurl. destruct (Hown i url Hurl) as (r & Hr & Hset).
  exists (entry urls i r). rewrite list_lookup_imap, Hr.
  split; [done|]. unfold entry. rewrite Hurl. split; [done|].
  unfold crawlOutcome in Hset.
  destruct r as [v|reason]; simpl.
  - split.
    + intros data [= <-].
      destruct (outcome _ _) as [v'| |] eqn:Hcrawl in Hset; try done.
      injection Hset as ->. by apply crawl_result_url in Hcrawl.
    + split; [split; [by eauto|done] | split; [done|by intros [? ?]]].
  - split; [done|].
    split; [split; [done|by intros [? ?]] | split; [by eauto|done]].
Qed.

End Batches.

(** ** More scenarios *)

Module MoreScenarios.
Import Js Dom FloorPattern Script Host Run FastCrawler Sample.
Import Observe Fixtures.

Lemma leading_pages_turn (site : Site) (count : nat) :
  (∀ page, 1 ≤ page < 1 + count → views site page = view 10 false) →
  ∀ page, 1 ≤ page < 1 + count → turns site page.
Proof.
  intros Hv page Hp. unfold turns. rewrite (Hv page Hp).
  repeat split; vm_compute; reflexivity.
Defined.

Lemma fulfilled_result_shape_witness :
  let result := scrapedResult (web vanishingSite) "u"
                  (pagesFrom vanishingSite 1 1) 2 in
  (∃ message, result = errorResult "u" message)
  ∨ (∃ scraped page,
       result = scrapedResult (web vanishingSite) "u"
                  (pagesFrom vanishingSite 1 scraped) page
       ∧ (page = scraped ∨ page = S scraped)
       ∧ 1 ≤ page).
Proof.
  apply (ControllerMore.fulfilled_result_shape
           (web vanishingSite) 5 (crawler 3) "u" "s" 0 1 (blank [0])).
  vm_compute. reflexivity.
Defined.

Lemma script_failure_discards_rows_witness :
  outcome (crawlPropertyGuru (web scriptFailsSite) 5 (crawler 3) "u" "s" 0 1)
    (blank [0])
  = Normal (errorResult "u" "Execution context was destroyed").
Proof.
  apply (ControllerMore.script_failure_discards_rows
           (web scriptFailsSite) 5 (crawler 3) "u" "s" 0 1 (blank [0]) 0 1).
  - reflexivity.
  - by repeat split.
  - apply leading_pages_turn. intros [|[|page]] Hp; try lia. reflexivity.
  - reflexivity.
  - left. reflexivity.
  - lia.
Defined.

(** The script that looks at the next control throws after the page was
    reported: the listener has seen the rows of the page, the result has
    none. *)
Lemma status_failure_follows_the_report :
  let run := crawlPropertyGuru (web statusFailsSite) 5 (crawler 1) "u" "s"
               0 1 in
  outcome run (listeningWorld "s" 7 [0])
  = Normal (errorResult "u" "Execution context was destroyed")
  ∧ Progress (event "u" 0 1 scraping "Scraped page 1 (2 records)" None)
    ∈ chunksOf 7 (after run (listeningWorld "s" 7 [0])).
Proof.
  split; [vm_compute; reflexivity|].
  vm_compute.
  repeat first [apply list_elem_of_here | apply list_elem_of_further].
Qed.

Lemma request_always_ends_witness :
  let request := Server.postCrawl (web onePageSite) 5 ["a"; "b"]
                   (Server.objectOptions noOptions) 7 42 in
  outcome request (blank []) = Normal Server.EventStream
  ∧ activeCrawls (after request (blank [])) = delete "42" ∅
  ∧ 7 ∈ ended (after request (blank [])).
Proof.
  destruct (Route.request_always_ends (web onePageSite) 5 "a" ["b"]
              (Server.objectOptions noOptions) 7 42 (blank []))
    as [Hobject _].
  destruct (Hobject noOptions eq_refl) as (H1 & H2 & H3 & _).
  - vm_compute. discriminate.
  - done.
Defined.

Lemma request_reports_and_saves_witness :
  let request := Server.postCrawl (web onePageSite) 5 ["a"; "b"]
                   (Server.objectOptions noOptions) 7 42 in
  ∃ earlier results,
    length results = 2
    ∧ chunksOf 7 (after request (blank []))
      = earlier ++ [Complete results "42" 0;
                    Saved "output/bulk-crawl-42.json"]
    ∧ files (after request (blank []))
      = <["output/bulk-crawl-42.json" :=
            BulkFile "42" "2025-09-01T00:00:00.000Z" 2 results]> ∅.
Proof.
  destruct (Route.request_reports_and_saves (web onePageSite) 5 "a" ["b"]
              noOptions 7 42 (blank []) 3)
    as (earlier & results & Hlen & _ & Hsaved & _).
  - reflexivity.
  - intros k _. reflexivity.
  - intros [|[|i]] u [= <-]; vm_compute; discriminate.
  - exists earlier, results. split; [exact Hlen|]. by apply Hsaved.
Defined.

Lemma request_reports_failed_launch_witness :
  let request := Server.postCrawl secondLaunchFails 5 ["a"; "b"]
                   (Server.objectOptions noOptions) 7 42 in
  outcome request (blank []) = Normal Server.EventStream
  ∧ chunksOf 7 (after request (blank []))
    = [BatchError "Failed to launch the browser process"]
  ∧ files (after request (blank [])) = ∅
  ∧ 0 ∈ running (after request (blank [])).
Proof.
  destruct (Route.request_reports_failed_launch secondLaunchFails 5 "a"
              ["b"] noOptions 7 42 (blank []) 1 3
              "Failed to launch the browser process")
    as (H1 & H2 & H3 & H4).
  - reflexivity.
  - lia.
  - intros [|k] Hk; [reflexivity|lia].
  - reflexivity.
  - split; [exact H1|]. split; [exact H2|]. split; [exact H3|].
    apply (H4 0). lia.
Defined.

Lemma progress_of_a_crawl_witness :
  let run := crawlPropertyGuru (web statusFailsSite) 5 (crawler 1) "u" "s"
               0 1 in
  chunksOf 7 (after run (listeningWorld "s" 7 [0]))
  = map Progress
      [event "u" 0 1 starting "Navigating to page..." None;
       event "u" 0 1 loading "Waiting for content..." None;
       event "u" 0 1 scraping "Extracting data..." None;
       event "u" 0 1 scraping "Scraped page 1 (2 records)" None;
       event "u" 0 1 error "Execution context was destroyed"
         (Some "Execution context was destroyed")].
Proof.
  destruct (Progress.progress_of_a_crawl (web statusFailsSite) 5 (crawler 1)
              "u" "s" 0 1 7 (listeningWorld "s" 7 [0]))
    as (mid & last & H1 & _ & _ & _ & _ & _ & H2).
  - exists 0. vm_compute. reflexivity.
  - by eexists.
  - reflexivity.
  - vm_compute. discriminate.
  - cbv zeta. rewrite H1.
    rewrite (H2 "Execution context was destroyed") by reflexivity.
    reflexivity.
Defined.

Lemma early_rejection_is_silent_witness :
  let run := crawlPropertyGuru (web onePageSite) 5 (crawler 1) "u" "s" 0 1 in
  after run (listeningWorld "s" 7 []) = listeningWorld "s" 7 []
  ∧ ∃ message, outcome run (listeningWorld "s" 7 []) = Throw message.
Proof.
  apply (Progress.early_rejection_is_silent (web onePageSite) 5 (crawler 1)
           "u" "s" 0 1 (listeningWorld "s" 7 [])).
  left. reflexivity.
Defined.

Lemma rejected_crawl_is_marked_failed_witness :
  ∃ entries,
    outcome (crawlMultipleUrls secondTabFails 5 (crawler 2)
               ["a"; "b"; "c"] "s") (blank []) = Normal entries
    ∧ length entries = 3
    ∧ entries !! 1
      = Some {| be_url := Some "b"; be_success := false; be_data := None;
                be_error := Some "Protocol error (Target.createTarget)" |}.
Proof.
  apply (CoordinatorMore.rejected_crawl_is_marked_failed secondTabFails 5
           (crawler 2) ["a"; "b"; "c"] "s" (blank []) 1 2 "b"
           "Protocol error (Target.createTarget)").
  - reflexivity.
  - reflexivity.
  - intros k _. reflexivity.
  - reflexivity.
  - intros [|[|[|i]]] other [= <-]; vm_compute; discriminate.
  - right. split; [lia|]. left. reflexivity.
Defined.

Lemma batch_closes_its_pool_witness :
  let run := crawlMultipleUrls (web onePageSite) 5 (crawler 2)
               ["a"; "b"; "c"] "s" in
  running (after run (blank [])) = ∅ ∖ list_to_set ([] ++ seq 0 2)
  ∧ browsers (after run (blank [])) = [] ++ seq 0 2.
Proof.
  apply (CoordinatorMore.batch_closes_its_pool (web onePageSite) 5
           (crawler 2) ["a"; "b"; "c"] "s" (blank []) 2).
  - reflexivity.
  - intros k _. reflexivity.
  - vm_compute. discriminate.
Defined.

Lemma commands_close_their_browser_witness :
  running (after (Cli.crawlByClass (web onePageSite) "u" "c" "o" true)
             (blank []))
  = ∅ ∖ {[0]}.
Proof.
  destruct (Commands.commands_close_their_browser (web onePageSite) 5 "u"
              "c" "o" true (blank [])) as [_ H].
  - reflexivity.
  - exact H.
Defined.

Lemma empty_table_writes_nothing_witness :
  let action := Cli.priceHistoryAction (web emptyTableSite) 5 "u" None None in
  outcome action (blank []) = Normal 0
  ∧ files (after action (blank [])) = ∅.
Proof.
  apply (Commands.empty_table_writes_nothing (web emptyTableSite) 5 "u"
           None None (blank [])); reflexivity.
Defined.

Lemma floor_is_found_in_the_address_witness :
  ∃ text pre digits post,
    extractRow sparseRow (Some (detailRow " #07-12, Example Rd "))
      !! "address" = Some (str text)
    ∧ str "07" = str digits
    ∧ text = pre +:+ "#" +:+ digits +:+ "-" +:+ post
    ∧ digits ≠ EmptyString ∧ allDigits digits = true.
Proof.
  apply (Records.floor_is_found_in_the_address sparseRow
           (Some (detailRow " #07-12, Example Rd ")) (str "07")).
  vm_compute. reflexivity.
Defined.

Lemma record_strings_are_trimmed_witness :
  extractRow paddedRow None !! "date" = Some (str "Sept 2025")
  ∧ "Sept 2025" ≠ utf8 [194; 160] +:+ "Sept 2025"
  ∧ "Sept 2025" ≠ "Sept 2025" +:+ utf8 [194; 160].
Proof.
  split; [vm_compute; reflexivity|].
  apply (Records.record_strings_are_trimmed paddedRow None "date"
           "Sept 2025").
  - vm_compute. reflexivity.
  - unfold whiteSpace.
    repeat first [apply list_elem_of_here | apply list_elem_of_further].
Defined.

Lemma crawl_action_outcome_witness :
  let action := Cli.crawlAction (web badClassSite) "u" "1abc" None None in
  outcome action (blank []) = Normal 1
  ∧ files (after action (blank [])) = ∅.
Proof.
  destruct (Commands.crawl_action_outcome (web badClassSite) "u" "1abc"
              None None (blank [])) as [Hthrows _].
  apply Hthrows. do 4 right. left. by eexists.
Defined.

Lemma request_launch_budget_witness :
  let fraction :=
    {| opt_concurrency := Some (numeral (finite (QArith_base.Qmake 5 2)));
       opt_headless := None; opt_timeout := None |} in
  let request :=
    Server.postCrawl (web onePageSite) 5 ["a"]
      (Server.objectOptions fraction) 7 42 in
  turnsBelow (numeral (finite (QArith_base.Qmake 5 2))) = Some 3
  ∧ launched (after request (blank [])) = [true; true; true]
  ∧ ∃ k, launched (after request (blank [])) = [] ++ replicate k true
         ∧ (∀ turns, turnsBelow (numeral (finite (QArith_base.Qmake 5 2))) = Some turns
                     → k ≤ turns).
Proof.
  split; [reflexivity|]. split; [vm_compute; reflexivity|].
  destruct (Batches.request_launch_budget (web onePageSite) 5 "a" []
              {| opt_concurrency := Some (numeral (finite (QArith_base.Qmake 5 2)));
                 opt_headless := None; opt_timeout := None |}
              7 42 (blank [])) as [(k & Hlaunched & _ & Hturns) _].
  exists k. split; [exact Hlaunched|exact Hturns].
Defined.


Lemma entry_url_and_data_url_witness :
  ∃ entries,
    outcome (crawlMultipleUrls (web onePageSite) 5 (crawler 2)
               ["a"; " b "] "s") (blank []) = Normal entries
    ∧ ∃ e, entries !! 1 = Some e
           ∧ be_url e = Some " b "
           ∧ ∀ data, be_data e = Some data → cd_url data = "b".
Proof.
  destruct (Batches.entry_url_and_data_url (web onePageSite) 5 (crawler 2)
              ["a"; " b "] "s" 2 (blank []))
    as (entries & Hout & Hown).
  - reflexivity.
  - intros k _. reflexivity.
  - intros [|[|i]] url [= <-]; vm_compute; discriminate.
  - exists entries. split; [exact Hout|].
    destruct (Hown 1 " b " eq_refl) as (e & He & Hurl & Hdata & _).
    exists e. split; [exact He|]. split; [exact Hurl|]. exact Hdata.
Defined.

End MoreScenarios.
